(** * SFDX-Falcon: recipe engine, recipe model and command layer

    A shallow embedding of the TypeScript sources

      - modules/sfdx-falcon-recipe/engines/appx/index.ts  (AppxRecipeEngine)
      - modules/sfdx-falcon-recipe/index.ts               (SfdxFalconRecipe)
      - modules/sfdx-falcon-command/index.ts              (SfdxFalconCommand)
      - modules/sfdx-falcon-recipe/engines/appx/actions   (option checks)
      - modules/sfdx-falcon-util/index.ts                 (createUniqueUsername)
      - helpers/ux-helper.ts                              (table helpers)

    JavaScript values read from a recipe file are kept dynamically typed
    ([JsValue]); exceptions and rejected promises are completions that carry
    the thrown value; [this] is threaded explicitly as a state.  All code is
    single threaded and every [await] sits in a linear sequence, so an
    awaited promise is modelled by the completion it settles with. *)

From Stdlib Require Import ZArith Bool Ascii String List Lia.
From stdpp Require Import base gmap strings pretty.
Import ListNotations.

Set Warnings "-register-all".
Local Open Scope string_scope.
Local Open Scope list_scope.

(** ** JavaScript values *)

Module Js.

Inductive JsValue : Type :=
| JsUndefined
| JsNull
| JsBool (b : bool)
| JsNumber (n : Z)
| JsString (s : string)
| JsArray (items : list JsValue)
| JsObject (fields : list (string * JsValue)).

(** [typeof v] *)
Definition typeof (v : JsValue) : string :=
  match v with
  | JsUndefined => "undefined"
  | JsNull => "object"
  | JsBool _ => "boolean"
  | JsNumber _ => "number"
  | JsString _ => "string"
  | JsArray _ => "object"
  | JsObject _ => "object"
  end.

(** ToBoolean: what [if (v)] and [! v] look at. *)
Definition truthy (v : JsValue) : bool :=
  match v with
  | JsUndefined | JsNull => false
  | JsBool b => b
  | JsNumber n => negb (n =? 0)%Z
  | JsString s => negb (String.eqb s "")
  | JsArray _ | JsObject _ => true
  end.

(** [Array.isArray(v)] *)
Definition isArray (v : JsValue) : bool :=
  match v with JsArray _ => true | _ => false end.

(** [typeof v !== 'string' || v === ''] *)
Definition notNonEmptyString (v : JsValue) : bool :=
  negb (String.eqb (typeof v) "string")
  || match v with JsString s => String.eqb s "" | _ => false end.

(** [Array.prototype.includes] on an array of strings. *)
Definition includes (l : list string) (x : string) : bool :=
  existsb (String.eqb x) l.

(** [Array.prototype.toString] on an array of strings: joined by commas. *)
Definition arrayToString (l : list string) : string := String.concat "," l.

(** [`${v}`]: the string a value renders as in a template literal. *)
Fixpoint render (v : JsValue) : string :=
  match v with
  | JsString s => s
  | JsUndefined => "undefined"
  | JsNull => "null"
  | JsBool true => "true"
  | JsBool false => "false"
  | JsNumber n => pretty n
  | JsArray items =>
      String.concat ","
        (map (fun x => match x with
                       | JsUndefined | JsNull => ""
                       | _ => render x
                       end) items)
  | JsObject _ => "[object Object]"
  end.

(** An [Error] object: the constructor that made it and its message. *)
Record JsError : Type := MkError { errCtor : string; message : string }.

Definition newError (msg : string) : JsError := MkError "Error" msg.
Definition newTypeError (msg : string) : JsError := MkError "TypeError" msg.

(** [s.startsWith(p)] *)
Definition startsWith (p s : string) : bool := String.prefix p s.

(** A string is kept as the bytes of its UTF-8 text, while [s.length]
    counts UTF-16 code units.  A byte below 128 is a character of its own;
    a continuation byte (128 to 191) adds nothing to the character its lead
    byte starts; a lead byte of a two or three byte sequence stands for one
    code unit, and a lead byte of a four byte sequence for a surrogate
    pair. *)
Definition utf16Units (c : ascii) : nat :=
  let n := nat_of_ascii c in
  if (n <? 128)%nat then 1%nat
  else if (n <? 192)%nat then 0%nat
  else if (n <? 240)%nat then 1%nat
  else 2%nat.

(** [s.length] *)
Fixpoint jsLength (s : string) : nat :=
  match s with
  | EmptyString => 0%nat
  | String c rest => (utf16Units c + jsLength rest)%nat
  end.

End Js.
Import Js.

(** ** Completions and the state/exception/trace monad *)

Module Eff.

(** What a statement completes with: a value, or a throw of [E]. *)
Inductive Completion (E A : Type) : Type :=
| Normal (a : A)
| Throw (e : E).
Arguments Normal {E A} a.
Arguments Throw {E A} e.

(** One run of a method on a mutable [this] of type [S]: how it completed,
    the object afterwards (mutations survive a throw), and the calls it
    made, in order. *)
Record Run (Ev E S A : Type) : Type :=
  MkRun { completion : Completion E A; after : S; trace : list Ev }.
Arguments MkRun {Ev E S A}.
Arguments completion {Ev E S A}.
Arguments after {Ev E S A}.
Arguments trace {Ev E S A}.

Definition M (Ev E S A : Type) : Type := S -> Run Ev E S A.

Section Ops.
Context {Ev E S : Type}.

Definition ret {A} (a : A) : M Ev E S A :=
  fun s => MkRun (Normal a) s [].

Definition bind {A B} (m : M Ev E S A) (k : A -> M Ev E S B) : M Ev E S B :=
  fun s =>
    let r := m s in
    match completion r with
    | Normal a =>
        let r' := k a (after r) in
        MkRun (completion r') (after r') (trace r ++ trace r')
    | Throw e => MkRun (Throw e) (after r) (trace r)
    end.

Definition raise {A} (e : E) : M Ev E S A :=
  fun s => MkRun (Throw e) s [].

Definition get : M Ev E S S := fun s => MkRun (Normal s) s [].

Definition modify (f : S -> S) : M Ev E S unit :=
  fun s => MkRun (Normal tt) (f s) [].

Definition emit (ev : Ev) : M Ev E S unit :=
  fun s => MkRun (Normal tt) s [ev].

(** [try { m } catch (e) { h e }] *)
Definition tryCatch {A} (m : M Ev E S A) (h : E -> M Ev E S A) : M Ev E S A :=
  fun s =>
    let r := m s in
    match completion r with
    | Normal a => r
    | Throw e =>
        let r' := h e (after r) in
        MkRun (completion r') (after r') (trace r ++ trace r')
    end.

(** A pure computation that may throw, run inside a method. *)
Definition lift {A} (c : Completion E A) : M Ev E S A :=
  fun s => MkRun c s [].

End Ops.

Declare Scope eff_scope.
Delimit Scope eff_scope with eff.
Notation "x <- m ;; k" := (bind m (fun x => k))
  (at level 100, m at next level, k at level 200, right associativity) : eff_scope.
Notation "m ;; k" := (bind m (fun _ => k))
  (at level 100, k at level 200, right associativity) : eff_scope.

End Eff.
Import Eff.

(** ** Data shared by the recipe, the engine and the results *)

Module Types.

(** [TargetOrg] (modules/sfdx-falcon-recipe/types), as an object read from
    the recipe file: every key may hold any value, or be missing
    ([JsUndefined]). *)
Record TargetOrg : Type := MkTargetOrg {
  orgName        : JsValue;
  alias          : JsValue;
  description    : JsValue;
  isScratchOrg   : JsValue;
  scratchDefJson : JsValue;
  orgReqsJson    : JsValue }.

(** The part of [SfdxFalconProject] the sources under study read. *)
Record SfdxFalconProject : Type := MkProject {
  configPath      : string;
  mdapiSourcePath : string }.

(** [AppxEngineStep] *)
Record AppxEngineStep : Type := MkStep {
  stepName        : string;
  stepDescription : string;
  action          : string;
  options         : JsValue;
  onSuccessHook   : option string;
  onErrorHook     : option string }.

(** [AppxEngineStepGroup] *)
Record AppxEngineStepGroup : Type := MkStepGroup {
  stepGroupName    : string;
  groupAlias       : string;
  groupDescription : string;
  recipeSteps      : list AppxEngineStep }.

(** [AppxEngineContext].  The constructor starts it as the empty object, so
    every member is optional until an initialisation step writes it. *)
Record AppxEngineContext : Type := MkContext {
  compileOptions : JsValue;
  recipeObserver : JsValue;
  executing      : option bool;
  initialized    : option bool;
  haltOnError    : option bool;
  skipGroups     : option (list string);
  skipActions    : option (list string);
  devHubAlias    : option string;
  projectContext : option SfdxFalconProject;
  logLevel       : option string;
  targetOrg      : option TargetOrg }.

Definition emptyContext : AppxEngineContext :=
  MkContext JsUndefined JsUndefined None None None None None None None None None.

(** [SfdxFalconCommandType] *)
Inductive SfdxFalconCommandType : Type :=
| CT_APPX_PACKAGE | CT_APPX_DEMO | CT_APPX_EXTENSION | CT_UNKNOWN.

(** [this.flags] of a command, as far as [SfdxFalconCommand] reads it. *)
Record CommandFlags : Type := MkFlags {
  outputdir          : option string;
  projectdir         : option string;
  targetdir          : option string;
  recipefile         : option string;
  configfile         : option string;
  extendedOptions    : option string;
  falcondebug        : option string;
  falcondebugerror   : option bool;
  falcondebugsuccess : option bool;
  falcondebugdepth   : option Z }.

(** [this.args] of a command. *)
Record CommandArgs : Type := MkArgs {
  GIT_REMOTE_URI : option string;
  GIT_CLONE_DIR  : option string }.

(** [SfdxFalconCommandResultDetail] *)
Record SfdxFalconCommandResultDetail : Type := MkCommandDetail {
  commandName      : string;
  commandType      : SfdxFalconCommandType;
  commandFlags     : CommandFlags;
  commandArgs      : CommandArgs;
  commandExitCode  : Z;
  enabledDebuggers : list string }.

(** The detail object of the ENGINE result.  [engineContext] is a
    reference to the engine's own context object (or still [null]), so
    only that fact is recorded. *)
Record EngineResultDetail : Type := MkEngineDetail {
  detailProjectContext : option SfdxFalconProject;
  detailRecipeName     : string;
  detailEngineName     : string;
  detailEngineContext  : bool;
  supportedActions     : option (gset string) }.

(** The [detail] payload of a result. *)
Inductive Detail : Type :=
| DetailNone
| DetailCommand (d : SfdxFalconCommandResultDetail)
| DetailEngine (d : EngineResultDetail)
| DetailOther (v : JsValue).

(** Method calls that the traces record. *)
Inductive Call : Type :=
| CallInitializeRecipeEngineContext
| CallInitializeTargetOrg
| CallInitializePreBuildStepGroups
| CallInitializePostBuildStepGroups
| CallInitializeSkipActions
| CallInitializeSkipGroups
| CallInitializeActionMap
| CallInitializeEngineResultDetail
| CallValidateEngine
| CallCompileAllTasks
| CallStartExecution
| CallExecuteEngine
| CallEndExecution
| CallActionExecute (name : string)
| CallCompileRecipe
| CallRenderSuccessMessage
| CallEnableDebuggers (namespaces : list string)
| CallDisplayResult
| CallTerminateWithError.

End Types.
Import Types.

(** ** Result nodes (modules/sfdx-falcon-result)

    The class [SfdxFalconResult] is imported by every source file studied
    here, but its own file is not among them.  Its operations are therefore
    written down from the specification (section 4.1).  Its [throw], which
    the specification does not list, is put together from the [error]
    transition of that section.  Time stamps are left out. *)

Module FalconResult.

Inductive SfdxFalconResultType : Type :=
| COMMAND | RECIPE | ENGINE | ACTION | EXECUTOR | UNKNOWN.

Inductive SfdxFalconResultStatus : Type :=
| INITIALIZED | RUNNING | SUCCESS | ERROR | FAILURE | WARNING.

Definition type_eqb (a b : SfdxFalconResultType) : bool :=
  match a, b with
  | COMMAND, COMMAND | RECIPE, RECIPE | ENGINE, ENGINE
  | ACTION, ACTION | EXECUTOR, EXECUTOR | UNKNOWN, UNKNOWN => true
  | _, _ => false
  end.

Definition status_eqb (a b : SfdxFalconResultStatus) : bool :=
  match a, b with
  | INITIALIZED, INITIALIZED | RUNNING, RUNNING | SUCCESS, SUCCESS
  | ERROR, ERROR | FAILURE, FAILURE | WARNING, WARNING => true
  | _, _ => false
  end.

(** What [errObj] holds: an [Error], or whatever value was rejected. *)
Inductive ErrObj : Type :=
| ErrError (e : JsError)
| ErrValue (v : JsValue).

Inductive SfdxFalconResult : Type := MkResult {
  name          : string;
  type          : SfdxFalconResultType;
  status        : SfdxFalconResultStatus;
  detail        : Detail;
  children      : list SfdxFalconResult;
  bubbleError   : bool;
  bubbleFailure : bool;
  errObj        : option ErrObj }.

(** A value that is thrown, or that a promise rejects with. *)
Inductive Thrown : Type :=
| ThrownResult (r : SfdxFalconResult)
| ThrownError (e : JsError)
| ThrownValue (v : JsValue).


(** Methods of a result run on the result itself. *)
Definition ResultM (Ev A : Type) : Type := M Ev Thrown SfdxFalconResult A.

Definition isTerminal (s : SfdxFalconResultStatus) : bool :=
  match s with
  | INITIALIZED | RUNNING => false
  | SUCCESS | ERROR | FAILURE | WARNING => true
  end.

Definition withStatus (s : SfdxFalconResultStatus) (r : SfdxFalconResult) : SfdxFalconResult :=
  MkResult (name r) (type r) s (detail r) (children r)
           (bubbleError r) (bubbleFailure r) (errObj r).

Definition withDetail (d : Detail) (r : SfdxFalconResult) : SfdxFalconResult :=
  MkResult (name r) (type r) (status r) d (children r)
           (bubbleError r) (bubbleFailure r) (errObj r).

Definition withErrObj (e : option ErrObj) (r : SfdxFalconResult) : SfdxFalconResult :=
  MkResult (name r) (type r) (status r) (detail r) (children r)
           (bubbleError r) (bubbleFailure r) e.

Definition pushChild (c : SfdxFalconResult) (r : SfdxFalconResult) : SfdxFalconResult :=
  MkResult (name r) (type r) (status r) (detail r) (children r ++ [c])
           (bubbleError r) (bubbleFailure r) (errObj r).

(** Modelled from the spec: the constructor of the missing class,
    [create(name, type, {startNow, bubbleError, bubbleFailure})], gives a
    new node in INITIALIZED or RUNNING state. *)
Definition create (n : string) (t : SfdxFalconResultType)
           (startNow bubbleErr bubbleFail : bool) : SfdxFalconResult :=
  MkResult n t (if startNow then RUNNING else INITIALIZED) DetailNone []
           bubbleErr bubbleFail None.

(** Modelled from the spec: the error of the missing class that the spec
    calls [DoubleFinalization]. *)
Definition doubleFinalization : JsError := newError "DoubleFinalization".

(** Modelled from the spec: the shared guard of the four terminal
    transitions of the missing class; each fails with
    [DoubleFinalization] if the node is already terminal. *)
Definition finish {Ev} (s : SfdxFalconResultStatus) : ResultM Ev unit :=
  (this <- get ;;
   if isTerminal (status this)
   then raise (ThrownError doubleFinalization)
   else modify (withStatus s))%eff.

(** Modelled from the spec: [setDetail] of the missing class stores the
    opaque payload. *)
Definition setDetail {Ev} (d : Detail) : ResultM Ev unit :=
  modify (withDetail d).

(** Modelled from the spec: [success(detail)] of the missing class. *)
Definition success {Ev} (d : option Detail) : ResultM Ev unit :=
  (finish SUCCESS ;;
   match d with Some d' => modify (withDetail d') | None => ret tt end)%eff.

(** Modelled from the spec: [error(errObj)] of the missing class. *)
Definition error {Ev} (e : option ErrObj) : ResultM Ev unit :=
  (finish ERROR ;; modify (withErrObj e))%eff.

(** Modelled from the spec: [failure(detail)] of the missing class. *)
Definition failure {Ev} (d : option Detail) : ResultM Ev unit :=
  (finish FAILURE ;;
   match d with Some d' => modify (withDetail d') | None => ret tt end)%eff.

(** Modelled from the spec: [warning(detail)] of the missing class. *)
Definition warning {Ev} (d : option Detail) : ResultM Ev unit :=
  (finish WARNING ;;
   match d with Some d' => modify (withDetail d') | None => ret tt end)%eff.

(** Modelled from the spec: [addChild(child)] of the missing class appends
    the child unconditionally; if the child is in ERROR and this node
    bubbles errors it immediately transitions this node to ERROR with the
    child's [errObj] as cause and signals the caller to abort, which the
    source does by throwing this node; likewise for FAILURE. *)
Definition addChild {Ev} (child : SfdxFalconResult) : ResultM Ev unit :=
  (modify (pushChild child) ;;
   this <- get ;;
   match status child with
   | ERROR =>
       if bubbleError this
       then modify (fun r => withErrObj (errObj child) (withStatus ERROR r)) ;;
            this' <- get ;; raise (ThrownResult this')
       else ret tt
   | FAILURE =>
       if bubbleFailure this
       then modify (withStatus FAILURE) ;;
            this' <- get ;; raise (ThrownResult this')
       else ret tt
   | _ => ret tt
   end)%eff.

(** Modelled from the spec: [throw(error)] of the missing class is not
    among the operations the specification lists.  The engine calls it to
    "throw the ENGINE with the error just created" (comment in [onError]),
    so it is taken to be the terminal transition [error(errObj)] of section
    4.1, which fails with [DoubleFinalization] on a node that is already
    terminal, followed by a throw of the node itself. *)
Definition throw {Ev A} (e : JsError) : ResultM Ev A :=
  (error (Some (ErrError e)) ;;
   this <- get ;; raise (ThrownResult this))%eff.

(** Modelled from the spec: the static [wrapRejectedPromise(value,
    defaultName, defaultType)] of the missing class returns a result
    unchanged and wraps any other value as the [errObj] of a new node of
    the default type in ERROR status.  The bubbling flags of that new node
    are not stated. *)
Definition wrapRejectedPromise (v : Thrown) (defaultName : string)
           (defaultType : SfdxFalconResultType) : SfdxFalconResult :=
  match v with
  | ThrownResult r => r
  | ThrownError e =>
      MkResult defaultName defaultType ERROR DetailNone [] true true
               (Some (ErrError e))
  | ThrownValue x =>
      MkResult defaultName defaultType ERROR DetailNone [] true true
               (Some (ErrValue x))
  end.

(** Modelled from the spec: the static [validate(candidate, expectedType,
    expectedStatus)] of the missing class is a predicate; it answers false
    rather than throwing. *)
Definition validate (candidate : Thrown) (t : SfdxFalconResultType)
           (s : SfdxFalconResultStatus) : bool :=
  match candidate with
  | ThrownResult r => type_eqb (type r) t && status_eqb (status r) s
  | _ => false
  end.

End FalconResult.
Import FalconResult.

(** ** The engine (modules/sfdx-falcon-recipe/engines/appx/index.ts) *)

Module AppxRecipeEngine.

(** [ListrExecutionOptions]: the Listr context and the task a step runs
    under.  The observer is the channel a task reports its outcome on; the
    outcome is the completion of the task's run. *)
Record ListrExecutionOptions : Type := MkListrExec {
  listrContext : JsValue;
  listrTask    : string }.

(** [AppxEngineActionContext extends AppxEngineContext] *)
Record AppxEngineActionContext : Type := MkActionContext {
  inheritedContext : AppxEngineContext;
  listrExecOptions : ListrExecutionOptions }.

(** Modelled from the spec: the abstract class [AppxEngineAction]
    (engines/appx/actions) is missing; by the action contract its
    [execute(context, options)] settles with a result node or rejects. *)
Record AppxEngineAction : Type := MkAction {
  actionName    : string;
  actionExecute : AppxEngineActionContext -> JsValue ->
                  Completion Thrown SfdxFalconResult }.

(** The members of the [SfdxFalconRecipe] object that the engine reads
    through its [recipe] reference. *)
Record RecipeRef : Type := MkRecipeRef {
  recipeType       : string;
  validated        : bool;
  recipeStepGroups : list AppxEngineStepGroup }.

(** A Listr task added by [compileSubTasks]: its closure holds the step. *)
Record ListrSubTask : Type := MkSubTask {
  subTitle : string;
  subStep  : AppxEngineStep }.

(** A Listr task added by [compileParentTasks]: its closure holds the
    group and calls [compileSubTasks] on it when Listr runs the task. *)
Record ListrParentTask : Type := MkParentTask {
  parentTitle : string;
  parentGroup : AppxEngineStepGroup }.

(** The members of the class. *)
Record Engine : Type := MkEngine {
  actionExecutorMap        : option (gmap string AppxEngineAction);
  listrTasks               : option (list ListrParentTask);
  recipe                   : option RecipeRef;
  falconEngineResult       : SfdxFalconResult;
  falconEngineResultDetail : EngineResultDetail;
  preBuildStepGroups       : option (list AppxEngineStepGroup);
  postBuildStepGroups      : option (list AppxEngineStepGroup);
  engineContext            : AppxEngineContext }.

Definition EngineM (A : Type) : Type := M Call Thrown Engine A.

(** An abstract method: it may change the engine and may reject. *)
Definition AbstractMethod (A : Type) : Type :=
  Engine -> Completion Thrown A * Engine.

(** The abstract methods a concrete engine has to implement. *)
Class AppxRecipeEngineImpl : Type := {
  executeEngine                 : JsValue -> AbstractMethod JsValue;
  initializeActionMap           : AbstractMethod unit;
  initializePostBuildStepGroups : AbstractMethod unit;
  initializePreBuildStepGroups  : AbstractMethod unit;
  initializeRecipeEngineContext : AbstractMethod unit;
  initializeSkipActions         : AbstractMethod unit;
  initializeSkipGroups          : AbstractMethod unit;
  initializeTargetOrg           : AbstractMethod unit }.

(** Calling an abstract method, recorded in the trace. *)
Definition call {A} (c : Call) (m : AbstractMethod A) : EngineM A :=
  fun this => let (r, this') := m this in MkRun r this' [c].

(** Setters for the members that are assigned. *)
Definition setRecipe (r : RecipeRef) (e : Engine) : Engine :=
  MkEngine (actionExecutorMap e) (listrTasks e) (Some r) (falconEngineResult e)
           (falconEngineResultDetail e) (preBuildStepGroups e)
           (postBuildStepGroups e) (engineContext e).

Definition setListrTasks (t : list ListrParentTask) (e : Engine) : Engine :=
  MkEngine (actionExecutorMap e) (Some t) (recipe e) (falconEngineResult e)
           (falconEngineResultDetail e) (preBuildStepGroups e)
           (postBuildStepGroups e) (engineContext e).

Definition setResult (r : SfdxFalconResult) (e : Engine) : Engine :=
  MkEngine (actionExecutorMap e) (listrTasks e) (recipe e) r
           (falconEngineResultDetail e) (preBuildStepGroups e)
           (postBuildStepGroups e) (engineContext e).

Definition setResultDetail (d : EngineResultDetail) (e : Engine) : Engine :=
  MkEngine (actionExecutorMap e) (listrTasks e) (recipe e) (falconEngineResult e)
           d (preBuildStepGroups e) (postBuildStepGroups e) (engineContext e).

Definition setContext (c : AppxEngineContext) (e : Engine) : Engine :=
  MkEngine (actionExecutorMap e) (listrTasks e) (recipe e) (falconEngineResult e)
           (falconEngineResultDetail e) (preBuildStepGroups e)
           (postBuildStepGroups e) c.

Definition setCompileOptions (o : JsValue) (c : AppxEngineContext) : AppxEngineContext :=
  MkContext o (recipeObserver c) (executing c) (initialized c) (haltOnError c)
            (skipGroups c) (skipActions c) (devHubAlias c) (projectContext c)
            (logLevel c) (targetOrg c).

Definition setInitialized (b : bool) (c : AppxEngineContext) : AppxEngineContext :=
  MkContext (compileOptions c) (recipeObserver c) (executing c) (Some b)
            (haltOnError c) (skipGroups c) (skipActions c) (devHubAlias c)
            (projectContext c) (logLevel c) (targetOrg c).

(** A method of [this.falconEngineResult], run from an engine method. *)
Definition onResult {A} (m : ResultM Call A) : EngineM A :=
  fun this =>
    let r := m (falconEngineResult this) in
    MkRun (completion r) (setResult (after r) this) (trace r).

(** Reading a member of [undefined]. *)
Definition typeErrorUndefined (member : string) : Thrown :=
  ThrownError (newTypeError
    ("Cannot read property '" ++ member ++ "' of undefined")).

(** Spreading a value that is not an array. *)
Definition typeErrorNotIterable (what : string) : Thrown :=
  ThrownError (newTypeError (what ++ " is not iterable")).

(** *** constructor *)
Definition constructor (engineName recipeName : string) : Engine :=
  MkEngine None None None
           (create (engineName ++ ":" ++ recipeName) ENGINE false true true)
           (MkEngineDetail None recipeName engineName false None)
           (Some []) (Some []) emptyContext.

(** *** skipAction, skipGroup *)
Definition skipAction (this : Engine) (actionToCheck : string) : Completion Thrown bool :=
  match skipActions (engineContext this) with
  | Some l => Normal (includes l actionToCheck)
  | None => Throw (typeErrorUndefined "includes")
  end.

Definition skipGroup (this : Engine) (groupToCheck : string) : Completion Thrown bool :=
  match skipGroups (engineContext this) with
  | Some l => Normal (includes l groupToCheck)
  | None => Throw (typeErrorUndefined "includes")
  end.

(** *** stepGroupHasActiveTasks *)
Fixpoint anyActiveStep (this : Engine) (steps : list AppxEngineStep)
  : Completion Thrown bool :=
  match steps with
  | [] => Normal false
  | step :: rest =>
      match skipAction this (action step) with
      | Throw e => Throw e
      | Normal false => Normal true
      | Normal true => anyActiveStep this rest
      end
  end.

Definition stepGroupHasActiveTasks (this : Engine)
           (stepGroupToCheck : AppxEngineStepGroup) : Completion Thrown bool :=
  if (length (recipeSteps stepGroupToCheck) <? 1)%nat
  then Normal false
  else anyActiveStep this (recipeSteps stepGroupToCheck).

(** *** compileSubTasks *)
Fixpoint addSubTasks (this : Engine) (steps : list AppxEngineStep)
  : Completion Thrown (list ListrSubTask) :=
  match steps with
  | [] => Normal []
  | recipeStep :: rest =>
      match skipAction this (action recipeStep) with
      | Throw e => Throw e
      | Normal true => addSubTasks this rest
      | Normal false =>
          match addSubTasks this rest with
          | Throw e => Throw e
          | Normal tasks =>
              Normal (MkSubTask (stepName recipeStep) recipeStep :: tasks)
          end
      end
  end.

Definition noStepsError (g : AppxEngineStepGroup) : Thrown :=
  ThrownError (newError
    ("ERROR_NO_STEPS: The Recipe Step Group '" ++ stepGroupName g
     ++ "' contains no Steps")).

Definition compileSubTasks (this : Engine) (recipeStepGroup : AppxEngineStepGroup)
  : Completion Thrown (list ListrSubTask) :=
  if (length (recipeSteps recipeStepGroup) <? 1)%nat
  then Throw (noStepsError recipeStepGroup)
  else addSubTasks this (recipeSteps recipeStepGroup).

(** *** compileParentTasks *)
Fixpoint compileParentTasks (this : Engine)
         (recipeStepGroups : list AppxEngineStepGroup)
  : Completion Thrown (list ListrParentTask) :=
  match recipeStepGroups with
  | [] => Normal []
  | recipeStepGroup :: rest =>
      match skipGroup this (groupAlias recipeStepGroup) with
      | Throw e => Throw e
      | Normal true => compileParentTasks this rest
      | Normal false =>
          match stepGroupHasActiveTasks this recipeStepGroup with
          | Throw e => Throw e
          | Normal false => compileParentTasks this rest
          | Normal true =>
              match compileParentTasks this rest with
              | Throw e => Throw e
              | Normal tasks =>
                  Normal (MkParentTask (stepGroupName recipeStepGroup)
                                       recipeStepGroup :: tasks)
              end
          end
      end
  end.

(** *** compileAllTasks *)
Definition engineNotInitializedError : Thrown :=
  ThrownError (newError
    ("ERROR_ENGINE_NOT_INITIALIZED: The engine must be fully initialized before "
     ++ "compiling all tasks.")).

Definition compileAllTasks : EngineM unit :=
  (emit CallCompileAllTasks ;;
   this <- get ;;
   match initialized (engineContext this) with
   | Some true =>
       match preBuildStepGroups this with
       | None => raise (typeErrorNotIterable "this.preBuildStepGroups")
       | Some pre =>
           match recipe this with
           | None => raise (typeErrorUndefined "recipeStepGroups")
           | Some rcp =>
               match postBuildStepGroups this with
               | None => raise (typeErrorNotIterable "this.postBuildStepGroups")
               | Some post =>
                   let completeRecipeStepGroups :=
                     pre ++ recipeStepGroups rcp ++ post in
                   tasks <- lift (compileParentTasks this completeRecipeStepGroups) ;;
                   modify (setListrTasks tasks)
               end
           end
       end
   | _ => raise engineNotInitializedError
   end)%eff.

(** *** initializeEngineResultDetail *)
Definition initializeEngineResultDetail : EngineM unit :=
  (emit CallInitializeEngineResultDetail ;;
   modify (fun this =>
     setResultDetail
       (MkEngineDetail (projectContext (engineContext this))
                       (detailRecipeName (falconEngineResultDetail this))
                       (detailEngineName (falconEngineResultDetail this))
                       true
                       (supportedActions (falconEngineResultDetail this)))
       this) ;;
   this <- get ;;
   match actionExecutorMap this with
   | None => raise (typeErrorUndefined "keys")
   | Some m =>
       let d := falconEngineResultDetail this in
       let d' := MkEngineDetail (detailProjectContext d) (detailRecipeName d)
                                (detailEngineName d) (detailEngineContext d)
                                (Some (dom m)) in
       modify (setResultDetail d') ;;
       onResult (setDetail (DetailEngine d'))
   end)%eff.

(** *** validateEngine *)
Definition invalidEngine (what : string) : Thrown :=
  ThrownError (newError ("ERROR_INVALID_ENGINE: " ++ what)).

Definition invalidEngineContext (what : string) : Thrown :=
  ThrownError (newError ("ERROR_INVALID_ENGINE_CONTEXT: " ++ what)).

(** [this.actionExecutorMap instanceof Map && this.actionExecutorMap.size < 1] *)
Definition actionMapIsEmptyMap (this : Engine) : bool :=
  match actionExecutorMap this with
  | Some m => (size m <? 1)%nat
  | None => false
  end.

(** [(! this.engineContext.targetOrg) || (! this.engineContext.targetOrg.alias)] *)
Definition targetOrgMissing (this : Engine) : bool :=
  match targetOrg (engineContext this) with
  | None => true
  | Some org => negb (truthy (alias org))
  end.

Definition isNone {A} (o : option A) : bool :=
  match o with None => true | Some _ => false end.

Definition validateEngine : EngineM unit :=
  (emit CallValidateEngine ;;
   this <- get ;;
   if actionMapIsEmptyMap this then
     raise (invalidEngine
       ("actionExecutorMap is invalid or empty. "
        ++ "Check your implementation of initializeActionMap() to troubleshoot."))
   else if isNone (preBuildStepGroups this) then
     raise (invalidEngine
       ("preBuildStepGroups is not an array. "
        ++ "Check your implementation of initializePreBuildStepGroups() to troubleshoot."))
   else if isNone (postBuildStepGroups this) then
     raise (invalidEngine
       ("postBuildStepGroups is not an array. "
        ++ "Check your implementation of initializePostBuildStepGroups() to troubleshoot."))
   else if targetOrgMissing this then
     raise (invalidEngineContext
       ("engineContext.targetOrg is invalid or empty. "
        ++ "Check your implementation of initializeTargetOrg() to troubleshoot."))
   else if isNone (skipActions (engineContext this)) then
     raise (invalidEngineContext
       ("engineContext.skipActions is invalid. "
        ++ "Check your implementation of initializeSkipActions() to troubleshoot."))
   else if isNone (skipGroups (engineContext this)) then
     raise (invalidEngineContext
       ("engineContext.skipGroups is invalid. "
        ++ "Check your implementation of initializeSkipGroups() to troubleshoot."))
   else
     modify (fun e => setContext (setInitialized true (engineContext e)) e))%eff.

(** *** compile *)
Definition notValidatedError : Thrown :=
  ThrownError (newError
    "ERROR_INVALID_RECIPE: Can not compile a recipe that has not been validated").

Definition compile `{impl : AppxRecipeEngineImpl} (rcp : RecipeRef)
           (compileOpts : JsValue) : EngineM unit :=
  (if negb (validated rcp) then raise notValidatedError
   else
     modify (setRecipe rcp) ;;
     modify (fun e => setContext (setCompileOptions compileOpts (engineContext e)) e) ;;
     call CallInitializeRecipeEngineContext initializeRecipeEngineContext ;;
     call CallInitializeTargetOrg initializeTargetOrg ;;
     call CallInitializePreBuildStepGroups initializePreBuildStepGroups ;;
     call CallInitializePostBuildStepGroups initializePostBuildStepGroups ;;
     call CallInitializeSkipActions initializeSkipActions ;;
     call CallInitializeSkipGroups initializeSkipGroups ;;
     call CallInitializeActionMap initializeActionMap ;;
     initializeEngineResultDetail ;;
     validateEngine ;;
     compileAllTasks)%eff.

(** The part of [compile] that follows the guard, up to and including
    step eight. *)
Definition initializeEngine `{impl : AppxRecipeEngineImpl} (rcp : RecipeRef)
           (compileOpts : JsValue) : EngineM unit :=
  (modify (setRecipe rcp) ;;
   modify (fun e => setContext (setCompileOptions compileOpts (engineContext e)) e) ;;
   call CallInitializeRecipeEngineContext initializeRecipeEngineContext ;;
   call CallInitializeTargetOrg initializeTargetOrg ;;
   call CallInitializePreBuildStepGroups initializePreBuildStepGroups ;;
   call CallInitializePostBuildStepGroups initializePostBuildStepGroups ;;
   call CallInitializeSkipActions initializeSkipActions ;;
   call CallInitializeSkipGroups initializeSkipGroups ;;
   call CallInitializeActionMap initializeActionMap ;;
   initializeEngineResultDetail)%eff.

(** *** executeStep *)
Definition unknownActionError (actionToRun engineType : string) : Thrown :=
  ThrownError (newError
    ("ERROR_UNKNOWN_ACTION: '" ++ actionToRun ++ "' is not recognized "
     ++ "by the " ++ engineType ++ " eninge")).

Definition executeStep (recipeStep : AppxEngineStep)
           (listrExecOpts : ListrExecutionOptions) : EngineM SfdxFalconResult :=
  (this <- get ;;
   let actionContext := MkActionContext (engineContext this) listrExecOpts in
   match actionExecutorMap this with
   | None => raise (typeErrorUndefined "get")
   | Some m =>
       match m !! action recipeStep with
       | None =>
           match recipe this with
           | None => raise (typeErrorUndefined "recipeType")
           | Some rcp =>
               raise (unknownActionError (action recipeStep) (recipeType rcp))
           end
       | Some actionExecutor =>
           emit (CallActionExecute (action recipeStep)) ;;
           lift (actionExecute actionExecutor actionContext (options recipeStep))
       end
   end)%eff.

(** *** The task closure that [compileSubTasks] adds for a step.  Its
    observer completes when the run completes normally and errors with the
    value the run throws. *)
Definition runSubTask (task : ListrSubTask)
           (listrExecOpts : ListrExecutionOptions) : EngineM unit :=
  tryCatch
    (falconActionResult <- executeStep (subStep task) listrExecOpts ;;
     onResult (addChild falconActionResult))%eff
    (fun rejected =>
       let falconActionResult :=
         wrapRejectedPromise rejected "ActionResult (REJECTED)" ACTION in
       onResult (addChild falconActionResult)).

(** *** The task closure that [compileParentTasks] adds for a group. *)
Definition runParentTask (task : ListrParentTask) : EngineM (list ListrSubTask) :=
  (this <- get ;; lift (compileSubTasks this (parentGroup task)))%eff.

(** *** onSuccess, onError *)
Definition onSuccess (listrCtx : JsValue) : EngineM unit :=
  onResult (success None).

Definition unexpectedListrResult (engineResultName : string) : JsError :=
  MkError "SfdxFalconError"
    ("ERROR_UNEXPECTED_LISTR_RESULT: Engine " ++ engineResultName
     ++ " got an unexpected result from listr.run()").

Definition onError {A} (listrError : Thrown) : EngineM A :=
  ((if negb (validate listrError ENGINE ERROR)
    then
      this <- get ;;
      onResult (throw (unexpectedListrResult (name (falconEngineResult this))))
    else ret tt) ;;
   this <- get ;;
   raise (ThrownResult (falconEngineResult this)))%eff.

(** *** startExecution, endExecution, execute *)
Definition startExecution : EngineM unit := emit CallStartExecution.
Definition endExecution : EngineM unit := emit CallEndExecution.

Definition recipeNotCompiledError : Thrown :=
  ThrownError (newError
    "ERROR_RECIPE_NOT_COMPILED: AppxRecipeEngine.execute() called before compiling a Recipe").

Definition execute `{impl : AppxRecipeEngineImpl} (executionOptions : JsValue)
  : EngineM SfdxFalconResult :=
  (this <- get ;;
   if isNone (listrTasks this) then raise recipeNotCompiledError
   else
     startExecution ;;
     tryCatch
       (listrCtx <- call CallExecuteEngine (executeEngine executionOptions) ;;
        onSuccess listrCtx)
       (fun listrError => onError listrError) ;;
     endExecution ;;
     this' <- get ;;
     ret (falconEngineResult this'))%eff.

(** *** validateTargetOrg (static) *)
Definition invalidTargetOrgKey (kind key : string) (provided : JsValue) : Thrown :=
  ThrownError (newError
    ("ERROR_INVALID_RECIPE: A " ++ kind ++ " value must be provided for the "
     ++ "'" ++ key ++ "' key in each targetOrg in your recipe.  The value you provided was of type "
     ++ typeof provided)).

Definition invalidTargetOrgJson (flag key : string) (provided : JsValue) : Thrown :=
  ThrownError (newError
    ("ERROR_INVALID_RECIPE: If targetOrg.isScratchOrg is " ++ flag
     ++ " then a string value must be provided for the "
     ++ "'" ++ key ++ "' key in that targetOrg's definition in your recipe.  The value you provided was of type "
     ++ typeof provided)).

(** [v === b] for a boolean literal [b] *)
Definition isBool (v : JsValue) (b : bool) : bool :=
  match v with JsBool b' => Bool.eqb b' b | _ => false end.

Definition validateTargetOrg (org : TargetOrg) : Completion Thrown unit :=
  if notNonEmptyString (orgName org) then
    Throw (invalidTargetOrgKey "string" "orgName" (orgName org))
  else if notNonEmptyString (alias org) then
    Throw (invalidTargetOrgKey "string" "alias" (alias org))
  else if notNonEmptyString (description org) then
    Throw (invalidTargetOrgKey "string" "description" (description org))
  else if negb (String.eqb (typeof (isScratchOrg org)) "boolean") then
    Throw (invalidTargetOrgKey "boolean" "isScratchOrg" (isScratchOrg org))
  else if isBool (isScratchOrg org) true && notNonEmptyString (scratchDefJson org) then
    Throw (invalidTargetOrgJson "TRUE" "scratchDefJson" (scratchDefJson org))
  else if isBool (isScratchOrg org) false && notNonEmptyString (orgReqsJson org) then
    Throw (invalidTargetOrgJson "FALSE" "orgReqsJson" (orgReqsJson org))
  else Normal tt.

End AppxRecipeEngine.

(** ** The recipe (modules/sfdx-falcon-recipe/index.ts) *)

Module SfdxFalconRecipe.

(** [SfdxFalconRecipeJson]: the object parsed from a recipe file.  A key
    that the file does not have reads as [JsUndefined]. *)
Record SfdxFalconRecipeJson : Type := MkRecipeJson {
  recipeName       : JsValue;
  description      : JsValue;
  recipeType       : JsValue;
  recipeVersion    : JsValue;
  schemaVersion    : JsValue;
  options          : JsValue;
  recipeStepGroups : JsValue;
  handlers         : JsValue }.

(** The detail object kept for the RECIPE result.  Beside copies of the
    members above it holds [recipeEngine], null until [compile] stores the
    engine reference, which is what is recorded here. *)
Record RecipeResultDetail : Type := MkRecipeDetail {
  detailRecipeEngine : bool }.

(** The members of the class.  Instances come from [read] only, which
    leaves [_compiled] and [_recipeEngine] undefined. *)
Record Recipe : Type := MkRecipe {
  _json                     : SfdxFalconRecipeJson;
  _compiled                 : option bool;
  _projectContext           : SfdxFalconProject;
  _recipeEngine             : option AppxRecipeEngine.Engine;
  _falconRecipeResult       : SfdxFalconResult;
  _falconRecipeResultDetail : RecipeResultDetail;
  _validated                : bool }.

Definition RecipeM (A : Type) : Type := M Call Thrown Recipe A.

(** What the recipe module takes from files that are not at hand: the
    values of the [RecipeType] enum, the static methods of the concrete
    engine [AppxDemoConfigEngine], and that engine's abstract methods. *)
Class RecipeDeps : Type := {
  APPX_DEMO     : string;
  APPX_PACKAGE  : string;
  validateRecipe : SfdxFalconRecipeJson -> Completion Thrown unit;
  compileRecipe  : Recipe -> JsValue -> Completion Thrown AppxRecipeEngine.Engine;
  engineImpl     : AppxRecipeEngine.AppxRecipeEngineImpl }.
#[export] Existing Instance engineImpl.

Definition setEngine (e : option AppxRecipeEngine.Engine) (r : Recipe) : Recipe :=
  MkRecipe (_json r) (_compiled r) (_projectContext r) e
           (_falconRecipeResult r) (_falconRecipeResultDetail r) (_validated r).

Definition setCompiled (b : bool) (r : Recipe) : Recipe :=
  MkRecipe (_json r) (Some b) (_projectContext r) (_recipeEngine r)
           (_falconRecipeResult r) (_falconRecipeResultDetail r) (_validated r).

Definition setRecipeResult (res : SfdxFalconResult) (r : Recipe) : Recipe :=
  MkRecipe (_json r) (_compiled r) (_projectContext r) (_recipeEngine r)
           res (_falconRecipeResultDetail r) (_validated r).

Definition setRecipeDetail (d : RecipeResultDetail) (r : Recipe) : Recipe :=
  MkRecipe (_json r) (_compiled r) (_projectContext r) (_recipeEngine r)
           (_falconRecipeResult r) d (_validated r).

(** A method of [this._falconRecipeResult], run from a recipe method. *)
Definition onRecipeResult {A} (m : ResultM Call A) : RecipeM A :=
  fun this =>
    let r := m (_falconRecipeResult this) in
    MkRun (completion r) (setRecipeResult (after r) this) (trace r).

(** *** validateTopLevelProperties *)
Definition pushUnless (v : JsValue) (key : string) (keys : list string) : list string :=
  if negb (truthy v) then keys ++ [key] else keys.

Definition invalidConfigKeys (r : SfdxFalconRecipeJson) : list string :=
  let keys := [] in
  let keys := pushUnless (recipeName r) "recipeName" keys in
  let keys := pushUnless (description r) "description" keys in
  let keys := pushUnless (recipeType r) "recipeType" keys in
  let keys := pushUnless (recipeVersion r) "recipeVersion" keys in
  let keys := pushUnless (schemaVersion r) "schemaVersion" keys in
  let keys := pushUnless (options r) "options" keys in
  let keys := pushUnless (recipeStepGroups r) "recipeStepGroups" keys in
  let keys := pushUnless (handlers r) "handlers" keys in
  keys.

Definition invalidSettingsError (keys : list string) : Thrown :=
  ThrownError (newError
    ("ERROR_INVALID_RECIPE: The selected recipe has missing/invalid settings ("
     ++ arrayToString keys ++ ").")).

Definition validateTopLevelProperties (r : SfdxFalconRecipeJson)
  : Completion Thrown unit :=
  let keys := invalidConfigKeys r in
  if (0 <? length keys)%nat then Throw (invalidSettingsError keys)
  else Normal tt.

(** *** validate *)
Definition notARecipeType (t : JsValue) : Thrown :=
  ThrownError (newError
    ("ERROR_INVALID_RECIPE: '" ++ render t
     ++ "' is not a valid SFDX-Falcon Recipe type")).

Definition isType (t : JsValue) (enumValue : string) : bool :=
  match t with JsString s => String.eqb s enumValue | _ => false end.

Definition validate `{deps : RecipeDeps} (r : SfdxFalconRecipeJson) : Completion Thrown unit :=
  match validateTopLevelProperties r with
  | Throw e => Throw e
  | Normal _ =>
      if isType (recipeType r) APPX_DEMO then validateRecipe r
      else if isType (recipeType r) APPX_PACKAGE then Normal tt
      else Throw (notARecipeType (recipeType r))
  end.

(** *** read.  [loaded] is what [resolveSfdxFalconRecipe] settles with. *)
Definition read `{deps : RecipeDeps} (sfdxFPO : SfdxFalconProject)
           (loaded : Completion Thrown SfdxFalconRecipeJson)
  : Completion Thrown Recipe :=
  match loaded with
  | Throw e => Throw e
  | Normal json =>
      match validate json with
      | Throw e => Throw e
      | Normal _ =>
          Normal (MkRecipe json None sfdxFPO None
                    (create (render (recipeName json)) RECIPE false true true)
                    (MkRecipeDetail false) true)
      end
  end.

(** *** compile *)
Definition notAValidType (t : JsValue) : Thrown :=
  ThrownError (newError
    ("ERROR_INVALID_RECIPE: The value '" ++ render t
     ++ "' is not a valid recipe type")).

Definition compile `{deps : RecipeDeps} (compileOpts : JsValue) : RecipeM unit :=
  (this <- get ;;
   (if isType (recipeType (_json this)) APPX_DEMO then
      emit CallCompileRecipe ;;
      engine <- lift (compileRecipe this compileOpts) ;;
      modify (setEngine (Some engine))
    else if isType (recipeType (_json this)) APPX_PACKAGE then ret tt
    else raise (notAValidType (recipeType (_json this)))) ;;
   modify (setCompiled true) ;;
   modify (fun r => setRecipeDetail (MkRecipeDetail (negb (AppxRecipeEngine.isNone (_recipeEngine r)))) r))%eff.

(** *** onSuccess, onError *)
Definition onSuccess (falconEngineResult : SfdxFalconResult) : RecipeM unit :=
  (onRecipeResult (addChild falconEngineResult) ;;
   onRecipeResult (success None))%eff.

Definition onError {A} (engineError : Thrown) : RecipeM A :=
  (let falconEngineResult :=
     wrapRejectedPromise engineError "EngineResult (REJECTED)" ENGINE in
   onRecipeResult (addChild falconEngineResult) ;;
   this <- get ;;
   raise (ThrownResult (_falconRecipeResult this)))%eff.

(** *** execute *)
Definition recipeNotCompiledError : Thrown :=
  ThrownError (newError
    ("ERROR_RECIPE_NOT_COMPILED: The compile() method must be called before you can  "
     ++ "execute this recipe")).

(** [engine.execute(executionOptions)] for the engine the recipe holds:
    the engine object is changed in place. *)
Definition engineExecute `{deps : RecipeDeps} (engine : AppxRecipeEngine.Engine)
           (executionOptions : JsValue) : RecipeM SfdxFalconResult :=
  fun this =>
    let r := AppxRecipeEngine.execute executionOptions engine in
    MkRun (completion r) (setEngine (Some (after r)) this) (trace r).

Definition renderSuccessMessage : RecipeM unit := emit CallRenderSuccessMessage.

Definition isTrue (o : option bool) : bool :=
  match o with Some true => true | _ => false end.

Definition execute `{deps : RecipeDeps} (executionOptions : JsValue)
  : RecipeM SfdxFalconResult :=
  (this <- get ;;
   if negb (isTrue (_compiled this)) then raise recipeNotCompiledError
   else
     match _recipeEngine this with
     | None => raise (AppxRecipeEngine.typeErrorUndefined "execute")
     | Some engine =>
         tryCatch
           (engineSuccessResponse <- engineExecute engine executionOptions ;;
            onSuccess engineSuccessResponse)
           (fun engineFailureResponse => onError engineFailureResponse) ;;
         renderSuccessMessage ;;
         this' <- get ;;
         ret (_falconRecipeResult this')
     end)%eff.

End SfdxFalconRecipe.

(** ** The command base class (modules/sfdx-falcon-command/index.ts) *)

Module SfdxFalconCommand.

(** [SfdxFalconJsonResponse] *)
Record SfdxFalconJsonResponse : Type := MkJsonResponse {
  falconStatus : Z;
  falconResult : JsValue }.

(** The members of the class, with [flags] and [args] of the base class
    [SfdxCommand].  Members without an initialiser are undefined until
    [sfdxFalconCommandInit] assigns them. *)
Record Command : Type := MkCommand {
  flags                     : CommandFlags;
  args                      : CommandArgs;
  falconCommandName         : option string;
  falconCommandResult       : option SfdxFalconResult;
  falconCommandResultDetail : option SfdxFalconCommandResultDetail;
  falconJsonResponse        : option SfdxFalconJsonResponse;
  outputDirectory           : option string;
  projectDirectory          : option string;
  targetDirectory           : option string;
  recipeFile                : option string;
  configFile                : option string;
  extendedOptions           : option JsValue;
  gitRemoteUri              : option string;
  gitCloneDirectory         : option string;
  falconDebugFlag           : list string;
  falconDebugErrorFlag      : bool;
  falconDebugSuccessFlag    : bool;
  falconDebugDepthFlag      : Z }.

Definition CommandM (A : Type) : Type := M Call Thrown Command A.

(** A new instance: only the four debug members have initialisers. *)
Definition newCommand (f : CommandFlags) (a : CommandArgs) : Command :=
  MkCommand f a None None None None None None None None None None None None
            [] false false 2.

(** What the command takes from outside: Node's [path.resolve] and
    [JSON.parse], the message bundle, and [validateLocalPath] of the
    validators module. *)
Class CommandDeps : Type := {
  pathResolve       : string -> string;
  jsonParse         : string -> Completion Thrown JsValue;
  getMessage        : string -> list string -> string;
  validateLocalPath : string -> bool }.

(** [s || d] for an optional string: the empty string is falsy. *)
Definition orString (s : option string) (d : string) : string :=
  match s with
  | Some x => if String.eqb x "" then d else x
  | None => d
  end.

(** [b || false] *)
Definition orFalse (b : option bool) : bool :=
  match b with Some x => x | None => false end.

(** [n || d] for an optional number: zero is falsy. *)
Definition orNumber (n : option Z) (d : Z) : Z :=
  match n with
  | Some x => if (x =? 0)%Z then d else x
  | None => d
  end.

(** [s.split(',')] *)
Fixpoint splitComma (s : string) : list string :=
  match s with
  | EmptyString => [""]
  | String c rest =>
      if Ascii.eqb c ","%char then "" :: splitComma rest
      else match splitComma rest with
           | h :: t => String c h :: t
           | [] => [String c ""]
           end
  end.

(** White space that [trim] removes, among the ASCII characters. *)
Definition isWhiteSpace (c : ascii) : bool :=
  let n := nat_of_ascii c in
  (Nat.eqb n 32 || Nat.eqb n 9 || Nat.eqb n 10 || Nat.eqb n 11
   || Nat.eqb n 12 || Nat.eqb n 13)%bool.

Fixpoint trimStart (s : string) : string :=
  match s with
  | String c rest => if isWhiteSpace c then trimStart rest else s
  | EmptyString => EmptyString
  end.

Fixpoint trimEnd (s : string) : string :=
  match s with
  | EmptyString => EmptyString
  | String c rest =>
      match trimEnd rest with
      | EmptyString => if isWhiteSpace c then EmptyString else String c EmptyString
      | rest' => String c rest'
      end
  end.

(** [s.trim()] *)
Definition trim (s : string) : string := trimEnd (trimStart s).

Definition pushIf (b : bool) (x : string) (l : list string) : list string :=
  if b then l ++ [x] else l.

(** *** sfdxFalconCommandInit *)
Definition sfdxFalconCommandInit `{deps : CommandDeps} (cmdName : option string)
           (cmdType : SfdxFalconCommandType) : CommandM unit :=
  (let cmdName := match cmdName with
                  | Some n => n
                  | None => "UNSPECIFIED_FALCON_COMMAND"
                  end in
   this <- get ;;
   let f := flags this in
   let a := args this in
   let outputDir  := pathResolve (orString (outputdir f) ".") in
   let projectDir := pathResolve (orString (projectdir f) ".") in
   let targetDir  := pathResolve (orString (targetdir f) ".") in
   let recipeF    := pathResolve (orString (recipefile f) ".") in
   let configF    := pathResolve (orString (configfile f) ".") in
   modify (fun c =>
     MkCommand (flags c) (args c) (Some cmdName)
               (falconCommandResult c) (falconCommandResultDetail c)
               (Some (MkJsonResponse 0 (JsString "RESPONSE_NOT_SPECIFIED")))
               (Some outputDir) (Some projectDir) (Some targetDir)
               (Some recipeF) (Some configF)
               (extendedOptions c) (gitRemoteUri c) (gitCloneDirectory c)
               (falconDebugFlag c) (falconDebugErrorFlag c)
               (falconDebugSuccessFlag c) (falconDebugDepthFlag c)) ;;
   parsed <- lift (jsonParse (orString (Types.extendedOptions f) "{}")) ;;
   let debugErrorFlag   := orFalse (falcondebugerror f) in
   let debugSuccessFlag := orFalse (falcondebugsuccess f) in
   let debugDepthFlag   := orNumber (falcondebugdepth f) 2 in
   let debugFlag :=
     match falcondebug f with
     | Some s => if String.eqb s "" then [] else splitComma s
     | None => []
     end in
   let enabled := map trim debugFlag in
   let enabled := pushIf debugErrorFlag "FALCON_ERROR" enabled in
   let enabled := pushIf debugSuccessFlag "FALCON_SUCCESS" enabled in
   modify (fun c =>
     MkCommand (flags c) (args c) (falconCommandName c)
               (Some (create cmdName COMMAND true false false))
               (Some (MkCommandDetail cmdName cmdType f a 0 enabled))
               (falconJsonResponse c)
               (outputDirectory c) (projectDirectory c) (targetDirectory c)
               (recipeFile c) (configFile c)
               (Some parsed)
               (Some (orString (GIT_REMOTE_URI a) ""))
               (Some (orString (GIT_CLONE_DIR a) ""))
               debugFlag debugErrorFlag debugSuccessFlag debugDepthFlag) ;;
   emit (CallEnableDebuggers enabled) ;;
   if negb (validateLocalPath outputDir) then
     raise (ThrownError (newError (getMessage "errInvalidDirectory" ["Output "])))
   else if negb (validateLocalPath projectDir) then
     raise (ThrownError (newError (getMessage "errInvalidDirectory" ["Project "])))
   else if negb (validateLocalPath targetDir) then
     raise (ThrownError (newError (getMessage "errInvalidDirectory" ["Target "])))
   else ret tt)%eff.

Definition setCommandResult (r : SfdxFalconResult) (c : Command) : Command :=
  MkCommand (flags c) (args c) (falconCommandName c) (Some r)
            (falconCommandResultDetail c) (falconJsonResponse c)
            (outputDirectory c) (projectDirectory c) (targetDirectory c)
            (recipeFile c) (configFile c) (extendedOptions c)
            (gitRemoteUri c) (gitCloneDirectory c) (falconDebugFlag c)
            (falconDebugErrorFlag c) (falconDebugSuccessFlag c)
            (falconDebugDepthFlag c).

Definition setCommandDetail (d : SfdxFalconCommandResultDetail) (c : Command) : Command :=
  MkCommand (flags c) (args c) (falconCommandName c) (falconCommandResult c)
            (Some d) (falconJsonResponse c)
            (outputDirectory c) (projectDirectory c) (targetDirectory c)
            (recipeFile c) (configFile c) (extendedOptions c)
            (gitRemoteUri c) (gitCloneDirectory c) (falconDebugFlag c)
            (falconDebugErrorFlag c) (falconDebugSuccessFlag c)
            (falconDebugDepthFlag c).

Definition withExitCode (code : Z) (d : SfdxFalconCommandResultDetail)
  : SfdxFalconCommandResultDetail :=
  MkCommandDetail (commandName d) (commandType d) (commandFlags d)
                  (commandArgs d) code (enabledDebuggers d).

(** A method of [this.falconCommandResult], run from a command method. *)
Definition onCommandResult {A} (m : ResultM Call A) : CommandM A :=
  fun this =>
    match falconCommandResult this with
    | None => MkRun (Throw (AppxRecipeEngine.typeErrorUndefined "falconCommandResult")) this []
    | Some res =>
        let r := m res in
        MkRun (completion r) (setCommandResult (after r) this) (trace r)
    end.

(** Modelled from the spec: [SfdxFalconError.terminateWithError] is in a
    missing module; the command layer ends with a non-zero process
    outcome, which the trace records. *)
Definition terminateWithError : CommandM unit := emit CallTerminateWithError.

(** Modelled from the spec: [displayResult] of the missing result class
    renders to the console. *)
Definition displayResult : CommandM unit := emit CallDisplayResult.

(** *** onError *)
Definition onError (rejected : Thrown) : CommandM unit :=
  (let rejectedResult :=
     wrapRejectedPromise rejected "Promise Returned (REJECTED)" UNKNOWN in
   this <- get ;;
   match falconCommandResultDetail this with
   | None => raise (AppxRecipeEngine.typeErrorUndefined "commandExitCode")
   | Some d =>
       let d' := withExitCode 1 d in
       modify (setCommandDetail d') ;;
       onCommandResult (setDetail (DetailCommand d')) ;;
       onCommandResult (addChild rejectedResult) ;;
       onCommandResult (error (errObj rejectedResult)) ;;
       (if falconDebugErrorFlag this then displayResult else ret tt) ;;
       terminateWithError
   end)%eff.

(** *** onSuccess *)
Definition onSuccess (sfdxFalconResult : SfdxFalconResult) : CommandM unit :=
  (onCommandResult (addChild sfdxFalconResult) ;;
   this <- get ;;
   onCommandResult
     (success (option_map DetailCommand (falconCommandResultDetail this))) ;;
   if falconDebugSuccessFlag this then displayResult else ret tt)%eff.

End SfdxFalconCommand.

(** ** The static schema validators of the engine
    (modules/sfdx-falcon-recipe/engines/appx/index.ts, static methods) *)

Module AppxRecipeValidation.
Import AppxRecipeEngine.

(** Reading a member of [null]. *)
Definition typeErrorNull (member : string) : Thrown :=
  ThrownError (newTypeError
    ("Cannot read property '" ++ member ++ "' of null")).

(** The value of a key in the members of an object, which are listed in the
    order they were written: a later member overrides an earlier one with
    the same key; [undefined] when there is none. *)
Definition fieldOf (key : string) (fields : list (string * JsValue)) : JsValue :=
  fold_left (fun found kv => if String.eqb (fst kv) key then snd kv else found)
            fields JsUndefined.

(** [v.key] for a key that is not a built-in member of arrays, strings or
    numbers: a TypeError on [undefined] and [null], [undefined] on values
    that are not objects. *)
Definition getProp (v : JsValue) (key : string) : Completion Thrown JsValue :=
  match v with
  | JsUndefined => Throw (typeErrorUndefined key)
  | JsNull => Throw (typeErrorNull key)
  | JsObject fields => Normal (fieldOf key fields)
  | _ => Normal JsUndefined
  end.

(** The same read once the value is known to be neither [undefined] nor
    [null]. *)
Definition propOf (v : JsValue) (key : string) : JsValue :=
  match v with
  | JsObject fields => fieldOf key fields
  | _ => JsUndefined
  end.

(** [for (let x of items) { f(x) }] for an [f] that may throw. *)
Fixpoint forEach (f : JsValue -> Completion Thrown unit) (items : list JsValue)
  : Completion Thrown unit :=
  match items with
  | [] => Normal tt
  | x :: rest =>
      match f x with
      | Throw e => Throw e
      | Normal _ => forEach f rest
      end
  end.

(** The members [validateTargetOrg] reads of an element of
    [options.targetOrgs]. *)
Definition asTargetOrg (v : JsValue) : TargetOrg :=
  MkTargetOrg (propOf v "orgName") (propOf v "alias")
              (propOf v "description") (propOf v "isScratchOrg")
              (propOf v "scratchDefJson") (propOf v "orgReqsJson").

(** [AppxRecipeEngine.validateTargetOrg(targetOrg)] on such an element: the
    first member it reads is [orgName]. *)
Definition validateTargetOrgEntry (v : JsValue) : Completion Thrown unit :=
  match getProp v "orgName" with
  | Throw e => Throw e
  | Normal _ => validateTargetOrg (asTargetOrg v)
  end.

(** *** validateHandler, validateRecipeStep: not implemented in the source *)
Definition validateHandler (handler : JsValue) : Completion Thrown unit := Normal tt.
Definition validateRecipeStep (recipeStep : JsValue) : Completion Thrown unit := Normal tt.

(** *** validateRecipeStepGroup *)
Definition invalidRecipe (msg : string) : Thrown :=
  ThrownError (newError ("ERROR_INVALID_RECIPE: " ++ msg)).

Definition validateRecipeStepGroup (stepGroup : JsValue) : Completion Thrown unit :=
  match getProp stepGroup "stepGroupName" with
  | Throw e => Throw e
  | Normal groupName =>
      if notNonEmptyString groupName then
        Throw (invalidRecipe
          ("Missing string value for 'stepGroupName' in  "
           ++ "one of your 'recipeStepGroup' definitions "
           ++ "(type provided: " ++ typeof groupName ++ ")"))
      else if notNonEmptyString (propOf stepGroup "alias") then
        Throw (invalidRecipe
          ("Missing string value for 'alias' in the "
           ++ "recipeStepGroup '" ++ render groupName ++ "' "
           ++ "(type provided: " ++ typeof (propOf stepGroup "alias") ++ ")"))
      else if notNonEmptyString (propOf stepGroup "description") then
        Throw (invalidRecipe
          ("Missing string value 'description' in "
           ++ "one of your 'recipeStepGroup' definitions "
           ++ "(type provided: " ++ typeof (propOf stepGroup "description") ++ ")"))
      else
        match propOf stepGroup "recipeSteps" with
        | JsArray steps => forEach validateRecipeStep steps
        | other =>
            Throw (invalidRecipe
              ("Missing array of Recipe Steps in "
               ++ "one of your 'recipeStepGroup' definitions. "
               ++ "(type provided: " ++ typeof other ++ ")"))
        end
  end.

(** *** validateOuterRecipe *)
Definition validateOuterRecipe (r : SfdxFalconRecipe.SfdxFalconRecipeJson)
  : Completion Thrown unit :=
  let opts := SfdxFalconRecipe.options r in
  if String.eqb (typeof opts) "undefined" then
    Throw (invalidRecipe
      ("Recipes in the AppX family (eg. '" ++ render (SfdxFalconRecipe.recipeType r) ++ "' "
       ++ "must provide values in the 'options' key of your recipe"))
  else
    match getProp opts "skipGroups" with
    | Throw e => Throw e
    | Normal skipGrps =>
        if negb (isArray skipGrps) then
          Throw (invalidRecipe
            ("An array of strings must be provided in the "
             ++ "'options.skipGroups' key of your recipe.  The value provided was of type "
             ++ typeof skipGrps))
        else if negb (isArray (propOf opts "skipActions")) then
          Throw (invalidRecipe
            ("An array of strings must be provided for the "
             ++ "'options.skipActions' key of your recipe.  The value you provided was of type "
             ++ typeof (propOf opts "skipActions")))
        else if negb (String.eqb (typeof (propOf opts "haltOnError")) "boolean") then
          Throw (invalidRecipe
            ("A boolean value must be provided for the "
             ++ "'options.haltOnError' key of your recipe.  The value you provided was of type "
             ++ typeof (propOf opts "haltOnError")))
        else
          match propOf opts "targetOrgs" with
          | JsArray (org :: orgs) =>
              match forEach validateTargetOrgEntry (org :: orgs) with
              | Throw e => Throw e
              | Normal _ =>
                  match SfdxFalconRecipe.recipeStepGroups r with
                  | JsArray groups =>
                      match forEach validateRecipeStepGroup groups with
                      | Throw e => Throw e
                      | Normal _ =>
                          match SfdxFalconRecipe.handlers r with
                          | JsArray hs => forEach validateHandler hs
                          | other =>
                              Throw (invalidRecipe
                                ("An array of Handlers must be provided at the root "
                                 ++ "level of your recipe. The value you provided was of type "
                                 ++ typeof other))
                          end
                      end
                  | other =>
                      Throw (invalidRecipe
                        ("An array of Recipe Step Groups must be provided at the root "
                         ++ "level of your recipe. The value you provided was of type "
                         ++ typeof other))
                  end
              end
          | _ =>
              Throw (invalidRecipe
                ("An array with at least one Target Org must be provided in the "
                 ++ "'options.targetOrgs' key of your recipe."))
          end
    end.

End AppxRecipeValidation.

(** ** The actions in the sources: validation of their options
    (engines/appx/actions/deploy-metadata.ts and configure-admin-user.ts) *)

Module AppxActions.
Import AppxRecipeEngine AppxRecipeValidation.

Definition missingOption (option : string) : Thrown :=
  ThrownError (newError ("ERROR_MISSING_OPTION: '" ++ option ++ "'")).

(** [DeployMetadataAction.validateActionOptions] *)
Definition deployMetadata_validateActionOptions (actionOptions : JsValue)
  : Completion Thrown unit :=
  match getProp actionOptions "mdapiSource" with
  | Throw e => Throw e
  | Normal v =>
      if String.eqb (typeof v) "undefined" then Throw (missingOption "mdapiSource")
      else Normal tt
  end.

(** [ConfigureAdminUserAction.validateActionOptions] *)
Definition configureAdminUser_validateActionOptions (actionOptions : JsValue)
  : Completion Thrown unit :=
  match getProp actionOptions "definitionFile" with
  | Throw e => Throw e
  | Normal v =>
      if String.eqb (typeof v) "undefined" then Throw (missingOption "definitionFile")
      else Normal tt
  end.

End AppxActions.

(** ** Utilities (modules/sfdx-falcon-util/index.ts) *)

Module SfdxFalconUtil.

(** [createUniqueUsername(baseUsername)]; [uuid] is what the call of the
    uuid generator returns, [None] an argument that is undefined. *)
Definition createUniqueUsername (uuid : string) (baseUsername : option string)
  : Completion Thrown string :=
  let usernameMaxLength := 35%nat in
  match baseUsername with
  | None =>
      Throw (ThrownError (newError
        "ERROR_INVALID_ARGUMENT: Expected a value for baseUsername but got undefined"))
  | Some base =>
      if (usernameMaxLength <? jsLength base)%nat then
        Throw (ThrownError (newError
          ("ERROR_USERNAME_LENGTH: Username can not be longer than "
           ++ pretty usernameMaxLength ++ " chars to keep room for appending a UUID")))
      else Normal (String.append base uuid)
  end.

End SfdxFalconUtil.

(** ** The console table helper (helpers/ux-helper.ts) *)

Module UxHelper.

Section WithStripAnsi.
(** [strip-ansi], which removes the ANSI escape codes of a string. *)
Variable stripAnsi : string -> string.

(** [' '.repeat(n)] *)
Fixpoint spaces (n : nat) : string :=
  match n with O => EmptyString | S n' => String " "%char (spaces n') end.

(** [pad(string, length)] of [renderTable] *)
Definition pad (s : string) (len : Z) : string :=
  let visibleLength := Z.of_nat (jsLength (stripAnsi s)) in
  let diff := (len - visibleLength)%Z in
  String.append s (spaces (Z.to_nat (Z.max 0 diff))).

(** A character of the class [\r\n]. *)
Definition isLineBreak (c : ascii) : bool :=
  (Nat.eqb (nat_of_ascii c) 13 || Nat.eqb (nat_of_ascii c) 10)%bool.

(** [s.split(/[\r\n]+/)]; [afterBreak] says that the character before was a
    line break.  Both line breaks are single bytes below 128, which occur in
    no multi-byte character, so splitting the bytes splits the text. *)
Fixpoint splitLinesFrom (s : string) (afterBreak : bool) : list string :=
  match s with
  | EmptyString => [EmptyString]
  | String c rest =>
      if isLineBreak c then
        if afterBreak then splitLinesFrom rest true
        else EmptyString :: splitLinesFrom rest true
      else
        match splitLinesFrom rest false with
        | line :: lines => String c line :: lines
        | [] => [String c EmptyString]
        end
  end.

Definition splitLines (s : string) : list string := splitLinesFrom s false.

(** [Math.max.apply(Math, numbers)] for a list that is not empty. *)
Definition maxOf (numbers : list nat) : nat := fold_right Nat.max 0%nat numbers.

(** [calcWidth(cell)] of [renderTable] *)
Definition calcWidth (cell : string) : nat :=
  let lines := splitLines (stripAnsi cell) in
  let lineLengths := map jsLength lines in
  maxOf lineLengths.

End WithStripAnsi.

(** [TableColumnKey] *)
Record TableColumnKey : Type := MkColumnKey {
  key   : string;
  label : option string }.

(** The members of [SfdxFalconKeyValueTable] that are data: the column keys
    and, of the table options, the column separator and the columns. *)
Record SfdxFalconKeyValueTable : Type := MkKeyValueTable {
  tableColumnKeys : option (list TableColumnKey);
  colSep          : string;
  columns         : option (list TableColumnKey) }.

(** The constructor: the column keys are assigned only in the branch that
    takes the defaults; the caller's [tableOptions] may override [colSep]
    but not [columns]. *)
Definition newKeyValueTable (columnKeys : option (list TableColumnKey))
           (colSepOverride : option string) : SfdxFalconKeyValueTable :=
  let stored :=
    match columnKeys with
    | None =>
        Some [MkColumnKey "option" (Some "OPTIONS"); MkColumnKey "value" (Some "VALUES")]
    | Some keys =>
        if negb (Nat.eqb (length keys) 2)
        then Some [MkColumnKey "option" (Some "OPTIONS"); MkColumnKey "value" (Some "VALUES")]
        else None
    end in
  MkKeyValueTable stored
    (match colSepOverride with Some sep => sep | None => " " end)
    stored.

End UxHelper.

(** ** A concrete engine, recipe and command for the examples *)

Module Demo.
Import AppxRecipeEngine.

Definition okResult (n : string) : SfdxFalconResult :=
  MkResult n ACTION SUCCESS DetailNone [] true true None.

Definition deployMetadata : AppxEngineAction :=
  MkAction "deploy-metadata" (fun _ _ => Normal (okResult "deploy-metadata")).

Definition demoOrg : TargetOrg :=
  MkTargetOrg (JsString "Demo Org") (JsString "demo") (JsString "A scratch org")
              (JsBool true) (JsString "demo-scratch-def.json") JsUndefined.

Definition setCtx (f : AppxEngineContext -> AppxEngineContext) : AbstractMethod unit :=
  fun e => (Normal tt, setContext (f (engineContext e)) e).

Definition setActionMap (m : option (gmap string AppxEngineAction)) : AbstractMethod unit :=
  fun e =>
    (Normal tt,
     MkEngine m (listrTasks e) (recipe e) (falconEngineResult e)
              (falconEngineResultDetail e) (preBuildStepGroups e)
              (postBuildStepGroups e) (engineContext e)).

(** An engine whose Listr run rejects with a plain error. *)
#[export] Instance demoEngine : AppxRecipeEngineImpl := {
  executeEngine := fun _ e => (Throw (ThrownError (newError "listr failed")), e);
  initializeActionMap := setActionMap (Some {[ "deploy-metadata" := deployMetadata ]});
  initializePostBuildStepGroups := fun e => (Normal tt, e);
  initializePreBuildStepGroups := fun e => (Normal tt, e);
  initializeRecipeEngineContext := setCtx (fun c =>
    MkContext (compileOptions c) JsNull (Some false) (Some false) (Some false)
              None None (Some "DevHub") None (Some "error") None);
  initializeSkipActions := setCtx (fun c =>
    MkContext (compileOptions c) (recipeObserver c) (executing c) (initialized c)
              (haltOnError c) (skipGroups c) (Some ["skipped-action"]) (devHubAlias c)
              (projectContext c) (logLevel c) (targetOrg c));
  initializeSkipGroups := setCtx (fun c =>
    MkContext (compileOptions c) (recipeObserver c) (executing c) (initialized c)
              (haltOnError c) (Some ["B"]) (skipActions c) (devHubAlias c)
              (projectContext c) (logLevel c) (targetOrg c));
  initializeTargetOrg := setCtx (fun c =>
    MkContext (compileOptions c) (recipeObserver c) (executing c) (initialized c)
              (haltOnError c) (skipGroups c) (skipActions c) (devHubAlias c)
              (projectContext c) (logLevel c) (Some demoOrg)) }.

(** The same engine, but its registry step leaves the registry undefined. *)
Definition engineLeavingRegistryUndefined : AppxRecipeEngineImpl :=
  match demoEngine with
  | Build_AppxRecipeEngineImpl run _ post pre ctx acts grps org =>
      Build_AppxRecipeEngineImpl run (fun e => (Normal tt, e)) post pre ctx acts grps org
  end.

Definition s1 : AppxEngineStep :=
  MkStep "s1" "first" "deploy-metadata" JsNull None None.
Definition s2 : AppxEngineStep :=
  MkStep "s2" "second" "skipped-action" JsNull None None.
Definition s3 : AppxEngineStep :=
  MkStep "s3" "third" "no-such-action" JsNull None None.
Definition groupA : AppxEngineStepGroup :=
  MkStepGroup "Group A" "A" "first group" [s1; s2].
Definition groupB : AppxEngineStepGroup :=
  MkStepGroup "Group B" "B" "second group" [s1].
Definition groupC : AppxEngineStepGroup :=
  MkStepGroup "Group C" "C" "a group without steps" [].
Definition demoRecipe : RecipeRef :=
  MkRecipeRef "appx:demo-recipe" true [groupA; groupB; groupC].

(** A freshly constructed engine, and the same engine after [compile]. *)
Definition freshEngine : Engine := constructor "AppxDemoConfigEngine" "Demo".
Definition compiledEngine : Engine := after (compile demoRecipe JsNull freshEngine).

(** An engine in which everything but the action registry is in place. *)
Definition engineWithoutRegistry : Engine :=
  MkEngine None None (Some demoRecipe)
           (create "AppxDemoConfigEngine:Demo" ENGINE false true true)
           (MkEngineDetail None "Demo" "AppxDemoConfigEngine" true None)
           (Some []) (Some [])
           (MkContext JsNull JsNull (Some false) (Some false) (Some false)
                      (Some []) (Some []) (Some "DevHub") None (Some "error")
                      (Some demoOrg)).

Definition demoJson : SfdxFalconRecipe.SfdxFalconRecipeJson :=
  SfdxFalconRecipe.MkRecipeJson
    (JsString "Demo") (JsString "A demo recipe") (JsString "appx:demo-recipe")
    (JsString "1.0.0") (JsString "1.0.0")
    (JsObject []) (JsArray []) (JsArray []).

(** The same recipe file without its [options] and [handlers] keys. *)
Definition jsonWithoutOptionsAndHandlers : SfdxFalconRecipe.SfdxFalconRecipeJson :=
  SfdxFalconRecipe.MkRecipeJson
    (JsString "Demo") (JsString "A demo recipe") (JsString "appx:demo-recipe")
    (JsString "1.0.0") (JsString "1.0.0")
    JsUndefined (JsArray []) JsUndefined.

#[export] Instance demoDeps : SfdxFalconRecipe.RecipeDeps := {
  SfdxFalconRecipe.APPX_DEMO := "appx:demo-recipe";
  SfdxFalconRecipe.APPX_PACKAGE := "appx:package-recipe";
  SfdxFalconRecipe.validateRecipe := fun _ => Normal tt;
  SfdxFalconRecipe.compileRecipe := fun _ opts =>
    let r := compile demoRecipe opts freshEngine in
    match completion r with
    | Normal _ => Normal (after r)
    | Throw e => Throw e
    end;
  SfdxFalconRecipe.engineImpl := demoEngine }.

Definition demoProject : SfdxFalconProject := MkProject "config" "mdapi-source".

#[export] Instance demoCommandDeps : SfdxFalconCommand.CommandDeps := {
  SfdxFalconCommand.pathResolve := fun s => String.append "/home/falcon/" s;
  SfdxFalconCommand.jsonParse := fun s =>
    if String.eqb s "{}" then Normal (JsObject [])
    else Throw (ThrownError (MkError "SyntaxError" "Unexpected token"));
  SfdxFalconCommand.getMessage := fun key _ => key;
  SfdxFalconCommand.validateLocalPath := fun _ => true }.

(** The recipe object that [read] makes of [demoJson], and the same object
    after [compile]. *)
Definition freshRecipe : SfdxFalconRecipe.Recipe :=
  SfdxFalconRecipe.MkRecipe demoJson None demoProject None
    (create "Demo" RECIPE false true true)
    (SfdxFalconRecipe.MkRecipeDetail false) true.
Definition compiledRecipe : SfdxFalconRecipe.Recipe :=
  after (SfdxFalconRecipe.compile JsNull freshRecipe).

Definition demoFlags : CommandFlags :=
  MkFlags (Some ".") None None None None None (Some "FALCON, ENGINE") (Some true)
          None None.
Definition demoArgs : CommandArgs :=
  MkArgs (Some "https://github.com/GitHubUser/my-repository.git") None.

(** The command object of "falcon:project:clone" after
    [sfdxFalconCommandInit]. *)
Definition initializedCommand : SfdxFalconCommand.Command :=
  after (SfdxFalconCommand.sfdxFalconCommandInit
           (Some "falcon:demo:clone") CT_APPX_PACKAGE
           (SfdxFalconCommand.newCommand demoFlags demoArgs)).

(** An engine whose Listr run resolves. *)
Definition engineThatResolves : AppxRecipeEngineImpl :=
  match demoEngine with
  | Build_AppxRecipeEngineImpl _ acts post pre ctx skipA skipG org =>
      Build_AppxRecipeEngineImpl (fun _ e => (Normal JsNull, e))
                                 acts post pre ctx skipA skipG org
  end.

Definition resolvingDeps : SfdxFalconRecipe.RecipeDeps :=
  SfdxFalconRecipe.Build_RecipeDeps
    "appx:demo-recipe" "appx:package-recipe" (fun _ => Normal tt)
    (fun _ opts =>
       let r := compile (impl := engineThatResolves) demoRecipe opts freshEngine in
       match completion r with
       | Normal _ => Normal (after r)
       | Throw e => Throw e
       end)
    engineThatResolves.

(** The demo recipe compiled for the engine that resolves. *)
Definition compiledRecipeThatResolves : SfdxFalconRecipe.Recipe :=
  after (SfdxFalconRecipe.compile (deps := resolvingDeps) JsNull freshRecipe).

(** The compiled demo engine with group A skipped as well. *)
Definition engineSkippingGroupA : Engine :=
  let c := engineContext compiledEngine in
  setContext
    (MkContext (compileOptions c) (recipeObserver c) (executing c) (initialized c)
               (haltOnError c) (Some ["A"; "B"]) (skipActions c) (devHubAlias c)
               (projectContext c) (logLevel c) (targetOrg c))
    compiledEngine.

(** A recipe file of the package type, and what [read] makes of it. *)
Definition packageJson : SfdxFalconRecipe.SfdxFalconRecipeJson :=
  SfdxFalconRecipe.MkRecipeJson
    (JsString "Package") (JsString "A package recipe") (JsString "appx:package-recipe")
    (JsString "1.0.0") (JsString "1.0.0")
    (JsObject []) (JsArray []) (JsArray []).

Definition packageRecipe : SfdxFalconRecipe.Recipe :=
  SfdxFalconRecipe.MkRecipe packageJson None demoProject None
    (create "Package" RECIPE false true true)
    (SfdxFalconRecipe.MkRecipeDetail false) true.

(** The demo recipe file with [options] set to [null]. *)
Definition jsonWithNullOptions : SfdxFalconRecipe.SfdxFalconRecipeJson :=
  SfdxFalconRecipe.MkRecipeJson
    (JsString "Demo") (JsString "A demo recipe") (JsString "appx:demo-recipe")
    (JsString "1.0.0") (JsString "1.0.0")
    JsNull (JsArray []) (JsArray []).

(** A recipe file that passes the engine's schema checks. *)
Definition demoOrgJson : JsValue :=
  JsObject [("orgName", JsString "Demo Org"); ("alias", JsString "demo");
            ("description", JsString "A scratch org");
            ("isScratchOrg", JsBool true);
            ("scratchDefJson", JsString "demo-scratch-def.json")].

Definition groupAJson : JsValue :=
  JsObject [("stepGroupName", JsString "Group A"); ("alias", JsString "A");
            ("description", JsString "first group"); ("recipeSteps", JsArray [])].

Definition completeJson : SfdxFalconRecipe.SfdxFalconRecipeJson :=
  SfdxFalconRecipe.MkRecipeJson
    (JsString "Demo") (JsString "A demo recipe") (JsString "appx:demo-recipe")
    (JsString "1.0.0") (JsString "1.0.0")
    (JsObject [("skipGroups", JsArray [JsString "B"]);
               ("skipActions", JsArray []);
               ("haltOnError", JsBool true);
               ("targetOrgs", JsArray [demoOrgJson])])
    (JsArray [groupAJson]) (JsArray []).

(** The demo engine, but its registry step stores a registry without
    entries. *)
Definition engineLeavingRegistryEmpty : AppxRecipeEngineImpl :=
  match demoEngine with
  | Build_AppxRecipeEngineImpl run _ post pre ctx acts grps org =>
      Build_AppxRecipeEngineImpl run (setActionMap (Some ∅)) post pre ctx acts grps org
  end.



(** A complete recipe file, but with [null] as its only target org. *)
Definition jsonWithNullTargetOrg : SfdxFalconRecipe.SfdxFalconRecipeJson :=
  SfdxFalconRecipe.MkRecipeJson
    (JsString "Demo") (JsString "A demo recipe") (JsString "appx:demo-recipe")
    (JsString "1.0.0") (JsString "1.0.0")
    (JsObject [("skipGroups", JsArray []);
               ("skipActions", JsArray []);
               ("haltOnError", JsBool true);
               ("targetOrgs", JsArray [JsNull])])
    (JsArray [groupAJson]) (JsArray []).

(** Flags whose extended options are not JSON. *)
Definition flagsWithBadOptions : CommandFlags :=
  MkFlags (Some ".") None None None None (Some "{oops") None None None None.

End Demo.

(** ** The statements of the specification that serve as yardsticks *)

Module Spec.
Import AppxRecipeEngine.

(** The spec's words for steps: a step is emitted as a task iff its action
    is not in [skipActions]. *)
Definition stepIsActive (skipActs : list string) (step : AppxEngineStep) : bool :=
  negb (includes skipActs (action step)).

(** The spec's words for groups: a group is dropped iff its alias is in
    [skipGroups] or every step's action is in [skipActions]. *)
Definition groupAppears (skipGrps skipActs : list string)
           (g : AppxEngineStepGroup) : bool :=
  negb (includes skipGrps (groupAlias g))
  && existsb (stepIsActive skipActs) (recipeSteps g).

(** The fixed order of the eight initialisation steps. *)
Definition initializationOrder : list Call :=
  [ CallInitializeRecipeEngineContext; CallInitializeTargetOrg;
    CallInitializePreBuildStepGroups; CallInitializePostBuildStepGroups;
    CallInitializeSkipActions; CallInitializeSkipGroups;
    CallInitializeActionMap; CallInitializeEngineResultDetail ].

(** The calls of a complete [compile]. *)
Definition compileOrder : list Call :=
  initializationOrder ++ [CallValidateEngine; CallCompileAllTasks].

(** What [validateEngine] enforces, in the spec's words: action registry
    non-empty; pre/post-build group lists are arrays; the target org is set
    and has a non-empty alias; the skip lists are arrays. *)
Definition registryNonEmpty (this : Engine) : bool :=
  match actionExecutorMap this with
  | Some m => negb (size m =? 0)%nat
  | None => false
  end.

Definition engineChecks (this : Engine) : bool :=
  negb (isNone (preBuildStepGroups this))
  && negb (isNone (postBuildStepGroups this))
  && negb (targetOrgMissing this)
  && negb (isNone (skipActions (engineContext this)))
  && negb (isNone (skipGroups (engineContext this))).

(** A value is a non-empty string. *)
Definition nonEmptyString (v : JsValue) : Prop :=
  exists s, v = JsString s /\ s <> "".

(** A value is a boolean. *)
Definition isBoolean (v : JsValue) : Prop := exists b, v = JsBool b.

(** The spec's words for a target org: [orgName], [alias], [description],
    [isScratchOrg] required; [scratchDefJson] required iff scratch;
    [orgReqsJson] required iff not scratch. *)
Definition targetOrgIsValid (org : TargetOrg) : Prop :=
  nonEmptyString (orgName org)
  /\ nonEmptyString (alias org)
  /\ nonEmptyString (description org)
  /\ isBoolean (isScratchOrg org)
  /\ (isScratchOrg org = JsBool true -> nonEmptyString (scratchDefJson org))
  /\ (isScratchOrg org = JsBool false -> nonEmptyString (orgReqsJson org)).

(** An error of the [InvalidRecipe] kind. *)
Definition isInvalidRecipe (t : Thrown) : Prop :=
  exists msg, t = ThrownError (newError msg)
              /\ startsWith "ERROR_INVALID_RECIPE: " msg = true.

(** The eight required top-level keys with the values a recipe gives them. *)
Definition requiredKeys (r : SfdxFalconRecipe.SfdxFalconRecipeJson)
  : list (string * JsValue) :=
  [ ("recipeName", SfdxFalconRecipe.recipeName r);
    ("description", SfdxFalconRecipe.description r);
    ("recipeType", SfdxFalconRecipe.recipeType r);
    ("recipeVersion", SfdxFalconRecipe.recipeVersion r);
    ("schemaVersion", SfdxFalconRecipe.schemaVersion r);
    ("options", SfdxFalconRecipe.options r);
    ("recipeStepGroups", SfdxFalconRecipe.recipeStepGroups r);
    ("handlers", SfdxFalconRecipe.handlers r) ].

(** The required keys that are missing or empty, in their fixed order. *)
Definition missingKeys (r : SfdxFalconRecipe.SfdxFalconRecipeJson) : list string :=
  map fst (List.filter (fun kv => negb (truthy (snd kv))) (requiredKeys r)).

End Spec.

(** * Facts *)

(** ** JavaScript helpers *)

Module JsFacts.

Lemma includes_In l x : includes l x = true <-> In x l.
Proof.
  unfold includes. rewrite existsb_exists. split.
  - intros [y [Hy He]]. apply String.eqb_eq in He. now subst.
  - intros H. exists x. split; [assumption | apply String.eqb_refl].
Qed.

Lemma includes_not_In l x : includes l x = false <-> ~ In x l.
Proof.
  rewrite <- includes_In. destruct (includes l x); split; intros; congruence.
Qed.

Lemma notNonEmptyString_false v :
  notNonEmptyString v = false <-> exists s, v = JsString s /\ s <> "".
Proof.
  unfold notNonEmptyString. split.
  - destruct v; simpl; try discriminate.
    intros H. exists s. split; [reflexivity |].
    intros ->. discriminate.
  - intros [s [-> Hs]]. simpl.
    destruct (String.eqb_spec s ""); [contradiction | reflexivity].
Qed.

Lemma typeof_boolean v :
  String.eqb (typeof v) "boolean" = true <-> exists b, v = JsBool b.
Proof.
  split.
  - destruct v; simpl; try discriminate. eauto.
  - intros [b ->]. reflexivity.
Qed.

Lemma In_firstn_In {A} (x : A) n l : In x (firstn n l) -> In x l.
Proof.
  revert l. induction n as [|n IH]; intros [|y l]; cbn; try tauto.
  intros [-> | H]; [now left | right; now apply IH].
Qed.

End JsFacts.

(** ** The monad *)

Module EffFacts.

Section Laws.
Context {Ev E S : Type}.
Let M' := M Ev E S.

Lemma bind_assoc {A B C} (m : M' A) (k : A -> M' B) (h : B -> M' C) s :
  bind (bind m k) h s = bind m (fun a => bind (k a) h) s.
Proof.
  unfold bind. simpl.
  destruct (completion (m s)) as [a|e]; simpl; [| reflexivity].
  destruct (completion (k a (after (m s)))) as [b|e]; simpl.
  - now rewrite app_assoc.
  - reflexivity.
Qed.

Lemma bind_ext {A B} (m : M' A) (k k' : A -> M' B) s :
  (forall a s', k a s' = k' a s') -> bind m k s = bind m k' s.
Proof.
  intros H. unfold bind.
  destruct (completion (m s)); [now rewrite H | reflexivity].
Qed.

Lemma bind_throw {A B} (m : M' A) (k : A -> M' B) s e :
  completion (m s) = Throw e ->
  bind m k s = MkRun (Throw e) (after (m s)) (trace (m s)).
Proof. intros H. unfold bind. now rewrite H. Qed.

Lemma bind_normal {A B} (m : M' A) (k : A -> M' B) s a :
  completion (m s) = Normal a ->
  bind m k s = MkRun (completion (k a (after (m s))))
                     (after (k a (after (m s))))
                     (trace (m s) ++ trace (k a (after (m s)))).
Proof. intros H. unfold bind. now rewrite H. Qed.

(** Every value the method throws satisfies [P] together with the state
    the throw leaves behind. *)
Definition throwsOnly {A} (P : E -> S -> Prop) (m : M' A) : Prop :=
  forall s t, completion (m s) = Throw t -> P t (after (m s)).




Lemma throwsOnly_modify P f : throwsOnly P (modify f).
Proof. intros s t H. discriminate. Qed.



End Laws.

End EffFacts.

(** ** The task compiler *)

Module CompilerFacts.
Import AppxRecipeEngine Spec JsFacts.

Section WithSkipLists.
Variable this : Engine.
Variables skipGrps skipActs : list string.
Hypothesis HskipGroups : skipGroups (engineContext this) = Some skipGrps.
Hypothesis HskipActions : skipActions (engineContext this) = Some skipActs.

Lemma skipAction_eq a : skipAction this a = Normal (includes skipActs a).
Proof using HskipActions. unfold skipAction. now rewrite HskipActions. Qed.

Lemma skipGroup_eq a : skipGroup this a = Normal (includes skipGrps a).
Proof using HskipGroups. unfold skipGroup. now rewrite HskipGroups. Qed.

Lemma anyActiveStep_eq steps :
  anyActiveStep this steps = Normal (existsb (stepIsActive skipActs) steps).
Proof using HskipActions.
  induction steps as [|st rest IH]; simpl; [reflexivity |].
  rewrite skipAction_eq. unfold stepIsActive at 1.
  destruct (includes skipActs (action st)); simpl; [exact IH | reflexivity].
Qed.

Lemma stepGroupHasActiveTasks_eq g :
  stepGroupHasActiveTasks this g
  = Normal (existsb (stepIsActive skipActs) (recipeSteps g)).
Proof using HskipActions.
  unfold stepGroupHasActiveTasks.
  destruct (recipeSteps g) as [|st rest] eqn:E; [reflexivity |].
  cbn [length Nat.ltb Nat.leb]. apply anyActiveStep_eq.
Qed.

Lemma addSubTasks_eq steps :
  addSubTasks this steps
  = Normal (map (fun st => MkSubTask (stepName st) st)
                (List.filter (stepIsActive skipActs) steps)).
Proof using HskipActions.
  induction steps as [|st rest IH]; simpl; [reflexivity |].
  rewrite skipAction_eq. unfold stepIsActive at 1.
  destruct (includes skipActs (action st)); simpl; rewrite IH; reflexivity.
Qed.

Lemma compileParentTasks_eq groups :
  compileParentTasks this groups
  = Normal (map (fun g => MkParentTask (stepGroupName g) g)
                (List.filter (groupAppears skipGrps skipActs) groups)).
Proof using HskipGroups HskipActions.
  induction groups as [|g rest IH]; simpl; [reflexivity |].
  rewrite skipGroup_eq, IH, stepGroupHasActiveTasks_eq.
  assert (E : groupAppears skipGrps skipActs g
              = negb (includes skipGrps (groupAlias g))
                && existsb (stepIsActive skipActs) (recipeSteps g))
    by reflexivity.
  rewrite E.
  destruct (includes skipGrps (groupAlias g)); simpl; [reflexivity |].
  destruct (existsb (stepIsActive skipActs) (recipeSteps g)); reflexivity.
Qed.

Lemma compileSubTasks_of_appearing g :
  groupAppears skipGrps skipActs g = true ->
  compileSubTasks this g
  = Normal (map (fun st => MkSubTask (stepName st) st)
                (List.filter (stepIsActive skipActs) (recipeSteps g))).
Proof using HskipActions.
  unfold groupAppears, compileSubTasks. intros H.
  apply andb_true_iff in H as [_ H].
  destruct (recipeSteps g) as [|st rest] eqn:E; [discriminate |].
  cbn [length Nat.ltb Nat.leb]. apply addSubTasks_eq.
Qed.

End WithSkipLists.

(** A group without steps has no active task, whatever the skip lists. *)
Lemma stepGroupHasActiveTasks_empty this g :
  recipeSteps g = [] -> stepGroupHasActiveTasks this g = Normal false.
Proof. intros H. unfold stepGroupHasActiveTasks. now rewrite H. Qed.

Lemma groupAppears_iff sg sa g :
  groupAppears sg sa g = true <->
  ~ In (groupAlias g) sg
  /\ exists st, In st (recipeSteps g) /\ ~ In (action st) sa.
Proof.
  unfold groupAppears. rewrite andb_true_iff, negb_true_iff, includes_not_In.
  rewrite existsb_exists. unfold stepIsActive.
  split; intros [H1 [st [H2 H3]]]; (split; [assumption |]); exists st;
    (split; [assumption |]).
  - now apply includes_not_In, negb_true_iff.
  - now apply negb_true_iff, includes_not_In.
Qed.

Lemma stepIsActive_iff sa st :
  stepIsActive sa st = true <-> ~ In (action st) sa.
Proof. unfold stepIsActive. now rewrite negb_true_iff, includes_not_In. Qed.

End CompilerFacts.

(** ** Engine initialisation, validation and compilation *)

Module EngineFacts.
Import AppxRecipeEngine Spec JsFacts EffFacts CompilerFacts.

Lemma validateEngine_pass s :
  actionMapIsEmptyMap s = false -> engineChecks s = true ->
  validateEngine s
  = MkRun (Normal tt) (setContext (setInitialized true (engineContext s)) s)
          [CallValidateEngine].
Proof.
  unfold engineChecks, validateEngine, bind, emit, get, raise, modify.
  intros H1 H2. cbn. rewrite H1.
  repeat (apply andb_true_iff in H2 as [H2 ?]).
  apply negb_true_iff in H2.
  repeat match goal with H : negb _ = true |- _ =>
    apply negb_true_iff in H; rewrite H end.
  rewrite H2. reflexivity.
Qed.

Lemma validateEngine_cases s :
  (actionMapIsEmptyMap s = false /\ engineChecks s = true
   /\ validateEngine s
      = MkRun (Normal tt) (setContext (setInitialized true (engineContext s)) s)
              [CallValidateEngine])
  \/ ((actionMapIsEmptyMap s = true \/ engineChecks s = false)
      /\ exists x, validateEngine s = MkRun (Throw x) s [CallValidateEngine]).
Proof.
  destruct (actionMapIsEmptyMap s) eqn:H1.
  - right. split; [now left |].
    unfold validateEngine, bind, emit, get, raise, modify. cbn. rewrite H1.
    eexists. reflexivity.
  - destruct (engineChecks s) eqn:H2.
    + left. repeat split. now apply validateEngine_pass.
    + right. split; [now right |].
      unfold engineChecks in H2.
      unfold validateEngine, bind, emit, get, raise, modify. cbn. rewrite H1.
      destruct (isNone (preBuildStepGroups s)); [eexists; reflexivity |].
      destruct (isNone (postBuildStepGroups s)); [eexists; reflexivity |].
      destruct (targetOrgMissing s); [eexists; reflexivity |].
      destruct (isNone (skipActions (engineContext s))); [eexists; reflexivity |].
      destruct (isNone (skipGroups (engineContext s))); [eexists; reflexivity |].
      discriminate.
Qed.

Lemma isNone_false {A} (o : option A) : isNone o = false -> exists a, o = Some a.
Proof. destruct o; [eauto | discriminate]. Qed.

Lemma engineChecks_arrays s :
  engineChecks s = true ->
  exists pre post sa sg,
    preBuildStepGroups s = Some pre /\ postBuildStepGroups s = Some post
    /\ skipActions (engineContext s) = Some sa
    /\ skipGroups (engineContext s) = Some sg.
Proof.
  unfold engineChecks. intros H.
  repeat (apply andb_true_iff in H as [H ?]).
  repeat match goal with H : negb _ = true |- _ =>
    apply negb_true_iff in H end.
  destruct (isNone_false _ H) as [pre ?].
  destruct (isNone_false _ H3) as [post ?].
  destruct (isNone_false _ H1) as [sa ?].
  destruct (isNone_false _ H0) as [sg ?].
  exists pre, post, sa, sg. auto.
Qed.

Lemma initializeEngineResultDetail_trace s :
  trace (initializeEngineResultDetail s) = [CallInitializeEngineResultDetail].
Proof.
  unfold initializeEngineResultDetail, bind, emit, modify, get. cbn.
  destruct (actionExecutorMap s); reflexivity.
Qed.

Lemma compileAllTasks_trace s : trace (compileAllTasks s) = [CallCompileAllTasks].
Proof.
  unfold compileAllTasks, bind, emit, modify, get, raise, lift. cbn.
  destruct (initialized (engineContext s)) as [[|]|]; cbn; try reflexivity.
  destruct (preBuildStepGroups s); cbn; try reflexivity.
  destruct (recipe s); cbn; try reflexivity.
  destruct (postBuildStepGroups s); cbn; try reflexivity.
  destruct (compileParentTasks s _); reflexivity.
Qed.

Lemma compileAllTasks_context s :
  engineContext (after (compileAllTasks s)) = engineContext s.
Proof.
  unfold compileAllTasks, bind, emit, modify, get, raise, lift. cbn.
  destruct (initialized (engineContext s)) as [[|]|]; cbn; try reflexivity.
  destruct (preBuildStepGroups s); cbn; try reflexivity.
  destruct (recipe s); cbn; try reflexivity.
  destruct (postBuildStepGroups s); cbn; try reflexivity.
  destruct (compileParentTasks s _); reflexivity.
Qed.

Lemma compileAllTasks_needs_recipe s :
  completion (compileAllTasks s) = Normal tt -> exists rcp, recipe s = Some rcp.
Proof.
  unfold compileAllTasks, bind, emit, modify, get, raise, lift. cbn.
  destruct (initialized (engineContext s)) as [[|]|]; cbn; try discriminate.
  destruct (preBuildStepGroups s); cbn; try discriminate.
  destruct (recipe s); cbn; [eauto | discriminate].
Qed.

(** After a passed validation the task compiler stores exactly the plan
    of [compileParentTasks] over pre-build, recipe and post-build groups. *)
Lemma compileAllTasks_run s pre post rcp sg sa :
  initialized (engineContext s) = Some true ->
  preBuildStepGroups s = Some pre -> postBuildStepGroups s = Some post ->
  recipe s = Some rcp ->
  skipGroups (engineContext s) = Some sg ->
  skipActions (engineContext s) = Some sa ->
  compileAllTasks s
  = MkRun (Normal tt)
      (setListrTasks
         (map (fun g => MkParentTask (stepGroupName g) g)
              (List.filter (groupAppears sg sa)
                           (pre ++ recipeStepGroups rcp ++ post))) s)
      [CallCompileAllTasks].
Proof.
  intros Hi Hpre Hpost Hr Hsg Hsa.
  unfold compileAllTasks, bind, emit, modify, get, raise, lift. cbn.
  rewrite Hi, Hpre, Hr, Hpost. cbn.
  rewrite (compileParentTasks_eq s sg sa Hsg Hsa). reflexivity.
Qed.

Section WithImpl.
Context `{impl : AppxRecipeEngineImpl}.

Lemma compile_split rcp opts e :
  validated rcp = true ->
  compile rcp opts e
  = bind (initializeEngine rcp opts)
         (fun _ => bind validateEngine (fun _ => compileAllTasks)) e.
Proof.
  intros Hv. unfold compile, initializeEngine. rewrite Hv. cbn [negb].
  repeat (rewrite bind_assoc; apply bind_ext; intros).
  reflexivity.
Qed.

Lemma compile_not_validated rcp opts e :
  validated rcp = false ->
  compile rcp opts e = MkRun (Throw notValidatedError) e [].
Proof. intros Hv. unfold compile. now rewrite Hv. Qed.

(** The three ways a [compile] of a validated recipe can go. *)
Lemma compile_cases rcp opts e :
  validated rcp = true ->
  let i := initializeEngine rcp opts e in
  let v := validateEngine (after i) in
  let c := compileAllTasks (after v) in
  compile rcp opts e
  = match completion i with
    | Throw x => MkRun (Throw x) (after i) (trace i)
    | Normal _ =>
        match completion v with
        | Throw x => MkRun (Throw x) (after v) (trace i ++ trace v)
        | Normal _ => MkRun (completion c) (after c) (trace i ++ trace v ++ trace c)
        end
    end.
Proof.
  intros Hv. cbv zeta. rewrite compile_split by assumption.
  unfold bind.
  destruct (completion (initializeEngine rcp opts e)); [| reflexivity].
  destruct (completion (validateEngine _)); reflexivity.
Qed.

(** A method whose calls are, in order, a prefix of [order], and all of
    [order] when it completes normally. *)
Definition runsPrefixOf {A} (order : list Call) (m : EngineM A) : Prop :=
  forall s,
    (exists n, trace (m s) = firstn n order)
    /\ (forall a, completion (m s) = Normal a -> trace (m s) = order).

Lemma runsPrefixOf_call_bind {A B} c (h : AbstractMethod A) (k : A -> EngineM B) rest :
  (forall a, runsPrefixOf rest (k a)) ->
  runsPrefixOf (c :: rest) (bind (call c h) k).
Proof.
  intros H s. unfold bind, call.
  destruct (h s) as [[a|x] s']; cbn.
  - destruct (H a s') as [[n Hn] Hf]. split.
    + exists (S n). cbn. now rewrite Hn.
    + intros b Hb. now rewrite (Hf b Hb).
  - split; [now exists 1%nat | discriminate].
Qed.

Lemma runsPrefixOf_modify_bind {B} f (k : unit -> EngineM B) order :
  runsPrefixOf order (k tt) -> runsPrefixOf order (bind (modify f) k).
Proof. intros H s. unfold bind, modify. cbn. apply H. Qed.

Lemma runsPrefixOf_last {A} c (m : EngineM A) :
  (forall s, trace (m s) = [c]) -> runsPrefixOf [c] m.
Proof.
  intros H s. rewrite H. split; [now exists 1%nat | reflexivity].
Qed.

Lemma initializeEngine_trace rcp opts e :
  (exists n, trace (initializeEngine rcp opts e) = firstn n initializationOrder)
  /\ (forall u, completion (initializeEngine rcp opts e) = Normal u ->
                trace (initializeEngine rcp opts e) = initializationOrder).
Proof.
  revert e. change (runsPrefixOf initializationOrder (initializeEngine rcp opts)).
  unfold initializeEngine, initializationOrder.
  do 2 apply runsPrefixOf_modify_bind.
  do 7 (apply runsPrefixOf_call_bind; intros _).
  apply runsPrefixOf_last, initializeEngineResultDetail_trace.
Qed.

End WithImpl.

End EngineFacts.

(** ** Claims about compilation *)

Module CompileClaims.
Import AppxRecipeEngine Spec JsFacts EffFacts CompilerFacts EngineFacts.

Section WithImpl.
Context `{impl : AppxRecipeEngineImpl}.

(** What a [compile] that completes normally went through. *)
Lemma compile_normal_inv rcp opts e :
  completion (compile rcp opts e) = Normal tt ->
  let s8 := after (initializeEngine rcp opts e) in
  let sv := setContext (setInitialized true (engineContext s8)) s8 in
  validated rcp = true
  /\ completion (initializeEngine rcp opts e) = Normal tt
  /\ actionMapIsEmptyMap s8 = false /\ engineChecks s8 = true
  /\ completion (compileAllTasks sv) = Normal tt
  /\ after (compile rcp opts e) = after (compileAllTasks sv)
  /\ trace (compile rcp opts e) = compileOrder.
Proof.
  intros Hn. cbv zeta.
  destruct (validated rcp) eqn:Hv;
    [| rewrite compile_not_validated in Hn by assumption; discriminate].
  rewrite (compile_cases rcp opts e Hv) in *. cbv zeta in *.
  destruct (initializeEngine_trace rcp opts e) as [_ Htr].
  destruct (initializeEngine rcp opts e) as [ci s8 ti].
  cbn [completion after trace] in *.
  destruct ci as [[]|x]; [| discriminate].
  specialize (Htr tt eq_refl). subst ti.
  destruct (validateEngine_cases s8)
    as [(H1 & H2 & Hrun) | (_ & x & Hrun)]; rewrite Hrun in *;
    cbn [completion after trace] in *; [| discriminate].
  rewrite compileAllTasks_trace.
  repeat split; try assumption.
Qed.

(** C1.  In every compiled plan a step group appears if and only if its
    alias is not in skipGroups and it has at least one step whose action
    is not in skipActions (the groups being the pre-build groups, the
    recipe's groups and the post-build groups, in this order); and every
    group that appears, when Listr runs its task, yields exactly the
    steps whose action is not in skipActions, in their order. *)
Theorem compiled_plan_obeys_skip_rules rcp opts e :
  completion (compile rcp opts e) = Normal tt ->
  let this := after (compile rcp opts e) in
  exists pre post rcp' sg sa plan,
    preBuildStepGroups this = Some pre
    /\ postBuildStepGroups this = Some post
    /\ recipe this = Some rcp'
    /\ skipGroups (engineContext this) = Some sg
    /\ skipActions (engineContext this) = Some sa
    /\ listrTasks this = Some plan
    /\ map parentGroup plan
       = List.filter (groupAppears sg sa) (pre ++ recipeStepGroups rcp' ++ post)
    /\ (forall g, In g (map parentGroup plan) <->
                  In g (pre ++ recipeStepGroups rcp' ++ post)
                  /\ ~ In (groupAlias g) sg
                  /\ exists st, In st (recipeSteps g) /\ ~ In (action st) sa)
    /\ (forall t, In t plan ->
          exists subs,
            runParentTask t this = MkRun (Normal subs) this []
            /\ map subStep subs
               = List.filter (stepIsActive sa) (recipeSteps (parentGroup t))
            /\ forall st, In st (map subStep subs) <->
                          In st (recipeSteps (parentGroup t))
                          /\ ~ In (action st) sa).
Proof.
  intros Hn. cbv zeta.
  destruct (compile_normal_inv rcp opts e Hn)
    as (_ & _ & _ & Hchk & Hc & Hafter & _).
  set (s8 := after (initializeEngine rcp opts e)) in *.
  set (sv := setContext (setInitialized true (engineContext s8)) s8) in *.
  destruct (engineChecks_arrays s8 Hchk) as (pre & post & sa & sg & Hpre & Hpost & Hsa & Hsg).
  destruct (compileAllTasks_needs_recipe sv Hc) as [rcp' Hr].
  rewrite Hafter.
  rewrite (compileAllTasks_run sv pre post rcp' sg sa)
    by (assumption || reflexivity).
  cbn [after].
  set (groups := pre ++ recipeStepGroups rcp' ++ post).
  set (plan := map (fun g => MkParentTask (stepGroupName g) g)
                   (List.filter (groupAppears sg sa) groups)).
  assert (Hmap : map parentGroup plan = List.filter (groupAppears sg sa) groups).
  { subst plan. rewrite map_map. cbn. apply map_id. }
  exists pre, post, rcp', sg, sa, plan.
  split; [exact Hpre |]. split; [exact Hpost |]. split; [exact Hr |].
  split; [exact Hsg |]. split; [exact Hsa |]. split; [reflexivity |].
  split; [exact Hmap |]. split.
  - intros g. rewrite Hmap, filter_In, groupAppears_iff. reflexivity.
  - intros t Ht.
    assert (Hg : groupAppears sg sa (parentGroup t) = true).
    { apply (in_map parentGroup) in Ht. rewrite Hmap in Ht.
      now apply filter_In in Ht. }
    set (this := setListrTasks plan sv).
    assert (Hsub := compileSubTasks_of_appearing this sg sa Hsa (parentGroup t) Hg).
    eexists. split; [| split].
    + unfold runParentTask, bind, get, lift. cbn. fold this. rewrite Hsub.
      reflexivity.
    + rewrite map_map. cbn. apply map_id.
    + intros st. rewrite map_map. cbn. rewrite map_id, filter_In, stepIsActive_iff.
      reflexivity.
Qed.

(** C3.  For a validated recipe, [compile] calls the eight
    initialisation steps in the fixed order (context, target org,
    pre-build groups, post-build groups, skip-actions, skip-groups, action
    registry, engine result detail) and stops at the first that fails;
    [validateEngine] runs only after all eight.  If a check of
    [validateEngine] fails, [compile] throws that error, leaves the engine
    as the eight steps left it (so [initialized] is not set and
    [listrTasks] is not written) and never calls the task compiler.  If
    all checks pass, the context is marked [initialized = true] and only
    then is the task compiler called. *)
Theorem compile_initializes_in_order_then_validates rcp opts e :
  validated rcp = true ->
  let init := initializeEngine rcp opts e in
  let r := compile rcp opts e in
  (exists n, trace init = firstn n initializationOrder)
  /\ (forall x, completion init = Throw x ->
        completion r = Throw x /\ after r = after init
        /\ trace r = trace init
        /\ ~ In CallValidateEngine (trace r)
        /\ ~ In CallCompileAllTasks (trace r))
  /\ (forall u, completion init = Normal u ->
        trace init = initializationOrder
        /\ (forall x, completion (validateEngine (after init)) = Throw x ->
              completion r = Throw x
              /\ after r = after init
              /\ initialized (engineContext (after r))
                 = initialized (engineContext (after init))
              /\ listrTasks (after r) = listrTasks (after init)
              /\ trace r = initializationOrder ++ [CallValidateEngine]
              /\ ~ In CallCompileAllTasks (trace r))
        /\ (forall v, completion (validateEngine (after init)) = Normal v ->
              actionMapIsEmptyMap (after init) = false
              /\ engineChecks (after init) = true
              /\ initialized (engineContext (after (validateEngine (after init))))
                 = Some true
              /\ r = MkRun
                       (completion (compileAllTasks (after (validateEngine (after init)))))
                       (after (compileAllTasks (after (validateEngine (after init)))))
                       compileOrder
              /\ initialized (engineContext (after r)) = Some true)).
Proof.
  intros Hv. cbv zeta.
  destruct (initializeEngine_trace rcp opts e) as [Hpre Hfull].
  split; [exact Hpre |].
  rewrite (compile_cases rcp opts e Hv). cbv zeta.
  destruct (initializeEngine rcp opts e) as [ci s8 ti].
  cbn [completion after trace] in *.
  split.
  - intros x ->. cbn [completion after trace].
    destruct Hpre as [n ->].
    repeat split; intros H; apply In_firstn_In in H; cbn in H; intuition discriminate.
  - intros [] ->. specialize (Hfull tt eq_refl). subst ti.
    split; [reflexivity |].
    destruct (validateEngine_cases s8)
      as [(H1 & H2 & Hrun) | (_ & y & Hrun)]; rewrite Hrun;
      cbn [completion after trace].
    + split; [intros x Hx; discriminate |].
      intros [] _.
      rewrite compileAllTasks_trace, compileAllTasks_context.
      repeat split; assumption.
    + split; [| intros v Hvn; discriminate].
      intros x Hx. injection Hx as ->.
      repeat split.
      intros H. cbn in H. intuition discriminate.
Qed.

End WithImpl.

(** C2 (what the code does).  A step group whose steps list is empty never
    makes compilation fail: [stepGroupHasActiveTasks] answers false for it
    whatever the skip lists, so [compileParentTasks] leaves it out of the
    plan whether or not its alias is in skipGroups and its
    [compileSubTasks] closure is never created.  [compileSubTasks] itself,
    applied to such a group, throws ERROR_NO_STEPS whatever the skip
    lists. *)
Theorem empty_group_is_dropped_from_plan this g :
  recipeSteps g = [] ->
  compileSubTasks this g = Throw (noStepsError g)
  /\ stepGroupHasActiveTasks this g = Normal false
  /\ forall sg before rest,
       skipGroups (engineContext this) = Some sg ->
       compileParentTasks this (before ++ g :: rest)
       = compileParentTasks this (before ++ rest).
Proof.
  intros Hg. split; [| split].
  - unfold compileSubTasks. now rewrite Hg.
  - now apply stepGroupHasActiveTasks_empty.
  - intros sg before rest Hsg.
    induction before as [|b before IH]; cbn.
    + unfold skipGroup. rewrite Hsg.
      rewrite (stepGroupHasActiveTasks_empty this g Hg).
      now destruct (includes sg (groupAlias g)).
    + rewrite IH. reflexivity.
Qed.

(** Outside [compile]: the registry test is
    [instanceof Map && size < 1], so on an engine object put together by
    hand with no registry at all and everything else in place,
    [validateEngine] raises nothing.  [compile] never presents such a state
    to it, since step eight reads the keys of the registry first. *)
Remark validateEngine_accepts_absent_registry :
  actionExecutorMap Demo.engineWithoutRegistry = None
  /\ registryNonEmpty Demo.engineWithoutRegistry = false
  /\ completion (validateEngine Demo.engineWithoutRegistry) = Normal tt
  /\ initialized (engineContext (after (validateEngine Demo.engineWithoutRegistry)))
     = Some true.
Proof. repeat split. Qed.

(** The registry check of [validateEngine] does fire for a registry that
    is a map without entries. *)
Lemma validateEngine_rejects_empty_registry this :
  actionExecutorMap this = Some ∅ ->
  exists msg,
    validateEngine this
    = MkRun (Throw (invalidEngine msg)) this [CallValidateEngine].
Proof.
  intros H. unfold validateEngine, bind, emit, get, raise, modify. cbn.
  unfold actionMapIsEmptyMap. rewrite H. cbn. eexists. reflexivity.
Qed.

(** C7.  For every step whose action name is not a key of the engine's
    action registry, [executeStep] throws the ERROR_UNKNOWN_ACTION error
    whose message quotes that action name; the engine is left unchanged and
    no action executor is called. *)
Theorem executeStep_unknown_action this step listrOpts
        (m : gmap string AppxEngineAction) rcp :
  actionExecutorMap this = Some m ->
  m !! action step = None ->
  recipe this = Some rcp ->
  executeStep step listrOpts this
  = MkRun (Throw (ThrownError (newError
             ("ERROR_UNKNOWN_ACTION: '" ++ action step ++ "' is not recognized "
              ++ "by the " ++ recipeType rcp ++ " eninge"))))
          this []
  /\ forall name, ~ In (CallActionExecute name)
                       (trace (executeStep step listrOpts this)).
Proof.
  intros Hm Hl Hr.
  assert (E : executeStep step listrOpts this
              = MkRun (Throw (unknownActionError (action step) (recipeType rcp)))
                      this []).
  { unfold executeStep, bind, get, raise. cbn. rewrite Hm, Hl, Hr. reflexivity. }
  split; [exact E |].
  intros name. rewrite E. cbn. tauto.
Qed.

End CompileClaims.

(** ** Compilation on the demo engine *)

Module CompileExamples.
Import AppxRecipeEngine Spec CompileClaims Demo.

(** The demo recipe compiles; its plan obeys the skip rules. *)
Lemma compiled_plan_obeys_skip_rules_witness :
  completion (compile Demo.demoRecipe JsNull Demo.freshEngine) = Normal tt
  /\ exists pre post rcp' sg sa plan,
       preBuildStepGroups Demo.compiledEngine = Some pre
       /\ postBuildStepGroups Demo.compiledEngine = Some post
       /\ recipe Demo.compiledEngine = Some rcp'
       /\ skipGroups (engineContext Demo.compiledEngine) = Some sg
       /\ skipActions (engineContext Demo.compiledEngine) = Some sa
       /\ listrTasks Demo.compiledEngine = Some plan
       /\ map parentGroup plan
          = List.filter (groupAppears sg sa) (pre ++ recipeStepGroups rcp' ++ post)
       /\ (forall g, In g (map parentGroup plan) <->
                     In g (pre ++ recipeStepGroups rcp' ++ post)
                     /\ ~ In (groupAlias g) sg
                     /\ exists st, In st (recipeSteps g) /\ ~ In (action st) sa)
       /\ (forall t, In t plan ->
             exists subs,
               runParentTask t Demo.compiledEngine
               = MkRun (Normal subs) Demo.compiledEngine []
               /\ map subStep subs
                  = List.filter (stepIsActive sa) (recipeSteps (parentGroup t))
               /\ forall st, In st (map subStep subs) <->
                             In st (recipeSteps (parentGroup t))
                             /\ ~ In (action st) sa).
Proof.
  split; [reflexivity |].
  exact (compiled_plan_obeys_skip_rules (impl := Demo.demoEngine)
           Demo.demoRecipe JsNull Demo.freshEngine eq_refl).
Defined.

(** The spec's example: groups A and B with B skipped give a plan with
    exactly group A; of A's two steps the one with a skipped action is left
    out. *)
Example demo_plan :
  listrTasks Demo.compiledEngine = Some [MkParentTask "Group A" Demo.groupA]
  /\ compileSubTasks Demo.compiledEngine Demo.groupA
     = Normal [MkSubTask "s1" Demo.s1].
Proof. split; reflexivity. Qed.

(** C2 (counterexample).  The demo recipe holds group C, whose steps list
    is empty and whose alias is in no skip list, and still compiles without
    any error; the plan simply lacks group C. *)
Lemma compile_accepts_recipe_with_empty_group :
  In Demo.groupC (recipeStepGroups Demo.demoRecipe)
  /\ recipeSteps Demo.groupC = []
  /\ skipGroups (engineContext Demo.compiledEngine) = Some ["B"]
  /\ completion (compile Demo.demoRecipe JsNull Demo.freshEngine) = Normal tt
  /\ listrTasks (after (compile Demo.demoRecipe JsNull Demo.freshEngine))
     = Some [MkParentTask "Group A" Demo.groupA].
Proof. repeat split. cbn. tauto. Qed.

Lemma empty_group_is_dropped_from_plan_witness :
  recipeSteps Demo.groupC = []
  /\ compileSubTasks Demo.compiledEngine Demo.groupC
     = Throw (noStepsError Demo.groupC)
  /\ compileParentTasks Demo.compiledEngine [Demo.groupA; Demo.groupC]
     = compileParentTasks Demo.compiledEngine [Demo.groupA].
Proof.
  split; [reflexivity |].
  destruct (empty_group_is_dropped_from_plan Demo.compiledEngine Demo.groupC eq_refl)
    as (H1 & _ & H3).
  split; [exact H1 | exact (H3 ["B"] [Demo.groupA] [] eq_refl)].
Defined.

Lemma compile_initializes_in_order_witness :
  validated Demo.demoRecipe = true
  /\ trace (compile Demo.demoRecipe JsNull Demo.freshEngine) = compileOrder
  /\ initialized (engineContext (after (compile Demo.demoRecipe JsNull Demo.freshEngine)))
     = Some true.
Proof.
  split; [reflexivity |].
  destruct (compile_initializes_in_order_then_validates (impl := Demo.demoEngine)
              Demo.demoRecipe JsNull Demo.freshEngine eq_refl) as (_ & _ & H).
  destruct (H tt eq_refl) as (_ & _ & Hpass).
  destruct (Hpass tt eq_refl) as (_ & _ & _ & Hrun & Hinit).
  split; [now rewrite Hrun | exact Hinit].
Defined.

(** An engine whose registry step leaves the registry undefined fails in
    step eight, before [validateEngine] is reached. *)
Example compile_without_registry_fails_in_step_eight :
  let r := compile (impl := Demo.engineLeavingRegistryUndefined)
                   Demo.demoRecipe JsNull Demo.freshEngine in
  completion r = Throw (typeErrorUndefined "keys")
  /\ trace r = initializationOrder.
Proof. split; reflexivity. Qed.

Lemma executeStep_unknown_action_witness :
    actionExecutorMap Demo.compiledEngine
    = Some {[ "deploy-metadata" := Demo.deployMetadata ]}
    /\ ({[ "deploy-metadata" := Demo.deployMetadata ]} : gmap string AppxEngineAction)
         !! action Demo.s3 = None
    /\ executeStep Demo.s3 (MkListrExec JsNull "s3") Demo.compiledEngine
       = MkRun (Throw (ThrownError (newError
                  "ERROR_UNKNOWN_ACTION: 'no-such-action' is not recognized by the appx:demo-recipe eninge")))
               Demo.compiledEngine [].
Proof.
    split; [reflexivity |]. split; [reflexivity |].
    pose proof (executeStep_unknown_action Demo.compiledEngine Demo.s3
                  (MkListrExec JsNull "s3")
                  {[ "deploy-metadata" := Demo.deployMetadata ]} Demo.demoRecipe) as H.
    specialize (H eq_refl). specialize (H eq_refl). specialize (H eq_refl).
    destruct H as [H _]. exact H.
Defined.

End CompileExamples.

(** ** Result nodes *)

Module ResultFacts.




Section Runs.
Context {Ev : Type}.

(** How [addChild] runs, case by case. *)
Lemma addChild_run child (this : SfdxFalconResult) :
  addChild (Ev := Ev) child this
  = match status child with
    | ERROR =>
        if bubbleError this
        then MkRun (Throw (ThrownResult
                      (withErrObj (errObj child)
                         (withStatus ERROR (pushChild child this)))))
                   (withErrObj (errObj child)
                      (withStatus ERROR (pushChild child this))) []
        else MkRun (Normal tt) (pushChild child this) []
    | FAILURE =>
        if bubbleFailure this
        then MkRun (Throw (ThrownResult (withStatus FAILURE (pushChild child this))))
                   (withStatus FAILURE (pushChild child this)) []
        else MkRun (Normal tt) (pushChild child this) []
    | _ => MkRun (Normal tt) (pushChild child this) []
    end.
Proof.
  unfold addChild, bind, modify, get, raise, ret. cbn.
  destruct (status child); try reflexivity.
  - destruct (bubbleError this); reflexivity.
  - destruct (bubbleFailure this); reflexivity.
Qed.

(** Whatever [addChild] throws is the node itself, as it then is. *)
Lemma addChild_throws_this child (this : SfdxFalconResult) t :
  completion (addChild (Ev := Ev) child this) = Throw t ->
  t = ThrownResult (after (addChild (Ev := Ev) child this)).
Proof.
  rewrite addChild_run.
  destruct (status child); cbn; try discriminate.
  - destruct (bubbleError this); cbn; [congruence | discriminate].
  - destruct (bubbleFailure this); cbn; [congruence | discriminate].
Qed.

Lemma addChild_children child (this : SfdxFalconResult) :
  children (after (addChild (Ev := Ev) child this)) = children this ++ [child].
Proof.
  rewrite addChild_run.
  destruct (status child); try reflexivity.
  - destruct (bubbleError this); reflexivity.
  - destruct (bubbleFailure this); reflexivity.
Qed.


Lemma addChild_trace child (this : SfdxFalconResult) :
  trace (addChild (Ev := Ev) child this) = [].
Proof.
  rewrite addChild_run.
  destruct (status child); try reflexivity.
  - destruct (bubbleError this); reflexivity.
  - destruct (bubbleFailure this); reflexivity.
Qed.

(** A node that bubbles nothing takes any child without a change of status
    and without throwing. *)
Lemma addChild_no_bubbling child (this : SfdxFalconResult) :
  bubbleError this = false -> bubbleFailure this = false ->
  addChild (Ev := Ev) child this = MkRun (Normal tt) (pushChild child this) [].
Proof.
  intros He Hf. rewrite addChild_run, He, Hf.
  now destruct (status child).
Qed.

Lemma finish_run s (this : SfdxFalconResult) :
  finish (Ev := Ev) s this
  = if isTerminal (status this)
    then MkRun (Throw (ThrownError doubleFinalization)) this []
    else MkRun (Normal tt) (withStatus s this) [].
Proof.
  unfold finish, bind, get, raise, modify. cbn.
  now destruct (isTerminal (status this)).
Qed.

Lemma success_run d (this : SfdxFalconResult) :
  success (Ev := Ev) d this
  = if isTerminal (status this)
    then MkRun (Throw (ThrownError doubleFinalization)) this []
    else MkRun (Normal tt)
               (match d with
                | Some d' => withDetail d' (withStatus SUCCESS this)
                | None => withStatus SUCCESS this
                end) [].
Proof.
  unfold success, bind. rewrite finish_run.
  destruct (isTerminal (status this)); cbn; [reflexivity |].
  now destruct d.
Qed.

Lemma error_run e (this : SfdxFalconResult) :
  error (Ev := Ev) e this
  = if isTerminal (status this)
    then MkRun (Throw (ThrownError doubleFinalization)) this []
    else MkRun (Normal tt) (withErrObj e (withStatus ERROR this)) [].
Proof.
  unfold error, bind. rewrite finish_run.
  now destruct (isTerminal (status this)).
Qed.

(** [throw] on a node that is not terminal marks it ERROR and throws it; on
    a terminal node the transition fails and the node is left as it is. *)
Lemma throw_run {A} e (this : SfdxFalconResult) :
  throw (Ev := Ev) (A := A) e this
  = if isTerminal (status this)
    then MkRun (Throw (ThrownError doubleFinalization)) this []
    else MkRun (Throw (ThrownResult
                         (withErrObj (Some (ErrError e)) (withStatus ERROR this))))
               (withErrObj (Some (ErrError e)) (withStatus ERROR this)) [].
Proof.
  unfold throw, bind. rewrite error_run.
  now destruct (isTerminal (status this)).
Qed.

End Runs.

End ResultFacts.

(** ** Execution *)

Module ExecutionFacts.
Import AppxRecipeEngine ResultFacts EffFacts.

(** How the engine's [onError] runs. *)
Lemma engine_onError_run {A} listrError this :
  onError (A := A) listrError this
  = if validate listrError ENGINE ERROR
    then MkRun (Throw (ThrownResult (falconEngineResult this))) this []
    else if isTerminal (status (falconEngineResult this))
    then MkRun (Throw (ThrownError doubleFinalization)) this []
    else MkRun
           (Throw (ThrownResult
              (withErrObj
                 (Some (ErrError (unexpectedListrResult (name (falconEngineResult this)))))
                 (withStatus ERROR (falconEngineResult this)))))
           (setResult
              (withErrObj
                 (Some (ErrError (unexpectedListrResult (name (falconEngineResult this)))))
                 (withStatus ERROR (falconEngineResult this)))
              this) [].
Proof.
  unfold onError. unfold bind at 1.
  destruct (validate listrError ENGINE ERROR); cbn [negb].
  - reflexivity.
  - unfold bind, get, onResult. cbn [completion after trace].
    rewrite throw_run.
    destruct this as [m l r res d pre post ctx]. cbn.
    destruct (isTerminal (status res)); reflexivity.
Qed.

(** What the engine's [onError] throws is always the engine's own result,
    as it then is, or the error of a refused second finalization. *)
Lemma engine_onError_throws {A} listrError this :
  completion (onError (A := A) listrError this)
  = Throw (ThrownResult (falconEngineResult (after (onError (A := A) listrError this))))
  \/ completion (onError (A := A) listrError this)
     = Throw (ThrownError doubleFinalization).
Proof.
  rewrite engine_onError_run.
  destruct (validate listrError ENGINE ERROR); [now left |].
  destruct (isTerminal (status (falconEngineResult this))); [now right | now left].
Qed.

Lemma engine_onError_always_throws {A} listrError this :
  exists t, completion (onError (A := A) listrError this) = Throw t.
Proof. destruct (engine_onError_throws (A := A) listrError this); eauto. Qed.

Lemma engine_onError_trace {A} listrError this :
  trace (onError (A := A) listrError this) = [].
Proof.
  rewrite engine_onError_run.
  destruct (validate listrError ENGINE ERROR); [reflexivity |].
  now destruct (isTerminal (status (falconEngineResult this))).
Qed.

Lemma engine_onSuccess_run listrCtx this :
  onSuccess listrCtx this
  = if isTerminal (status (falconEngineResult this))
    then MkRun (Throw (ThrownError doubleFinalization)) this []
    else MkRun (Normal tt)
               (setResult (withStatus SUCCESS (falconEngineResult this)) this) [].
Proof.
  unfold onSuccess, onResult. rewrite success_run.
  destruct this as [m l r res d pre post ctx]. cbn.
  destruct (isTerminal (status res)); reflexivity.
Qed.

Section WithImpl.
Context `{impl : AppxRecipeEngineImpl}.

Lemma engine_execute_not_compiled opts this :
  listrTasks this = None ->
  execute opts this = MkRun (Throw recipeNotCompiledError) this [].
Proof.
  intros H. unfold execute, bind, get. cbn. now rewrite H.
Qed.

(** The part of the engine's [execute] behind its guard. *)
Definition executeCompiled (opts : JsValue) : EngineM SfdxFalconResult :=
  (startExecution ;;
   tryCatch
     (listrCtx <- call CallExecuteEngine (executeEngine opts) ;;
      onSuccess listrCtx)
     (fun listrError => onError listrError) ;;
   endExecution ;;
   this' <- get ;;
   ret (falconEngineResult this'))%eff.

Lemma engine_execute_compiled opts this tasks :
  listrTasks this = Some tasks ->
  execute opts this = executeCompiled opts this.
Proof.
  intros H. unfold execute. unfold bind at 1.
  cbn [get completion after trace]. rewrite H. cbn [isNone app].
  fold (executeCompiled opts).
  now destruct (executeCompiled opts this).
Qed.



End WithImpl.

End ExecutionFacts.

(** ** Execution of a recipe *)

Module RecipeFacts.
Import SfdxFalconRecipe ResultFacts EffFacts.

Lemma recipe_onError_run {A} engineError this :
  onError (A := A) engineError this
  = let child := wrapRejectedPromise engineError "EngineResult (REJECTED)" ENGINE in
    let added := addChild (Ev := Call) child (_falconRecipeResult this) in
    MkRun (Throw (ThrownResult (after added)))
          (setRecipeResult (after added) this) [].
Proof.
  cbv zeta. unfold onError, bind, onRecipeResult, get, raise.
  cbn [completion after trace].
  rewrite addChild_run.
  destruct (status (wrapRejectedPromise engineError "EngineResult (REJECTED)" ENGINE));
    cbn; try reflexivity.
  - destruct (bubbleError (_falconRecipeResult this)); reflexivity.
  - destruct (bubbleFailure (_falconRecipeResult this)); reflexivity.
Qed.


Section WithDeps.
Context `{deps : RecipeDeps}.

Lemma recipe_execute_not_compiled opts this :
  _compiled this <> Some true ->
  execute opts this = MkRun (Throw recipeNotCompiledError) this [].
Proof.
  intros H. unfold execute, bind, get. cbn.
  destruct (_compiled this) as [[|]|]; try reflexivity. congruence.
Qed.

(** The part of the recipe's [execute] behind its guard, for the engine the
    recipe holds. *)
Definition executeWith (engine : AppxRecipeEngine.Engine) (opts : JsValue)
  : RecipeM SfdxFalconResult :=
  (tryCatch
     (engineSuccessResponse <- engineExecute engine opts ;;
      onSuccess engineSuccessResponse)
     (fun engineFailureResponse => onError engineFailureResponse) ;;
   renderSuccessMessage ;;
   this' <- get ;;
   ret (_falconRecipeResult this'))%eff.

Lemma recipe_execute_compiled opts this engine :
  _compiled this = Some true -> _recipeEngine this = Some engine ->
  execute opts this = executeWith engine opts this.
Proof.
  intros Hc He. unfold execute. unfold bind at 1.
  cbn [get completion after trace]. rewrite Hc, He. cbn [isTrue negb app].
  fold (executeWith engine opts).
  now destruct (executeWith engine opts this).
Qed.


End WithDeps.

End RecipeFacts.

(** ** Claims about execution *)

Module ExecutionClaims.
Import ResultFacts EffFacts ExecutionFacts RecipeFacts.


(** C8.  [execute] before a successful [compile] fails with the
    ERROR_RECIPE_NOT_COMPILED error and does nothing else: the recipe's
    [execute] when its compiled flag is not true, the engine's [execute]
    when no task plan has been compiled; in both cases the object is left as
    it was and no call is made, neither pre-execution work nor the run of
    any step.  A recipe just read and an engine just constructed are in that
    state. *)
Theorem execute_before_compile_fails :
  (forall (deps : SfdxFalconRecipe.RecipeDeps) opts this,
      SfdxFalconRecipe._compiled this <> Some true ->
      SfdxFalconRecipe.execute opts this
      = MkRun (Throw SfdxFalconRecipe.recipeNotCompiledError) this [])
  /\ (forall (impl : AppxRecipeEngine.AppxRecipeEngineImpl) opts this,
        AppxRecipeEngine.listrTasks this = None ->
        AppxRecipeEngine.execute opts this
        = MkRun (Throw AppxRecipeEngine.recipeNotCompiledError) this [])
  /\ (exists msg, SfdxFalconRecipe.recipeNotCompiledError = ThrownError (newError msg)
                  /\ startsWith "ERROR_RECIPE_NOT_COMPILED: " msg = true)
  /\ (exists msg, AppxRecipeEngine.recipeNotCompiledError = ThrownError (newError msg)
                  /\ startsWith "ERROR_RECIPE_NOT_COMPILED: " msg = true)
  /\ (forall (deps : SfdxFalconRecipe.RecipeDeps) project loaded this,
        SfdxFalconRecipe.read project loaded = Normal this ->
        SfdxFalconRecipe._compiled this = None)
  /\ (forall engineName recipeName,
        AppxRecipeEngine.listrTasks (AppxRecipeEngine.constructor engineName recipeName)
        = None).
Proof.
  split; [| split; [| split; [| split; [| split]]]].
  - intros deps opts this. apply recipe_execute_not_compiled.
  - intros impl opts this. apply engine_execute_not_compiled.
  - eexists. split; reflexivity.
  - eexists. split; reflexivity.
  - intros deps project loaded this. unfold SfdxFalconRecipe.read.
    destruct loaded as [json|]; [| discriminate].
    destruct (SfdxFalconRecipe.validate json); [| discriminate].
    intros [= <-]. reflexivity.
  - reflexivity.
Qed.

End ExecutionClaims.

(** ** Execution on the demo recipe *)

Module ExecutionExamples.
Import Demo ExecutionClaims.

Example read_demo :
  SfdxFalconRecipe.read demoProject (Normal demoJson) = Normal freshRecipe.
Proof. reflexivity. Qed.


Example demo_failure_shape :
  exists recipeResult engineResult,
    completion (SfdxFalconRecipe.execute JsNull compiledRecipe)
    = Throw (ThrownResult recipeResult)
    /\ type recipeResult = RECIPE /\ status recipeResult = ERROR
    /\ children recipeResult = [engineResult]
    /\ type engineResult = ENGINE /\ status engineResult = ERROR
    /\ errObj engineResult
       = Some (ErrError (MkError "SfdxFalconError"
           "ERROR_UNEXPECTED_LISTR_RESULT: Engine AppxDemoConfigEngine:Demo got an unexpected result from listr.run()")).
Proof. do 2 eexists. vm_compute. repeat split. Qed.


Lemma execute_before_compile_fails_witness :
  SfdxFalconRecipe._compiled freshRecipe <> Some true
  /\ SfdxFalconRecipe.execute JsNull freshRecipe
     = MkRun (Throw SfdxFalconRecipe.recipeNotCompiledError) freshRecipe []
  /\ AppxRecipeEngine.listrTasks freshEngine = None
  /\ AppxRecipeEngine.execute JsNull freshEngine
     = MkRun (Throw AppxRecipeEngine.recipeNotCompiledError) freshEngine [].
Proof.
  destruct execute_before_compile_fails as (Hr & He & _).
  assert (Hn : SfdxFalconRecipe._compiled freshRecipe <> Some true) by discriminate.
  split; [exact Hn |]. split; [exact (Hr demoDeps JsNull freshRecipe Hn) |].
  split; [reflexivity | exact (He demoEngine JsNull freshEngine eq_refl)].
Defined.

End ExecutionExamples.

(** ** Claims about validation at read time *)

Module ValidationClaims.
Import AppxRecipeEngine Spec JsFacts.

Lemma invalidConfigKeys_missingKeys r :
  SfdxFalconRecipe.invalidConfigKeys r = missingKeys r.
Proof.
  unfold SfdxFalconRecipe.invalidConfigKeys, missingKeys, requiredKeys,
    SfdxFalconRecipe.pushUnless.
  cbn [List.filter map fst snd].
  destruct (truthy (SfdxFalconRecipe.recipeName r));
  destruct (truthy (SfdxFalconRecipe.description r));
  destruct (truthy (SfdxFalconRecipe.recipeType r));
  destruct (truthy (SfdxFalconRecipe.recipeVersion r));
  destruct (truthy (SfdxFalconRecipe.schemaVersion r));
  destruct (truthy (SfdxFalconRecipe.options r));
  destruct (truthy (SfdxFalconRecipe.recipeStepGroups r));
  destruct (truthy (SfdxFalconRecipe.handlers r)); reflexivity.
Qed.

Lemma missingKeys_In r k :
  In k (missingKeys r) <->
  exists v, In (k, v) (requiredKeys r) /\ truthy v = false.
Proof.
  unfold missingKeys. rewrite in_map_iff. split.
  - intros [[k' v] [<- H]]. apply filter_In in H as [H1 H2].
    exists v. split; [exact H1 | now apply negb_true_iff].
  - intros [v [H1 H2]]. exists (k, v). split; [reflexivity |].
    apply filter_In. split; [exact H1 | now apply negb_true_iff].
Qed.

Lemma validateTopLevelProperties_run r :
  SfdxFalconRecipe.validateTopLevelProperties r
  = match missingKeys r with
    | [] => Normal tt
    | _ :: _ => Throw (SfdxFalconRecipe.invalidSettingsError (missingKeys r))
    end.
Proof.
  unfold SfdxFalconRecipe.validateTopLevelProperties.
  rewrite invalidConfigKeys_missingKeys.
  now destruct (missingKeys r).
Qed.

(** C5.  Top-level validation looks at all eight required keys in one pass:
    the keys it collects are exactly the required keys whose value is missing
    or empty (falsy: undefined, null, the empty string, 0, false), in their
    fixed order.  If there is none it passes; otherwise it throws one
    ERROR_INVALID_RECIPE error whose message lists every such key, joined by
    commas.  In particular [read] of a recipe without [options] and
    [handlers] fails with that one error, and both keys are in its list. *)
Theorem top_level_validation_names_every_missing_key :
  (forall r,
      SfdxFalconRecipe.invalidConfigKeys r = missingKeys r
      /\ (forall k, In k (missingKeys r) <->
                    exists v, In (k, v) (requiredKeys r) /\ truthy v = false)
      /\ (missingKeys r = [] ->
          SfdxFalconRecipe.validateTopLevelProperties r = Normal tt)
      /\ (missingKeys r <> [] ->
          SfdxFalconRecipe.validateTopLevelProperties r
          = Throw (ThrownError (newError
              ("ERROR_INVALID_RECIPE: The selected recipe has missing/invalid settings ("
               ++ arrayToString (missingKeys r) ++ ").")))
          /\ isInvalidRecipe (SfdxFalconRecipe.invalidSettingsError (missingKeys r))))
  /\ (forall (deps : SfdxFalconRecipe.RecipeDeps) project r,
        SfdxFalconRecipe.options r = JsUndefined ->
        SfdxFalconRecipe.handlers r = JsUndefined ->
        SfdxFalconRecipe.read project (Normal r)
        = Throw (SfdxFalconRecipe.invalidSettingsError (missingKeys r))
        /\ In "options" (missingKeys r) /\ In "handlers" (missingKeys r)).
Proof.
  split.
  - intros r. split; [apply invalidConfigKeys_missingKeys |].
    split; [apply missingKeys_In |].
    rewrite validateTopLevelProperties_run. split.
    + now intros ->.
    + intros H. destruct (missingKeys r) as [|k ks]; [congruence |].
      split; [reflexivity |]. eexists. split; reflexivity.
  - intros deps project r Ho Hh.
    assert (Hin : In "options" (missingKeys r) /\ In "handlers" (missingKeys r)).
    { split; apply missingKeys_In; exists JsUndefined; (split; [| reflexivity]);
        unfold requiredKeys; rewrite ?Ho, ?Hh; cbn; tauto. }
    split; [| exact Hin].
    unfold SfdxFalconRecipe.read, SfdxFalconRecipe.validate.
    rewrite validateTopLevelProperties_run.
    destruct (missingKeys r) as [|k ks]; [destruct Hin as [[] _] | reflexivity].
Qed.

Lemma nonEmptyString_dec v : notNonEmptyString v = false <-> nonEmptyString v.
Proof. apply notNonEmptyString_false. Qed.

(** [validateTargetOrg] on the members it reads of an object: it accepts
    them exactly when [orgName], [alias] and [description] are non-empty
    strings, [isScratchOrg] is a boolean, [scratchDefJson] is a non-empty
    string whenever [isScratchOrg] is true, and [orgReqsJson] is a non-empty
    string whenever [isScratchOrg] is false; in every other case it throws
    an ERROR_INVALID_RECIPE error. *)
Theorem validateTargetOrg_accepts_exactly_valid_orgs org :
  (validateTargetOrg org = Normal tt <-> targetOrgIsValid org)
  /\ (~ targetOrgIsValid org ->
      exists t, validateTargetOrg org = Throw t /\ isInvalidRecipe t).
Proof.
  assert (Hcases : (validateTargetOrg org = Normal tt /\ targetOrgIsValid org)
                   \/ (~ targetOrgIsValid org
                       /\ exists t, validateTargetOrg org = Throw t /\ isInvalidRecipe t)).
  { unfold validateTargetOrg, targetOrgIsValid.
    destruct (notNonEmptyString (orgName org)) eqn:H1.
    { right. split.
      - intros (H & _). apply nonEmptyString_dec in H. congruence.
      - eexists. split; [reflexivity |]. eexists. split; reflexivity. }
    destruct (notNonEmptyString (alias org)) eqn:H2.
    { right. split.
      - intros (_ & H & _). apply nonEmptyString_dec in H. congruence.
      - eexists. split; [reflexivity |]. eexists. split; reflexivity. }
    destruct (notNonEmptyString (description org)) eqn:H3.
    { right. split.
      - intros (_ & _ & H & _). apply nonEmptyString_dec in H. congruence.
      - eexists. split; [reflexivity |]. eexists. split; reflexivity. }
    apply nonEmptyString_dec in H1, H2, H3.
    destruct (String.eqb (typeof (isScratchOrg org)) "boolean") eqn:H4; cbn [negb].
    2:{ right. split.
        - intros (_ & _ & _ & H & _). apply typeof_boolean in H. congruence.
        - eexists. split; [reflexivity |]. eexists. split; reflexivity. }
    apply typeof_boolean in H4 as [b Hb]. rewrite Hb. cbn [isBool].
    destruct b; cbn [Bool.eqb andb].
    - destruct (notNonEmptyString (scratchDefJson org)) eqn:H5.
      + right. split.
        * intros (_ & _ & _ & _ & H & _). specialize (H eq_refl).
          apply nonEmptyString_dec in H. congruence.
        * eexists. split; [reflexivity |]. eexists. split; reflexivity.
      + left. split; [reflexivity |].
        apply nonEmptyString_dec in H5.
        split; [assumption |]. split; [assumption |]. split; [assumption |].
        split; [now exists true |].
        split; intros Hs; (assumption || discriminate Hs).
    - destruct (notNonEmptyString (orgReqsJson org)) eqn:H6.
      + right. split.
        * intros (_ & _ & _ & _ & _ & H). specialize (H eq_refl).
          apply nonEmptyString_dec in H. congruence.
        * eexists. split; [reflexivity |]. eexists. split; reflexivity.
      + left. split; [reflexivity |].
        apply nonEmptyString_dec in H6.
        split; [assumption |]. split; [assumption |]. split; [assumption |].
        split; [now exists false |].
        split; intros Hs; (assumption || discriminate Hs). }
  split.
  - split.
    + intros H. destruct Hcases as [[_ Hv] | [_ (t & Ht & _)]]; [exact Hv | congruence].
    + intros H. destruct Hcases as [[Hn _] | [Hn _]]; [exact Hn | contradiction].
  - intros H. destruct Hcases as [[_ Hv] | [_ Ht]]; [contradiction | exact Ht].
Qed.

Lemma validateTargetOrgEntry_object v :
  v <> JsUndefined -> v <> JsNull ->
  AppxRecipeValidation.validateTargetOrgEntry v
  = validateTargetOrg (AppxRecipeValidation.asTargetOrg v).
Proof. intros H1 H2. destruct v; try reflexivity; congruence. Qed.

Lemma typeError_not_invalidRecipe msg :
  ~ isInvalidRecipe (ThrownError (newTypeError msg)).
Proof. intros (msg' & H & _). discriminate H. Qed.

(** C9 (what the code does).  An entry of [options.targetOrgs] is accepted
    exactly when it is an object (neither [undefined] nor [null]) whose
    [orgName], [alias] and [description] are non-empty strings, whose
    [isScratchOrg] is a boolean, whose [scratchDefJson] is a non-empty
    string whenever [isScratchOrg] is true, and whose [orgReqsJson] is a
    non-empty string whenever [isScratchOrg] is false.  Every other entry
    that is an object is rejected with an ERROR_INVALID_RECIPE error; an
    entry that is [undefined] or [null] is rejected with a TypeError, which
    is not an ERROR_INVALID_RECIPE error. *)
Theorem validateTargetOrgEntry_accepts_exactly_valid_entries v :
  (AppxRecipeValidation.validateTargetOrgEntry v = Normal tt
   <-> v <> JsUndefined /\ v <> JsNull
       /\ targetOrgIsValid (AppxRecipeValidation.asTargetOrg v))
  /\ (v <> JsUndefined -> v <> JsNull ->
      ~ targetOrgIsValid (AppxRecipeValidation.asTargetOrg v) ->
      exists t, AppxRecipeValidation.validateTargetOrgEntry v = Throw t
                /\ isInvalidRecipe t)
  /\ (v = JsUndefined ->
      AppxRecipeValidation.validateTargetOrgEntry v
      = Throw (ThrownError (newTypeError "Cannot read property 'orgName' of undefined"))
      /\ ~ isInvalidRecipe
            (ThrownError (newTypeError "Cannot read property 'orgName' of undefined")))
  /\ (v = JsNull ->
      AppxRecipeValidation.validateTargetOrgEntry v
      = Throw (ThrownError (newTypeError "Cannot read property 'orgName' of null"))
      /\ ~ isInvalidRecipe
            (ThrownError (newTypeError "Cannot read property 'orgName' of null"))).
Proof.
  split; [| split; [| split]].
  - split.
    + intros H.
      assert (Hu : v <> JsUndefined) by (intros ->; discriminate H).
      assert (Hn : v <> JsNull) by (intros ->; discriminate H).
      split; [exact Hu |]. split; [exact Hn |].
      rewrite (validateTargetOrgEntry_object v Hu Hn) in H.
      now apply validateTargetOrg_accepts_exactly_valid_orgs.
    + intros (Hu & Hn & Hv).
      rewrite (validateTargetOrgEntry_object v Hu Hn).
      now apply validateTargetOrg_accepts_exactly_valid_orgs.
  - intros Hu Hn Hv. rewrite (validateTargetOrgEntry_object v Hu Hn).
    now apply validateTargetOrg_accepts_exactly_valid_orgs.
  - intros ->. split; [reflexivity | apply typeError_not_invalidRecipe].
  - intros ->. split; [reflexivity | apply typeError_not_invalidRecipe].
Qed.

End ValidationClaims.

(** ** Validation on the demo recipe *)

Module ValidationExamples.
Import AppxRecipeEngine Demo Spec ValidationClaims.

(** The demo recipe without [options] and [handlers]. *)
Lemma top_level_validation_witness :
  SfdxFalconRecipe.options Demo.jsonWithoutOptionsAndHandlers = JsUndefined
  /\ SfdxFalconRecipe.handlers Demo.jsonWithoutOptionsAndHandlers = JsUndefined
  /\ SfdxFalconRecipe.read demoProject (Normal Demo.jsonWithoutOptionsAndHandlers)
     = Throw (ThrownError (newError
         "ERROR_INVALID_RECIPE: The selected recipe has missing/invalid settings (options,handlers)."))
  /\ In "options" (missingKeys Demo.jsonWithoutOptionsAndHandlers)
  /\ In "handlers" (missingKeys Demo.jsonWithoutOptionsAndHandlers).
Proof.
  destruct top_level_validation_names_every_missing_key as [_ H].
  destruct (H demoDeps demoProject Demo.jsonWithoutOptionsAndHandlers eq_refl eq_refl)
    as (Hread & Ho & Hh).
  split; [reflexivity |]. split; [reflexivity |].
  split; [exact Hread |]. split; [exact Ho | exact Hh].
Defined.

(** An empty array or object is not "empty" for the top-level check: the
    demo recipe, whose [options] is the empty object and whose
    [recipeStepGroups] and [handlers] are empty arrays, passes it. *)
Example empty_arrays_pass_top_level_validation :
  SfdxFalconRecipe.validateTopLevelProperties demoJson = Normal tt.
Proof. reflexivity. Qed.

Lemma validateTargetOrg_witness :
  validateTargetOrg demoOrg = Normal tt /\ targetOrgIsValid demoOrg.
Proof.
  assert (H : validateTargetOrg demoOrg = Normal tt) by reflexivity.
  split; [exact H |].
  exact (proj1 (proj1 (validateTargetOrg_accepts_exactly_valid_orgs demoOrg)) H).
Defined.

(** The demo org as it stands in a recipe file. *)
Lemma validateTargetOrgEntry_witness :
  AppxRecipeValidation.validateTargetOrgEntry Demo.demoOrgJson = Normal tt
  /\ targetOrgIsValid (AppxRecipeValidation.asTargetOrg Demo.demoOrgJson).
Proof.
  assert (H : AppxRecipeValidation.validateTargetOrgEntry Demo.demoOrgJson = Normal tt)
    by reflexivity.
  split; [exact H |].
  destruct (proj1 (proj1 (validateTargetOrgEntry_accepts_exactly_valid_entries
                            Demo.demoOrgJson)) H) as (_ & _ & Hv).
  exact Hv.
Defined.

(** C9 (counterexample).  A recipe file with all eight top-level keys whose
    only target org is [null] passes the top-level check and is then
    rejected by the schema check with a TypeError, not with an
    ERROR_INVALID_RECIPE error. *)
Lemma null_target_org_raises_type_error :
  AppxRecipeValidation.validateTargetOrgEntry JsNull
  = Throw (ThrownError (newTypeError "Cannot read property 'orgName' of null"))
  /\ SfdxFalconRecipe.validateTopLevelProperties Demo.jsonWithNullTargetOrg = Normal tt
  /\ AppxRecipeValidation.validateOuterRecipe Demo.jsonWithNullTargetOrg
     = Throw (ThrownError (newTypeError "Cannot read property 'orgName' of null"))
  /\ (forall msg,
        ThrownError (newTypeError "Cannot read property 'orgName' of null")
        <> ThrownError (newError msg)).
Proof.
  split; [reflexivity |]. split; [reflexivity |]. split; [reflexivity |].
  intros msg. discriminate.
Qed.

End ValidationExamples.

(** ** Claims about the command layer *)

Module CommandClaims.
Import SfdxFalconCommand ResultFacts EffFacts.

Definition commandNameOrDefault (cmdName : option string) : string :=
  match cmdName with Some n => n | None => "UNSPECIFIED_FALCON_COMMAND" end.

Section WithDeps.
Context `{deps : CommandDeps}.

(** What [sfdxFalconCommandInit] leaves as the COMMAND result: nothing new
    when [JSON.parse] throws on the extended options, and otherwise the one
    result it constructs, whether or not a path check throws afterwards. *)
Lemma sfdxFalconCommandInit_result cmdName cmdType this :
  falconCommandResult (after (sfdxFalconCommandInit cmdName cmdType this))
  = match jsonParse (orString (Types.extendedOptions (flags this)) "{}") with
    | Throw _ => falconCommandResult this
    | Normal _ =>
        Some (create (commandNameOrDefault cmdName) COMMAND true false false)
    end.
Proof.
  unfold sfdxFalconCommandInit, bind, get, modify, lift, emit, raise, ret.
  cbn [completion after trace flags args].
  destruct (jsonParse _); cbn [completion after trace]; [| reflexivity].
  destruct (validateLocalPath _); cbn; [| reflexivity].
  destruct (validateLocalPath _); cbn; [| reflexivity].
  destruct (validateLocalPath _); cbn; reflexivity.
Qed.

End WithDeps.

Lemma command_onError_run rejected this res d :
  falconCommandResult this = Some res ->
  falconCommandResultDetail this = Some d ->
  bubbleError res = false -> bubbleFailure res = false ->
  isTerminal (status res) = false ->
  let rejectedResult :=
    wrapRejectedPromise rejected "Promise Returned (REJECTED)" UNKNOWN in
  let res' :=
    withErrObj (errObj rejectedResult)
      (withStatus ERROR
         (pushChild rejectedResult (withDetail (DetailCommand (withExitCode 1 d)) res))) in
  onError rejected this
  = MkRun (Normal tt)
          (setCommandResult res' (setCommandDetail (withExitCode 1 d) this))
          (if falconDebugErrorFlag this
           then [CallDisplayResult; CallTerminateWithError]
           else [CallTerminateWithError]).
Proof.
  intros Hres Hd Hbe Hbf Hterm. cbv zeta.
  destruct this; cbn in Hres, Hd. subst.
  unfold onError, onCommandResult, setDetail, error, finish, displayResult,
    terminateWithError, bind, get, modify, emit, raise, ret.
  cbn [completion after trace falconCommandResultDetail falconCommandResult
       setCommandDetail setCommandResult falconDebugErrorFlag].
  rewrite addChild_no_bubbling by assumption.
  cbn [completion after trace falconCommandResultDetail falconCommandResult
       setCommandDetail setCommandResult falconDebugErrorFlag
       pushChild withDetail status].
  rewrite Hterm.
  cbn [completion after trace falconCommandResultDetail falconCommandResult
       setCommandDetail setCommandResult falconDebugErrorFlag app].
  destruct falconDebugErrorFlag0; reflexivity.
Qed.

Lemma command_onSuccess_run child this res :
  falconCommandResult this = Some res ->
  bubbleError res = false -> bubbleFailure res = false ->
  isTerminal (status res) = false ->
  let res' :=
    match falconCommandResultDetail this with
    | Some d => withDetail (DetailCommand d) (withStatus SUCCESS (pushChild child res))
    | None => withStatus SUCCESS (pushChild child res)
    end in
  onSuccess child this
  = MkRun (Normal tt) (setCommandResult res' this)
          (if falconDebugSuccessFlag this then [CallDisplayResult] else []).
Proof.
  intros Hres Hbe Hbf Hterm. cbv zeta.
  destruct this; cbn in Hres. subst.
  unfold onSuccess, onCommandResult, success, finish, displayResult,
    bind, get, modify, emit, raise, ret.
  cbn [completion after trace falconCommandResultDetail falconCommandResult
       setCommandResult falconDebugSuccessFlag].
  rewrite addChild_no_bubbling by assumption.
  cbn [completion after trace falconCommandResultDetail falconCommandResult
       setCommandResult falconDebugSuccessFlag pushChild status].
  rewrite Hterm.
  destruct falconCommandResultDetail0, falconDebugSuccessFlag0; reflexivity.
Qed.

(** C10.  The COMMAND result is only ever constructed by
    [sfdxFalconCommandInit], started, with [bubbleError] and [bubbleFailure]
    false.  A result with both flags false takes any child, also one in
    ERROR or FAILURE status, without throwing and without a change of
    status.  The command layer finalizes the result itself: [onError] wraps
    the rejected value into a result, sets the exit code of the detail to 1,
    stores the detail, adds the wrapped result as a child, marks the COMMAND
    result ERROR with the wrapped result's error and terminates with error;
    [onSuccess] adds the result as a child and marks the COMMAND result
    SUCCESS. *)
Theorem command_result_is_finalized_by_the_command :
  (forall (deps : CommandDeps) cmdName cmdType this,
      falconCommandResult (after (sfdxFalconCommandInit cmdName cmdType this))
      = falconCommandResult this
      \/ exists n res,
           falconCommandResult (after (sfdxFalconCommandInit cmdName cmdType this))
           = Some res
           /\ res = create n COMMAND true false false
           /\ type res = COMMAND /\ status res = RUNNING
           /\ bubbleError res = false /\ bubbleFailure res = false)
  /\ (forall (res child : SfdxFalconResult),
        bubbleError res = false -> bubbleFailure res = false ->
        addChild (Ev := Call) child res = MkRun (Normal tt) (pushChild child res) []
        /\ status (pushChild child res) = status res)
  /\ (forall rejected this res d,
        falconCommandResult this = Some res ->
        falconCommandResultDetail this = Some d ->
        bubbleError res = false -> bubbleFailure res = false ->
        isTerminal (status res) = false ->
        let rejectedResult :=
          wrapRejectedPromise rejected "Promise Returned (REJECTED)" UNKNOWN in
        let r := onError rejected this in
        completion r = Normal tt
        /\ In CallTerminateWithError (trace r)
        /\ (exists d', falconCommandResultDetail (after r) = Some d'
                       /\ commandExitCode d' = 1%Z)
        /\ exists res',
             falconCommandResult (after r) = Some res'
             /\ status res' = ERROR
             /\ errObj res' = errObj rejectedResult
             /\ detail res' = DetailCommand (withExitCode 1 d)
             /\ children res' = children res ++ [rejectedResult])
  /\ (forall child this res,
        falconCommandResult this = Some res ->
        bubbleError res = false -> bubbleFailure res = false ->
        isTerminal (status res) = false ->
        let r := onSuccess child this in
        completion r = Normal tt
        /\ exists res',
             falconCommandResult (after r) = Some res'
             /\ status res' = SUCCESS
             /\ children res' = children res ++ [child]).
Proof.
  split; [| split; [| split]].
  - intros deps cmdName cmdType this. rewrite sfdxFalconCommandInit_result.
    destruct (jsonParse _); [right | now left].
    exists (commandNameOrDefault cmdName). eexists. repeat split.
  - intros res child Hbe Hbf. split; [now apply addChild_no_bubbling | reflexivity].
  - intros rejected this res d Hres Hd Hbe Hbf Hterm. cbv zeta.
    rewrite (command_onError_run rejected this res d Hres Hd Hbe Hbf Hterm).
    cbn [completion after trace]. split; [reflexivity |]. split.
    { destruct (falconDebugErrorFlag this); cbn; tauto. }
    split.
    { exists (withExitCode 1 d). split; reflexivity. }
    eexists. split; [reflexivity |]. repeat split.
  - intros child this res Hres Hbe Hbf Hterm. cbv zeta.
    rewrite (command_onSuccess_run child this res Hres Hbe Hbf Hterm).
    cbn [completion after trace]. split; [reflexivity |].
    eexists. split; [reflexivity |].
    destruct (falconCommandResultDetail this); split; reflexivity.
Qed.

End CommandClaims.

(** ** The command layer on the demo command *)

Module CommandExamples.
Import SfdxFalconCommand Demo CommandClaims.

Example initialized_command :
  falconCommandResult initializedCommand
  = Some (create "falcon:demo:clone" COMMAND true false false)
  /\ falconCommandResultDetail initializedCommand
     = Some (MkCommandDetail "falcon:demo:clone" CT_APPX_PACKAGE demoFlags demoArgs 0
                             ["FALCON"; "ENGINE"; "FALCON_ERROR"]).
Proof. split; reflexivity. Qed.

(** The initialised demo command, given a plain error. *)
Lemma command_result_is_finalized_witness :
  let r := onError (ThrownError (newError "clone failed")) initializedCommand in
  completion r = Normal tt
  /\ In CallTerminateWithError (trace r)
  /\ (exists d', falconCommandResultDetail (after r) = Some d'
                 /\ commandExitCode d' = 1%Z)
  /\ exists res',
       falconCommandResult (after r) = Some res'
       /\ status res' = ERROR
       /\ errObj res' = Some (ErrError (newError "clone failed"))
       /\ detail res'
          = DetailCommand (MkCommandDetail "falcon:demo:clone" CT_APPX_PACKAGE
                             demoFlags demoArgs 1 ["FALCON"; "ENGINE"; "FALCON_ERROR"])
       /\ children res'
          = [wrapRejectedPromise (ThrownError (newError "clone failed"))
               "Promise Returned (REJECTED)" UNKNOWN].
Proof.
  destruct command_result_is_finalized_by_the_command as (_ & _ & H & _).
  pose proof (H (ThrownError (newError "clone failed")) initializedCommand
                (create "falcon:demo:clone" COMMAND true false false)
                (MkCommandDetail "falcon:demo:clone" CT_APPX_PACKAGE demoFlags
                   demoArgs 0 ["FALCON"; "ENGINE"; "FALCON_ERROR"])) as H'.
  specialize (H' eq_refl). specialize (H' eq_refl). specialize (H' eq_refl).
  specialize (H' eq_refl). specialize (H' eq_refl). exact H'.
Defined.

End CommandExamples.

(** * Further properties of the code *)

(** ** The static schema validators *)

Module ValidatorFacts.
Import AppxRecipeEngine AppxRecipeValidation Spec JsFacts.

(** A value whose members can be read: neither [undefined] nor [null]. *)
Definition readable (v : JsValue) : Prop := v <> JsUndefined /\ v <> JsNull.

(** What [validateRecipeStepGroup] asks of a step group. *)
Definition stepGroupIsValid (g : JsValue) : Prop :=
  readable g
  /\ nonEmptyString (propOf g "stepGroupName")
  /\ nonEmptyString (propOf g "alias")
  /\ nonEmptyString (propOf g "description")
  /\ isArray (propOf g "recipeSteps") = true.

(** What [validateOuterRecipe] asks of a recipe. *)
Definition outerRecipeIsValid (r : SfdxFalconRecipe.SfdxFalconRecipeJson) : Prop :=
  let opts := SfdxFalconRecipe.options r in
  readable opts
  /\ isArray (propOf opts "skipGroups") = true
  /\ isArray (propOf opts "skipActions") = true
  /\ isBoolean (propOf opts "haltOnError")
  /\ (exists org orgs,
        propOf opts "targetOrgs" = JsArray (org :: orgs)
        /\ Forall (fun v => readable v /\ validateTargetOrg (asTargetOrg v) = Normal tt)
                  (org :: orgs))
  /\ (exists groups,
        SfdxFalconRecipe.recipeStepGroups r = JsArray groups
        /\ Forall stepGroupIsValid groups)
  /\ isArray (SfdxFalconRecipe.handlers r) = true.

Lemma typeof_undefined v :
  String.eqb (typeof v) "undefined" = true <-> v = JsUndefined.
Proof. destruct v; cbn; split; congruence. Qed.

Lemma readable_cases v : v = JsUndefined \/ v = JsNull \/ readable v.
Proof.
  destruct v; auto; right; right; split; discriminate.
Qed.

Lemma getProp_readable v key : readable v -> getProp v key = Normal (propOf v key).
Proof. intros [H1 H2]. destruct v; try reflexivity; congruence. Qed.

Lemma isArray_true v : isArray v = true <-> exists items, v = JsArray items.
Proof.
  destruct v; cbn; split; try discriminate; eauto;
    intros [items H]; discriminate.
Qed.

Lemma forEach_Normal f items :
  forEach f items = Normal tt <-> Forall (fun x => f x = Normal tt) items.
Proof.
  induction items as [|x rest IH]; cbn.
  - split; [constructor | reflexivity].
  - destruct (f x) as [[]|e] eqn:Hx.
    + rewrite IH. split.
      * intros H. constructor; assumption.
      * intros H. now inversion H.
    + split; [discriminate |]. intros H. inversion H. congruence.
Qed.

Lemma forEach_Throw f items e :
  forEach f items = Throw e -> exists x, In x items /\ f x = Throw e.
Proof.
  induction items as [|x rest IH]; cbn; [discriminate |].
  destruct (f x) as [u|e'] eqn:Hx.
  - intros H. destruct (IH H) as [y [Hy Hf]]. exists y. auto.
  - intros [= ->]. exists x. auto.
Qed.

Lemma forEach_validateRecipeStep steps : forEach validateRecipeStep steps = Normal tt.
Proof. induction steps; cbn; auto. Qed.

Lemma forEach_validateHandler hs : forEach validateHandler hs = Normal tt.
Proof. induction hs; cbn; auto. Qed.

Lemma prefix_append p s : String.prefix p (String.append p s) = true.
Proof.
  induction p as [|c p IH].
  - now destruct s.
  - change (String.append (String c p) s) with (String c (String.append p s)).
    cbn [String.prefix].
    destruct (ascii_dec c c); [exact IH | contradiction].
Qed.

Lemma invalidRecipe_isInvalidRecipe msg : isInvalidRecipe (invalidRecipe msg).
Proof.
  exists (String.append "ERROR_INVALID_RECIPE: " msg). split; [reflexivity |].
  apply prefix_append.
Qed.

Lemma validateTargetOrg_throws org e :
  validateTargetOrg org = Throw e -> isInvalidRecipe e.
Proof.
  unfold validateTargetOrg.
  repeat match goal with
  | |- context [if ?c then _ else _] => destruct c
  end; intros [= <-]; eexists; split; reflexivity.
Qed.

Lemma validateTargetOrgEntry_Normal v :
  validateTargetOrgEntry v = Normal tt
  <-> readable v /\ validateTargetOrg (asTargetOrg v) = Normal tt.
Proof.
  unfold validateTargetOrgEntry.
  destruct (readable_cases v) as [-> | [-> | Hr]].
  - cbn. split; [discriminate | intros [[H _] _]; congruence].
  - cbn. split; [discriminate | intros [[_ H] _]; congruence].
  - rewrite getProp_readable by assumption. tauto.
Qed.

Lemma validateTargetOrgEntry_Throw v e :
  validateTargetOrgEntry v = Throw e ->
  isInvalidRecipe e
  \/ (v = JsUndefined /\ e = typeErrorUndefined "orgName")
  \/ (v = JsNull /\ e = typeErrorNull "orgName").
Proof.
  unfold validateTargetOrgEntry.
  destruct (readable_cases v) as [-> | [-> | Hr]].
  - cbn. intros [= <-]. auto.
  - cbn. intros [= <-]. auto.
  - rewrite getProp_readable by assumption. intros H. left.
    now apply validateTargetOrg_throws with (org := asTargetOrg v).
Qed.

Lemma validateRecipeStepGroup_cases g :
  (validateRecipeStepGroup g = Normal tt /\ stepGroupIsValid g)
  \/ (~ stepGroupIsValid g
      /\ exists e, validateRecipeStepGroup g = Throw e
                   /\ (isInvalidRecipe e
                       \/ (g = JsUndefined /\ e = typeErrorUndefined "stepGroupName")
                       \/ (g = JsNull /\ e = typeErrorNull "stepGroupName"))).
Proof.
  unfold validateRecipeStepGroup, stepGroupIsValid.
  destruct (readable_cases g) as [-> | [-> | Hr]].
  - right. split; [intros [[H _] _]; congruence |]. cbn. eauto 6.
  - right. split; [intros [[_ H] _]; congruence |]. cbn. eauto 6.
  - rewrite getProp_readable by assumption.
    destruct (notNonEmptyString (propOf g "stepGroupName")) eqn:H1.
    { right. split.
      - intros (_ & H & _). apply notNonEmptyString_false in H. congruence.
      - eexists. split; [reflexivity |]. left. apply invalidRecipe_isInvalidRecipe. }
    destruct (notNonEmptyString (propOf g "alias")) eqn:H2.
    { right. split.
      - intros (_ & _ & H & _). apply notNonEmptyString_false in H. congruence.
      - eexists. split; [reflexivity |]. left. apply invalidRecipe_isInvalidRecipe. }
    destruct (notNonEmptyString (propOf g "description")) eqn:H3.
    { right. split.
      - intros (_ & _ & _ & H & _). apply notNonEmptyString_false in H. congruence.
      - eexists. split; [reflexivity |]. left. apply invalidRecipe_isInvalidRecipe. }
    apply notNonEmptyString_false in H1, H2, H3.
    destruct (propOf g "recipeSteps") eqn:H4;
      try (right; split;
           [ intros (_ & _ & _ & _ & H); discriminate H
           | eexists; split; [reflexivity |]; left; apply invalidRecipe_isInvalidRecipe ]).
    left. split; [apply forEach_validateRecipeStep |].
    repeat (split; [assumption |]). reflexivity.
Qed.

Lemma validateRecipeStepGroup_Normal g :
  validateRecipeStepGroup g = Normal tt <-> stepGroupIsValid g.
Proof.
  destruct (validateRecipeStepGroup_cases g) as [[H1 H2] | [H1 (e & H2 & _)]].
  - tauto.
  - rewrite H2. split; [discriminate | contradiction].
Qed.

End ValidatorFacts.

Module ValidatorProperties.
Import AppxRecipeEngine AppxRecipeValidation AppxActions Spec JsFacts ValidatorFacts.

(** X1.  [validateRecipeStepGroup] accepts a step group exactly when the
    group is an object whose [stepGroupName], [alias] and [description] are
    non-empty strings and whose [recipeSteps] is an array; the steps
    themselves are not looked at, so an empty array and an array of anything
    pass. *)
Theorem validateRecipeStepGroup_accepts_exactly_valid_groups g :
  (validateRecipeStepGroup g = Normal tt <-> stepGroupIsValid g)
  /\ (forall name al descr steps,
        nonEmptyString name -> nonEmptyString al -> nonEmptyString descr ->
        validateRecipeStepGroup
          (JsObject [("stepGroupName", name); ("alias", al);
                     ("description", descr); ("recipeSteps", JsArray steps)])
        = Normal tt).
Proof.
  split; [apply validateRecipeStepGroup_Normal |].
  intros name al descr steps Hn Ha Hd.
  apply validateRecipeStepGroup_Normal.
  split; [split; discriminate |].
  repeat split; assumption.
Qed.

(** X2.  [validateOuterRecipe] accepts a recipe exactly when [options] is an
    object with arrays [skipGroups] and [skipActions] (of anything), a
    boolean [haltOnError] and a non-empty array [targetOrgs] of objects that
    each pass [validateTargetOrg]; [recipeStepGroups] is an array of valid
    step groups; and [handlers] is an array. *)
Theorem validateOuterRecipe_accepts_exactly_valid_recipes r :
  validateOuterRecipe r = Normal tt <-> outerRecipeIsValid r.
Proof.
  unfold validateOuterRecipe, outerRecipeIsValid. cbv zeta.
  set (opts := SfdxFalconRecipe.options r).
  destruct (readable_cases opts) as [Ho | [Ho | Hr]].
  - rewrite Ho. cbn. split; [discriminate | intros [[H _] _]; congruence].
  - rewrite Ho. cbn. split; [discriminate | intros [[_ H] _]; congruence].
  - destruct (String.eqb (typeof opts) "undefined") eqn:Hu.
    { apply typeof_undefined in Hu. destruct Hr. contradiction. }
    rewrite getProp_readable by assumption.
    destruct (isArray (propOf opts "skipGroups")) eqn:H1; cbn [negb].
    2:{ split; [discriminate | intros (_ & H & _); discriminate H]. }
    destruct (isArray (propOf opts "skipActions")) eqn:H2; cbn [negb].
    2:{ split; [discriminate | intros (_ & _ & H & _); discriminate H]. }
    destruct (String.eqb (typeof (propOf opts "haltOnError")) "boolean") eqn:H3;
      cbn [negb].
    2:{ split; [discriminate |]. intros (_ & _ & _ & H & _).
        apply typeof_boolean in H. congruence. }
    apply typeof_boolean in H3.
    destruct (propOf opts "targetOrgs") as [| | | | | [|org orgs] |] eqn:H4;
      try (split; [discriminate | intros (_ & _ & _ & _ & (o & os & H & _) & _);
                                  discriminate H]).
    destruct (forEach validateTargetOrgEntry (org :: orgs)) as [[]|e] eqn:H5.
    2:{ split; [discriminate |].
        intros (_ & _ & _ & _ & (o & os & [= <- <-] & H) & _).
        assert (H' : forEach validateTargetOrgEntry (org :: orgs) = Normal tt).
        { apply forEach_Normal.
          eapply List.Forall_impl; [| exact H].
          intros v Hv. now apply validateTargetOrgEntry_Normal. }
        congruence. }
    assert (Horgs : Forall (fun v => readable v
                                     /\ validateTargetOrg (asTargetOrg v) = Normal tt)
                           (org :: orgs)).
    { apply forEach_Normal in H5.
      eapply List.Forall_impl; [| exact H5].
      intros v Hv. now apply validateTargetOrgEntry_Normal. }
    destruct (SfdxFalconRecipe.recipeStepGroups r) as [| | | | | groups |] eqn:H6;
      try (split; [discriminate |
                   intros (_ & _ & _ & _ & _ & (gs & H & _) & _); discriminate H]).
    destruct (forEach validateRecipeStepGroup groups) as [[]|e] eqn:H7.
    2:{ split; [discriminate |].
        intros (_ & _ & _ & _ & _ & (gs & [= <-] & H) & _).
        assert (H' : forEach validateRecipeStepGroup groups = Normal tt).
        { apply forEach_Normal.
          eapply List.Forall_impl; [| exact H].
          intros v Hv. now apply validateRecipeStepGroup_Normal. }
        congruence. }
    assert (Hgroups : Forall stepGroupIsValid groups).
    { apply forEach_Normal in H7.
      eapply List.Forall_impl; [| exact H7].
      intros v Hv. now apply validateRecipeStepGroup_Normal. }
    destruct (SfdxFalconRecipe.handlers r) as [| | | | | hs |] eqn:H8;
      try (split; [discriminate |
                   intros (_ & _ & _ & _ & _ & _ & H); discriminate H]).
    rewrite forEach_validateHandler.
    split; [| reflexivity]. intros _.
    split; [assumption |]. split; [reflexivity |]. split; [reflexivity |].
    split; [assumption |]. split; [exists org, orgs; auto |].
    split; [exists groups; auto | reflexivity].
Qed.

(** X3.  Every error of [validateOuterRecipe] is an ERROR_INVALID_RECIPE
    error, except in three situations in which a TypeError escapes instead:
    [options] is [null] (which passes the [typeof] test for a missing key),
    or an element of [options.targetOrgs] or of [recipeStepGroups] is
    [undefined] or [null]. *)
Theorem validateOuterRecipe_errors r e :
  validateOuterRecipe r = Throw e ->
  isInvalidRecipe e
  \/ (SfdxFalconRecipe.options r = JsNull /\ e = typeErrorNull "skipGroups")
  \/ (exists orgs,
        propOf (SfdxFalconRecipe.options r) "targetOrgs" = JsArray orgs
        /\ ((In JsUndefined orgs /\ e = typeErrorUndefined "orgName")
            \/ (In JsNull orgs /\ e = typeErrorNull "orgName")))
  \/ (exists groups,
        SfdxFalconRecipe.recipeStepGroups r = JsArray groups
        /\ ((In JsUndefined groups /\ e = typeErrorUndefined "stepGroupName")
            \/ (In JsNull groups /\ e = typeErrorNull "stepGroupName"))).
Proof.
  unfold validateOuterRecipe. cbv zeta.
  set (opts := SfdxFalconRecipe.options r).
  destruct (String.eqb (typeof opts) "undefined") eqn:Hu.
  { intros [= <-]. left. apply invalidRecipe_isInvalidRecipe. }
  destruct (readable_cases opts) as [Ho | [Ho | Hr]].
  - rewrite Ho in Hu. discriminate.
  - rewrite Ho. cbn. intros [= <-]. auto.
  - rewrite getProp_readable by assumption.
    destruct (isArray (propOf opts "skipGroups")); cbn [negb].
    2:{ intros [= <-]. left. apply invalidRecipe_isInvalidRecipe. }
    destruct (isArray (propOf opts "skipActions")); cbn [negb].
    2:{ intros [= <-]. left. apply invalidRecipe_isInvalidRecipe. }
    destruct (String.eqb (typeof (propOf opts "haltOnError")) "boolean"); cbn [negb].
    2:{ intros [= <-]. left. apply invalidRecipe_isInvalidRecipe. }
    destruct (propOf opts "targetOrgs") as [| | | | | [|org orgs] |] eqn:H4;
      try (intros [= <-]; left; apply invalidRecipe_isInvalidRecipe).
    destruct (forEach validateTargetOrgEntry (org :: orgs)) as [[]|e'] eqn:H5.
    2:{ intros [= <-].
        apply forEach_Throw in H5 as (v & Hin & Hv).
        apply validateTargetOrgEntry_Throw in Hv as [Hv | [[-> ->] | [-> ->]]].
        - now left.
        - right. right. left. exists (org :: orgs). auto.
        - right. right. left. exists (org :: orgs). auto. }
    destruct (SfdxFalconRecipe.recipeStepGroups r) as [| | | | | groups |] eqn:H6;
      try (intros [= <-]; left; apply invalidRecipe_isInvalidRecipe).
    destruct (forEach validateRecipeStepGroup groups) as [[]|e'] eqn:H7.
    2:{ intros [= <-].
        apply forEach_Throw in H7 as (v & Hin & Hv).
        destruct (validateRecipeStepGroup_cases v)
          as [[Hn _] | [_ (x & Hx & Hkind)]]; [congruence |].
        assert (x = e') by congruence. subst x.
        destruct Hkind as [Hk | [[-> ->] | [-> ->]]].
        - now left.
        - right. right. right. exists groups. auto.
        - right. right. right. exists groups. auto. }
    destruct (SfdxFalconRecipe.handlers r) as [| | | | | hs |] eqn:H8;
      try (intros [= <-]; left; apply invalidRecipe_isInvalidRecipe).
    rewrite forEach_validateHandler. discriminate.
Qed.

(** X4.  The option checks of the two actions: [validateActionOptions] of
    "deploy-metadata" passes exactly when the options are an object in which
    [mdapiSource] is not undefined, and that of "configure-admin-user" when
    [definitionFile] is not undefined; any defined value passes, also
    [null] and the empty string. *)
Theorem validateActionOptions_accepts_any_defined_value o :
  (deployMetadata_validateActionOptions o = Normal tt
   <-> readable o /\ propOf o "mdapiSource" <> JsUndefined)
  /\ (configureAdminUser_validateActionOptions o = Normal tt
      <-> readable o /\ propOf o "definitionFile" <> JsUndefined).
Proof.
  unfold deployMetadata_validateActionOptions,
    configureAdminUser_validateActionOptions.
  destruct (readable_cases o) as [-> | [-> | Hr]].
  - cbn. split; (split; [discriminate | intros [[H _] _]; congruence]).
  - cbn. split; (split; [discriminate | intros [[_ H] _]; congruence]).
  - rewrite !getProp_readable by assumption.
    split.
    + destruct (String.eqb (typeof (propOf o "mdapiSource")) "undefined") eqn:H.
      * apply typeof_undefined in H. split; [discriminate | intros [_ H']; contradiction].
      * split; [| reflexivity]. intros _. split; [assumption |].
        intros H'. apply typeof_undefined in H'. congruence.
    + destruct (String.eqb (typeof (propOf o "definitionFile")) "undefined") eqn:H.
      * apply typeof_undefined in H. split; [discriminate | intros [_ H']; contradiction].
      * split; [| reflexivity]. intros _. split; [assumption |].
        intros H'. apply typeof_undefined in H'. congruence.
Qed.

End ValidatorProperties.

(** ** Postconditions and frames of methods *)

Module HoareFacts.

Section Post.
Context {Ev E S : Type}.
Let M' := M Ev E S.

(** Every normal completion of the method leaves a state in which [Q]
    holds. *)
Definition ensures {A} (Q : S -> Prop) (m : M' A) : Prop :=
  forall s a, completion (m s) = Normal a -> Q (after (m s)).

Lemma ensures_bind {A B} Q (m : M' A) (k : A -> M' B) :
  (forall a, ensures Q (k a)) -> ensures Q (bind m k).
Proof.
  intros H s b. unfold bind.
  destruct (completion (m s)) as [a|e] eqn:Hc; cbn; [apply H | discriminate].
Qed.

(** The method never changes what [f] reads of the state. *)
Definition preserves {A X} (f : S -> X) (m : M' A) : Prop :=
  forall s, f (after (m s)) = f s.

Lemma preserves_bind {A B X} (f : S -> X) (m : M' A) (k : A -> M' B) :
  preserves f m -> (forall a, preserves f (k a)) -> preserves f (bind m k).
Proof.
  intros Hm Hk s. unfold bind.
  destruct (completion (m s)) as [a|e] eqn:Hc; cbn.
  - rewrite Hk. apply Hm.
  - apply Hm.
Qed.

Lemma preserves_tryCatch {A X} (f : S -> X) (m : M' A) (h : E -> M' A) :
  preserves f m -> (forall e, preserves f (h e)) -> preserves f (tryCatch m h).
Proof.
  intros Hm Hh s. unfold tryCatch.
  destruct (completion (m s)) as [a|e] eqn:Hc; cbn.
  - apply Hm.
  - rewrite Hh. apply Hm.
Qed.

Lemma preserves_ret {A X} (f : S -> X) (a : A) : preserves f (ret a).
Proof. intros s. reflexivity. Qed.

Lemma preserves_get {X} (f : S -> X) : preserves f get.
Proof. intros s. reflexivity. Qed.

Lemma preserves_emit {X} (f : S -> X) ev : preserves f (emit ev).
Proof. intros s. reflexivity. Qed.

Lemma preserves_raise {A X} (f : S -> X) e : preserves f (raise (A := A) e).
Proof. intros s. reflexivity. Qed.

Lemma preserves_lift {A X} (f : S -> X) (c : Completion E A) : preserves f (lift c).
Proof. intros s. reflexivity. Qed.

Lemma preserves_modify {X} (f : S -> X) g :
  (forall s, f (g s) = f s) -> preserves f (modify g).
Proof. intros H s. apply H. Qed.

End Post.

End HoareFacts.

(** ** The compiled plan *)

Module PlanFacts.
Import AppxRecipeEngine Spec JsFacts EffFacts CompilerFacts EngineFacts HoareFacts.

Definition parentTaskOf (g : AppxEngineStepGroup) : ListrParentTask :=
  MkParentTask (stepGroupName g) g.

(** The plan of a concatenation is the concatenation of the plans. *)
Lemma compileParentTasks_app this a b :
  compileParentTasks this (a ++ b)
  = match compileParentTasks this a with
    | Throw e => Throw e
    | Normal pa =>
        match compileParentTasks this b with
        | Throw e => Throw e
        | Normal pb => Normal (pa ++ pb)
        end
    end.
Proof.
  induction a as [|g rest IH]; cbn.
  - now destruct (compileParentTasks this b).
  - destruct (skipGroup this (groupAlias g)) as [[|]|e]; [exact IH | | reflexivity].
    destruct (stepGroupHasActiveTasks this g) as [[|]|e]; [| exact IH | reflexivity].
    rewrite IH.
    destruct (compileParentTasks this rest); [| reflexivity].
    now destruct (compileParentTasks this b).
Qed.

(** What the eighth initialisation step leaves behind when it completes. *)
Definition registryRecorded (s : Engine) : Prop :=
  exists m, actionExecutorMap s = Some m
            /\ supportedActions (falconEngineResultDetail s) = Some (dom m).

Lemma initializeEngineResultDetail_ensures :
  ensures registryRecorded initializeEngineResultDetail.
Proof.
  intros s a. unfold initializeEngineResultDetail, bind, emit, modify, get, raise.
  cbn [completion after trace].
  destruct s as [[m|] l r res d pre post ctx]; cbn; [| discriminate].
  intros _. exists m. split; reflexivity.
Qed.

Section WithImpl.
Context `{impl : AppxRecipeEngineImpl}.

Lemma initializeEngine_ensures rcp opts :
  ensures registryRecorded (initializeEngine rcp opts).
Proof.
  unfold initializeEngine.
  do 9 (apply ensures_bind; intros ?).
  apply initializeEngineResultDetail_ensures.
Qed.

(** The engine a successful [compile] leaves behind. *)
Lemma compiled_engine_shape rcp opts e :
  completion (compile rcp opts e) = Normal tt ->
  exists sv pre post rcp' sg sa m,
    after (compile rcp opts e)
    = setListrTasks
        (map parentTaskOf
             (List.filter (groupAppears sg sa) (pre ++ recipeStepGroups rcp' ++ post)))
        sv
    /\ preBuildStepGroups sv = Some pre
    /\ postBuildStepGroups sv = Some post
    /\ recipe sv = Some rcp'
    /\ skipGroups (engineContext sv) = Some sg
    /\ skipActions (engineContext sv) = Some sa
    /\ actionExecutorMap sv = Some m
    /\ supportedActions (falconEngineResultDetail sv) = Some (dom m)
    /\ (size m <? 1)%nat = false.
Proof.
  intros Hn.
  destruct (CompileClaims.compile_normal_inv rcp opts e Hn)
    as (_ & Hi & Hmap & Hchk & Hc & Hafter & _).
  destruct (initializeEngine_ensures rcp opts e tt Hi) as (m & Hm & Hs).
  set (s8 := after (initializeEngine rcp opts e)) in *.
  set (sv := setContext (setInitialized true (engineContext s8)) s8) in *.
  destruct (engineChecks_arrays s8 Hchk)
    as (pre & post & sa & sg & Hpre & Hpost & Hsa & Hsg).
  destruct (compileAllTasks_needs_recipe sv Hc) as [rcp' Hr].
  exists sv, pre, post, rcp', sg, sa, m.
  split.
  { rewrite Hafter.
    rewrite (compileAllTasks_run sv pre post rcp' sg sa)
      by (assumption || reflexivity).
    reflexivity. }
  split; [exact Hpre |]. split; [exact Hpost |]. split; [exact Hr |].
  split; [exact Hsg |]. split; [exact Hsa |]. split; [exact Hm |].
  split; [exact Hs |].
  unfold actionMapIsEmptyMap in Hmap. rewrite Hm in Hmap. exact Hmap.
Qed.

End WithImpl.

Lemma filter_filter_subset {A} (f g : A -> bool) l :
  (forall x, g x = true -> f x = true) ->
  List.filter g (List.filter f l) = List.filter g l.
Proof.
  intros H. induction l as [|x l IH]; cbn; [reflexivity |].
  destruct (f x) eqn:Hf; cbn.
  - destruct (g x); [now rewrite IH | exact IH].
  - destruct (g x) eqn:Hg; [| exact IH].
    apply H in Hg. congruence.
Qed.

Lemma filter_map_parentTaskOf (f : AppxEngineStepGroup -> bool) l :
  List.filter (fun t => f (parentGroup t)) (map parentTaskOf l)
  = map parentTaskOf (List.filter f l).
Proof.
  induction l as [|g l IH]; cbn; [reflexivity |].
  destruct (f g); cbn; now rewrite IH.
Qed.

Lemma groupAppears_mono sg sa sg' sa' g :
  incl sg sg' -> incl sa sa' ->
  groupAppears sg' sa' g = true -> groupAppears sg sa g = true.
Proof.
  intros Hg Ha. rewrite !groupAppears_iff.
  intros [H1 (st & H2 & H3)]. split.
  - intros H. apply H1, Hg, H.
  - exists st. split; [exact H2 |]. intros H. apply H3, Ha, H.
Qed.

End PlanFacts.

Module PlanProperties.
Import AppxRecipeEngine Spec JsFacts EffFacts CompilerFacts EngineFacts HoareFacts
  PlanFacts.

Section WithImpl.
Context `{impl : AppxRecipeEngineImpl}.

(** X5.  A [compile] that completes leaves an action registry that is
    present and not empty, and the engine's result detail lists exactly the
    registry's keys as supported actions: the engine cannot come out of
    [compile] without a usable registry. *)
Theorem successful_compile_has_registry rcp opts e :
  completion (compile rcp opts e) = Normal tt ->
  let this := after (compile rcp opts e) in
  exists m, actionExecutorMap this = Some m
            /\ m <> ∅
            /\ registryNonEmpty this = true
            /\ supportedActions (falconEngineResultDetail this) = Some (dom m).
Proof.
  intros Hn. cbv zeta.
  destruct (compiled_engine_shape rcp opts e Hn)
    as (sv & pre & post & rcp' & sg & sa & m & -> & _ & _ & _ & _ & _ & Hm & Hs & Hsize).
  exists m. cbn [setListrTasks actionExecutorMap falconEngineResultDetail].
  split; [exact Hm |].
  assert (Hpos : size m <> 0%nat).
  { intros H0. rewrite H0 in Hsize. discriminate. }
  split.
  { intros ->. apply Hpos. apply map_size_empty. }
  split; [| exact Hs].
  unfold registryNonEmpty. cbn [setListrTasks actionExecutorMap]. rewrite Hm.
  apply negb_true_iff. now apply Nat.eqb_neq.
Qed.

(** X6.  In a compiled plan the tasks of the pre-build groups come first,
    then those of the recipe's groups, then those of the post-build groups:
    the plan is the concatenation of the three plans that
    [compileParentTasks] gives for the three lists on their own. *)
Theorem plan_is_prebuild_recipe_postbuild rcp opts e :
  completion (compile rcp opts e) = Normal tt ->
  let this := after (compile rcp opts e) in
  exists pre rcp' post planPre planRecipe planPost,
    preBuildStepGroups this = Some pre
    /\ recipe this = Some rcp'
    /\ postBuildStepGroups this = Some post
    /\ compileParentTasks this pre = Normal planPre
    /\ compileParentTasks this (recipeStepGroups rcp') = Normal planRecipe
    /\ compileParentTasks this post = Normal planPost
    /\ listrTasks this = Some (planPre ++ planRecipe ++ planPost).
Proof.
  intros Hn. cbv zeta.
  destruct (compiled_engine_shape rcp opts e Hn)
    as (sv & pre & post & rcp' & sg & sa & m & -> & Hpre & Hpost & Hr & Hsg & Hsa & _).
  set (this := setListrTasks _ sv).
  assert (Hsg' : skipGroups (engineContext this) = Some sg) by exact Hsg.
  assert (Hsa' : skipActions (engineContext this) = Some sa) by exact Hsa.
  exists pre, rcp', post.
  do 3 eexists.
  split; [exact Hpre |]. split; [exact Hr |]. split; [exact Hpost |].
  split; [apply (compileParentTasks_eq this sg sa Hsg' Hsa') |].
  split; [apply (compileParentTasks_eq this sg sa Hsg' Hsa') |].
  split; [apply (compileParentTasks_eq this sg sa Hsg' Hsa') |].
  subst this. cbn [setListrTasks listrTasks]. unfold parentTaskOf.
  now rewrite !List.filter_app, !List.map_app.
Qed.

(** X7.  No parent task of a compiled plan is empty: for every task of the
    plan, the closure that Listr runs for it yields at least one sub task,
    its title is the name of its group, and it leaves the engine unchanged;
    so the ERROR_NO_STEPS error of [compileSubTasks] cannot occur when a
    compiled plan is run. *)
Theorem compiled_parent_tasks_have_subtasks rcp opts e :
  completion (compile rcp opts e) = Normal tt ->
  let this := after (compile rcp opts e) in
  exists plan,
    listrTasks this = Some plan
    /\ forall t, In t plan ->
         parentTitle t = stepGroupName (parentGroup t)
         /\ exists sub subs,
              runParentTask t this = MkRun (Normal (sub :: subs)) this [].
Proof.
  intros Hn. cbv zeta.
  destruct (compiled_engine_shape rcp opts e Hn)
    as (sv & pre & post & rcp' & sg & sa & m & -> & _ & _ & _ & Hsg & Hsa & _).
  set (groups := pre ++ recipeStepGroups rcp' ++ post).
  set (this := setListrTasks _ sv).
  assert (Hsa' : skipActions (engineContext this) = Some sa) by exact Hsa.
  eexists. split; [reflexivity |].
  intros t Ht. apply in_map_iff in Ht as (g & <- & Hg).
  apply filter_In in Hg as [_ Hg].
  split; [reflexivity |].
  assert (Hsub := compileSubTasks_of_appearing this sg sa Hsa' g Hg).
  unfold runParentTask, bind, get, lift. cbn [completion after trace app parentTaskOf parentGroup].
  rewrite Hsub. cbn [completion after trace app].
  apply andb_true_iff in Hg as [_ Hg].
  apply existsb_exists in Hg as (st & Hin & Hact).
  assert (Hin' : In st (List.filter (stepIsActive sa) (recipeSteps g))).
  { apply filter_In. auto. }
  destruct (List.filter (stepIsActive sa) (recipeSteps g)) as [|s0 rest];
    [destruct Hin' |].
  cbn [map]. eauto.
Qed.

End WithImpl.

(** X8.  Skip lists only ever remove tasks: if an engine's skip lists
    contain those of another, its plan for the same groups is the other
    engine's plan with the newly skipped groups filtered out, in the same
    order. *)
Theorem larger_skip_lists_filter_the_plan this this' sg sa sg' sa' groups :
  skipGroups (engineContext this) = Some sg ->
  skipActions (engineContext this) = Some sa ->
  skipGroups (engineContext this') = Some sg' ->
  skipActions (engineContext this') = Some sa' ->
  incl sg sg' -> incl sa sa' ->
  exists plan plan',
    compileParentTasks this groups = Normal plan
    /\ compileParentTasks this' groups = Normal plan'
    /\ plan' = List.filter (fun t => groupAppears sg' sa' (parentGroup t)) plan
    /\ incl plan' plan.
Proof.
  intros Hsg Hsa Hsg' Hsa' Hig Hia.
  do 2 eexists.
  split; [apply (compileParentTasks_eq this sg sa Hsg Hsa) |].
  split; [apply (compileParentTasks_eq this' sg' sa' Hsg' Hsa') |].
  assert (E : map parentTaskOf (List.filter (groupAppears sg' sa') groups)
              = List.filter (fun t => groupAppears sg' sa' (parentGroup t))
                  (map parentTaskOf (List.filter (groupAppears sg sa) groups))).
  { rewrite filter_map_parentTaskOf, filter_filter_subset; [reflexivity |].
    intros g. now apply groupAppears_mono. }
  split; [exact E |].
  change (fun g => MkParentTask (stepGroupName g) g) with parentTaskOf.
  rewrite E. intros t Ht. now apply filter_In in Ht.
Qed.

(** X9.  [executeStep] calls an action executor exactly when the step's
    action is a key of the registry, and then exactly the executor
    registered under that key, with the engine's context joined with the
    Listr options and with the step's own options; what the executor settles
    with is what [executeStep] settles with.  [executeStep] itself never
    changes the engine. *)
Theorem executeStep_calls_exactly_the_registered_executor this step listrOpts :
  after (executeStep step listrOpts this) = this
  /\ (forall a, In (CallActionExecute a) (trace (executeStep step listrOpts this))
                <-> a = action step
                    /\ exists m executor,
                         actionExecutorMap this = Some m
                         /\ m !! action step = Some executor)
  /\ (forall m executor,
        actionExecutorMap this = Some m ->
        m !! action step = Some executor ->
        executeStep step listrOpts this
        = MkRun (actionExecute executor
                   (MkActionContext (engineContext this) listrOpts) (options step))
                this [CallActionExecute (action step)]).
Proof.
  unfold executeStep, bind, get, raise, emit, lift.
  cbn [completion after trace app].
  destruct (actionExecutorMap this) as [m|] eqn:Hm; cbn [completion after trace].
  2:{ split; [reflexivity |]. split; [| discriminate].
      intros a. cbn. split; [tauto | intros (_ & m & ex & H & _); discriminate H]. }
  destruct (m !! action step) as [ex|] eqn:Hl; cbn [completion after trace app].
  - split; [reflexivity |]. split.
    + intros a. cbn. split.
      * intros [[= <-] | []]. split; [reflexivity |]. eauto.
      * intros [-> _]. now left.
    + intros m' ex' [= <-] Hl'. rewrite Hl in Hl'. injection Hl' as <-.
      now destruct (actionExecute ex _ _).
  - destruct (recipe this); cbn [completion after trace].
    + split; [reflexivity |]. split.
      * intros a. cbn. split; [tauto |].
        intros (_ & m' & ex & [= <-] & H). congruence.
      * intros m' ex [= <-] H. congruence.
    + split; [reflexivity |]. split.
      * intros a. cbn. split; [tauto |].
        intros (_ & m' & ex & [= <-] & H). congruence.
      * intros m' ex [= <-] H. congruence.
Qed.

End PlanProperties.

(** ** The engine checks after initialisation *)

Module RegistryClaims.
Import AppxRecipeEngine Spec EngineFacts HoareFacts PlanFacts.

Lemma validateEngine_empty_registry s :
  actionMapIsEmptyMap s = true ->
  exists msg,
    validateEngine s
    = MkRun (Throw (ThrownError (newError ("ERROR_INVALID_ENGINE: " ++ msg))))
            s [CallValidateEngine].
Proof.
  intros H. unfold validateEngine, bind, emit, get, raise, modify. cbn.
  rewrite H. eexists. reflexivity.
Qed.

Section WithImpl.
Context `{impl : AppxRecipeEngineImpl}.

(** C6.  In every state the eight initialisation steps leave when they
    complete, the action registry is present, and [validateEngine] marks
    the engine initialised exactly when the registry holds at least one
    action, the pre-build and post-build group lists are arrays, the target
    org is set with a non-empty alias and both skip lists are arrays.  In
    every other such state it raises an error, makes no other call and
    leaves the engine as it is; in particular, whenever the registry holds
    no action it raises the ERROR_INVALID_ENGINE error and the engine is
    not marked initialised. *)
Theorem validateEngine_enforces_checks_after_initialization rcp opts e :
  completion (initializeEngine rcp opts e) = Normal tt ->
  let s8 := after (initializeEngine rcp opts e) in
  (exists m, actionExecutorMap s8 = Some m)
  /\ (completion (validateEngine s8) = Normal tt
      <-> registryNonEmpty s8 = true /\ engineChecks s8 = true)
  /\ (completion (validateEngine s8) = Normal tt ->
      initialized (engineContext (after (validateEngine s8))) = Some true)
  /\ (registryNonEmpty s8 = false \/ engineChecks s8 = false ->
      exists x, validateEngine s8 = MkRun (Throw x) s8 [CallValidateEngine])
  /\ (registryNonEmpty s8 = false ->
      exists msg,
        validateEngine s8
        = MkRun (Throw (ThrownError (newError ("ERROR_INVALID_ENGINE: " ++ msg))))
                s8 [CallValidateEngine]
        /\ initialized (engineContext (after (validateEngine s8)))
           = initialized (engineContext s8)).
Proof.
  intros Hi. cbv zeta.
  destruct (initializeEngine_ensures rcp opts e tt Hi) as (m & Hm & _).
  set (s8 := after (initializeEngine rcp opts e)) in *.
  assert (Hreg : actionMapIsEmptyMap s8 = negb (registryNonEmpty s8)).
  { unfold actionMapIsEmptyMap, registryNonEmpty. rewrite Hm.
    rewrite negb_involutive. now destruct (size m). }
  split; [eauto |].
  destruct (validateEngine_cases s8)
    as [(H1 & H2 & Hrun) | ([H1 | H2] & x & Hrun)].
  - rewrite Hreg in H1. apply negb_false_iff in H1.
    rewrite Hrun. cbn [completion after].
    split; [tauto |]. split; [reflexivity |].
    split; [intros [H | H]; congruence |]. intros H. congruence.
  - pose proof H1 as Hempty. rewrite Hreg in H1. apply negb_true_iff in H1.
    rewrite Hrun. cbn [completion after].
    split; [split; [discriminate | intros [H _]; congruence] |].
    split; [discriminate |]. split; [eauto |].
    intros _.
    destruct (validateEngine_empty_registry s8 Hempty) as [msg Hmsg].
    rewrite Hrun in Hmsg. injection Hmsg as ->.
    exists msg. split; reflexivity.
  - rewrite Hrun. cbn [completion after].
    split; [split; [discriminate | intros [_ H]; congruence] |].
    split; [discriminate |]. split; [eauto |].
    intros Hn.
    assert (Hempty : actionMapIsEmptyMap s8 = true) by (rewrite Hreg, Hn; reflexivity).
    destruct (validateEngine_empty_registry s8 Hempty) as [msg Hmsg].
    rewrite Hrun in Hmsg. injection Hmsg as ->.
    exists msg. split; reflexivity.
Qed.

End WithImpl.

(** An engine whose registry step stores a registry without entries: the
    eight steps complete and [validateEngine] rejects the engine. *)
Lemma validateEngine_enforces_checks_witness :
  let s8 := after (initializeEngine (impl := Demo.engineLeavingRegistryEmpty)
                     Demo.demoRecipe JsNull Demo.freshEngine) in
  completion (initializeEngine (impl := Demo.engineLeavingRegistryEmpty)
                Demo.demoRecipe JsNull Demo.freshEngine) = Normal tt
  /\ actionExecutorMap s8 = Some ∅
  /\ registryNonEmpty s8 = false
  /\ exists msg,
       validateEngine s8
       = MkRun (Throw (ThrownError (newError ("ERROR_INVALID_ENGINE: " ++ msg))))
               s8 [CallValidateEngine]
       /\ initialized (engineContext (after (validateEngine s8)))
          = initialized (engineContext s8).
Proof.
  cbv zeta.
  pose proof (validateEngine_enforces_checks_after_initialization
                (impl := Demo.engineLeavingRegistryEmpty)
                Demo.demoRecipe JsNull Demo.freshEngine) as H.
  specialize (H eq_refl). cbv zeta in H.
  destruct H as (_ & _ & _ & _ & H).
  split; [reflexivity |]. split; [reflexivity |]. split; [reflexivity |].
  exact (H eq_refl).
Defined.

End RegistryClaims.

(** ** Running a compiled engine and a compiled recipe *)

Module RunFacts.
Import ResultFacts EffFacts ExecutionFacts RecipeFacts HoareFacts.

Lemma bind_emit {Ev E S B} (c : Ev) (k : unit -> M Ev E S B) s :
  bind (emit c) k s
  = MkRun (completion (k tt s)) (after (k tt s)) (c :: trace (k tt s)).
Proof. reflexivity. Qed.

Section WithImpl.
Import AppxRecipeEngine.
Context `{impl : AppxRecipeEngineImpl}.

(** The [then]/[catch] chain on the promise of [executeEngine]. *)
Definition settleEngine (opts : JsValue) : EngineM unit :=
  tryCatch
    (listrCtx <- call CallExecuteEngine (executeEngine opts) ;;
     onSuccess listrCtx)%eff
    (fun listrError => onError listrError).

Lemma settleEngine_trace opts this :
  trace (settleEngine opts this) = [CallExecuteEngine].
Proof.
  unfold settleEngine, tryCatch, bind, call.
  destruct (executeEngine opts this) as [[ctx|x] s'];
    cbn [completion after trace].
  - rewrite engine_onSuccess_run.
    destruct (isTerminal (status (falconEngineResult s')));
      cbn [completion after trace app]; [| reflexivity].
    now rewrite engine_onError_trace.
  - now rewrite engine_onError_trace.
Qed.

Lemma settleEngine_rejected opts this x s' :
  executeEngine opts this = (Throw x, s') ->
  exists t, completion (settleEngine opts this) = Throw t.
Proof.
  intros H. unfold settleEngine, tryCatch, bind, call. rewrite H.
  cbn [completion after trace].
  destruct (engine_onError_always_throws (A := unit) x s') as [t Ht].
  rewrite Ht. eauto.
Qed.

Lemma executeCompiled_settle opts this :
  executeCompiled opts this
  = match completion (settleEngine opts this) with
    | Normal _ =>
        MkRun (Normal (falconEngineResult (after (settleEngine opts this))))
              (after (settleEngine opts this))
              [CallStartExecution; CallExecuteEngine; CallEndExecution]
    | Throw t =>
        MkRun (Throw t) (after (settleEngine opts this))
              [CallStartExecution; CallExecuteEngine]
    end.
Proof.
  unfold executeCompiled. fold (settleEngine opts).
  unfold startExecution, endExecution.
  rewrite bind_emit.
  destruct (completion (settleEngine opts this)) as [[]|t] eqn:Hc.
  - rewrite (bind_normal _ _ _ _ Hc), bind_emit.
    cbn [completion after trace]. rewrite settleEngine_trace. reflexivity.
  - rewrite (bind_throw _ _ _ _ Hc).
    cbn [completion after trace]. rewrite settleEngine_trace. reflexivity.
Qed.

(** The calls a run of the engine's [execute] can make. *)
Lemma engine_execute_traces opts this :
  (exists t, completion (execute opts this) = Throw t
             /\ (trace (execute opts this) = []
                 \/ trace (execute opts this) = [CallStartExecution; CallExecuteEngine]))
  \/ (exists res, completion (execute opts this) = Normal res
                  /\ trace (execute opts this)
                     = [CallStartExecution; CallExecuteEngine; CallEndExecution]).
Proof.
  destruct (listrTasks this) as [tasks|] eqn:Hl.
  - rewrite (engine_execute_compiled opts this tasks Hl), executeCompiled_settle.
    destruct (completion (settleEngine opts this));
      cbn [completion trace]; eauto.
  - rewrite (engine_execute_not_compiled opts this Hl). cbn. eauto.
Qed.

End WithImpl.

Lemma executeStep_frame step listrOpts this :
  exists c tr, AppxRecipeEngine.executeStep step listrOpts this = MkRun c this tr.
Proof.
  unfold AppxRecipeEngine.executeStep, bind, get, raise, emit, lift.
  cbn [completion after trace app].
  destruct (AppxRecipeEngine.actionExecutorMap this) as [m|];
    cbn [completion after trace]; [| eauto].
  destruct (m !! action step) as [ex|]; cbn [completion after trace app].
  - destruct (AppxRecipeEngine.actionExecute ex _ _); eauto.
  - destruct (AppxRecipeEngine.recipe this); eauto.
Qed.

End RunFacts.

Module RunProperties.
Import ResultFacts EffFacts ExecutionFacts RecipeFacts HoareFacts RunFacts.

Section Engine.
Import AppxRecipeEngine.
Context `{impl : AppxRecipeEngineImpl}.

(** X10.  A run of a compiled engine makes exactly these calls, in order:
    pre-execution work, the Listr run, and, only if it does not fail, the
    closing work.  When [execute] returns, what it returns is the engine's
    own result; when the Listr run rejects, [execute] always fails; and when
    [execute] fails the closing work is never run. *)
Theorem engine_execute_call_order opts this tasks :
  listrTasks this = Some tasks ->
  let r := execute opts this in
  (forall res, completion r = Normal res ->
     res = falconEngineResult (after r)
     /\ trace r = [CallStartExecution; CallExecuteEngine; CallEndExecution])
  /\ (forall t, completion r = Throw t ->
        trace r = [CallStartExecution; CallExecuteEngine]
        /\ ~ In CallEndExecution (trace r))
  /\ (forall x s', executeEngine opts this = (Throw x, s') ->
        exists t, completion r = Throw t).
Proof.
  intros Hl. cbv zeta.
  rewrite (engine_execute_compiled opts this tasks Hl), executeCompiled_settle.
  split; [| split].
  - intros res. destruct (completion (settleEngine opts this));
      cbn [completion after trace]; [| discriminate].
    intros [= <-]. split; reflexivity.
  - intros t. destruct (completion (settleEngine opts this));
      cbn [completion after trace]; [discriminate |].
    intros _. split; [reflexivity |]. cbn. intuition discriminate.
  - intros x s' Hx. destruct (settleEngine_rejected opts this x s' Hx) as [t Ht].
    rewrite Ht. cbn [completion]. eauto.
Qed.

(** X11.  The closure that Listr runs for a step always records one more
    child in the ENGINE result, whether the action resolves, rejects or is
    not registered at all, and whatever it reports to its observer as an
    error is the ENGINE result itself, never the action's own rejection
    (children are added as the specification describes [addChild]).  If the
    ENGINE result bubbles nothing, the closure always completes and adds
    exactly one child. *)
Theorem runSubTask_records_a_child task listrOpts this :
  let r := runSubTask task listrOpts this in
  (forall t, completion r = Throw t ->
     t = ThrownResult (falconEngineResult (after r)))
  /\ (exists child more,
        children (falconEngineResult (after r))
        = children (falconEngineResult this) ++ child :: more)
  /\ (bubbleError (falconEngineResult this) = false ->
      bubbleFailure (falconEngineResult this) = false ->
      completion r = Normal tt
      /\ exists child,
           children (falconEngineResult (after r))
           = children (falconEngineResult this) ++ [child]).
Proof.
  cbv zeta.
  destruct (executeStep_frame (subStep task) listrOpts this) as [c [tr Hrun]].
  unfold runSubTask, tryCatch, bind. rewrite Hrun.
  cbn [completion after trace].
  unfold onResult.
  destruct c as [res|x]; cbn [completion after trace].
  - pose proof (addChild_throws_this (Ev := Call) res (falconEngineResult this)) as Hthrow.
    pose proof (addChild_children (Ev := Call) res (falconEngineResult this)) as Hch.
    pose proof (addChild_no_bubbling (Ev := Call) res (falconEngineResult this)) as Hnb.
    destruct (addChild res (falconEngineResult this)) as [c1 s1 t1].
    cbn [completion after trace] in *.
    destruct c1 as [[]|y]; cbn [completion after trace setResult falconEngineResult].
    + split; [discriminate |].
      split; [exists res, []; exact Hch |].
      intros _ _. split; [reflexivity |]. exists res. exact Hch.
    + specialize (Hthrow y eq_refl). subst y.
      cbn [wrapRejectedPromise].
      pose proof (addChild_throws_this (Ev := Call) s1 s1) as Hthrow2.
      pose proof (addChild_children (Ev := Call) s1 s1) as Hch2.
      destruct (addChild s1 s1) as [c2 s2 t2].
      cbn [completion after trace] in *.
      split.
      { intros t Ht. now apply Hthrow2. }
      split.
      { exists res, [s1]. rewrite Hch2, Hch, <- app_assoc. reflexivity. }
      intros Hbe Hbf. specialize (Hnb Hbe Hbf). discriminate Hnb.
  - set (wrapped := wrapRejectedPromise x "ActionResult (REJECTED)" ACTION).
    pose proof (addChild_throws_this (Ev := Call) wrapped (falconEngineResult this)) as Hthrow.
    pose proof (addChild_children (Ev := Call) wrapped (falconEngineResult this)) as Hch.
    pose proof (addChild_no_bubbling (Ev := Call) wrapped (falconEngineResult this)) as Hnb.
    destruct (addChild wrapped (falconEngineResult this)) as [c1 s1 t1].
    cbn [completion after trace setResult falconEngineResult] in *.
    split; [exact Hthrow |].
    split; [exists wrapped, []; exact Hch |].
    intros Hbe Hbf. specialize (Hnb Hbe Hbf). injection Hnb as -> -> ->.
    split; [reflexivity |]. exists wrapped. reflexivity.
Qed.

End Engine.

End RunProperties.

(** ** Reading, compiling and running a recipe *)

Module RecipeRunFacts.
Import ResultFacts EffFacts ExecutionFacts RecipeFacts HoareFacts RunFacts.
Import SfdxFalconRecipe.

Lemma recipe_onSuccess_run child this :
  let added := addChild (Ev := Call) child (_falconRecipeResult this) in
  onSuccess child this
  = match completion added with
    | Throw t => MkRun (Throw t) (setRecipeResult (after added) this) []
    | Normal _ =>
        if isTerminal (status (after added))
        then MkRun (Throw (ThrownError doubleFinalization))
                   (setRecipeResult (after added) this) []
        else MkRun (Normal tt)
                   (setRecipeResult (withStatus SUCCESS (after added)) this) []
    end.
Proof.
  cbv zeta. unfold onSuccess, bind, onRecipeResult.
  pose proof (addChild_trace (Ev := Call) child (_falconRecipeResult this)) as Ht.
  destruct (addChild child (_falconRecipeResult this)) as [c s t].
  cbn [completion after trace] in *. subst t.
  destruct c as [[]|x]; cbn [completion after trace]; [| reflexivity].
  rewrite success_run. cbn [_falconRecipeResult setRecipeResult].
  destruct (isTerminal (status s)); reflexivity.
Qed.

Section WithDeps.
Context `{deps : RecipeDeps}.

(** The [then]/[catch] chain on the promise of the engine's [execute]. *)
Definition settleRecipe (engine : AppxRecipeEngine.Engine) (opts : JsValue)
  : RecipeM unit :=
  tryCatch
    (engineSuccessResponse <- engineExecute engine opts ;;
     onSuccess engineSuccessResponse)%eff
    (fun engineFailureResponse => onError engineFailureResponse).

Lemma settleRecipe_run engine opts this :
  let r := AppxRecipeEngine.execute opts engine in
  let s := settleRecipe engine opts this in
  trace s = trace r
  /\ (forall t, completion s = Throw t ->
        t = ThrownResult (_falconRecipeResult (after s)))
  /\ (forall u, completion s = Normal u ->
        exists res,
          completion r = Normal res
          /\ status (_falconRecipeResult (after s)) = SUCCESS
          /\ children (_falconRecipeResult (after s))
             = children (_falconRecipeResult this) ++ [res]).
Proof.
  cbv zeta. unfold settleRecipe, tryCatch.
  assert (Hinner :
    bind (engineExecute engine opts) (fun x => onSuccess x) this
    = let r := AppxRecipeEngine.execute opts engine in
      match completion r with
      | Normal res =>
          let o := onSuccess res (setEngine (Some (after r)) this) in
          MkRun (completion o) (after o) (trace r ++ trace o)
      | Throw x => MkRun (Throw x) (setEngine (Some (after r)) this) (trace r)
      end).
  { unfold bind, engineExecute. cbn [completion after trace].
    now destruct (completion (AppxRecipeEngine.execute opts engine)). }
  rewrite Hinner. clear Hinner. cbv zeta.
  destruct (AppxRecipeEngine.execute opts engine) as [c e tr].
  cbn [completion after trace].
  destruct c as [res|x]; cbn [completion after trace].
  - rewrite recipe_onSuccess_run. cbv zeta.
    cbn [_falconRecipeResult setEngine].
    pose proof (addChild_children (Ev := Call) res (_falconRecipeResult this)) as Hch.
    destruct (addChild res (_falconRecipeResult this)) as [c1 s1 t1].
    cbn [completion after trace] in *.
    destruct c1 as [[]|y]; cbn [completion after trace].
    + destruct (isTerminal (status s1)); cbn [completion after trace].
      * rewrite recipe_onError_run. cbn [completion after trace].
        split; [now rewrite !app_nil_r |].
        split; [intros t Ht; injection Ht as <-; reflexivity | discriminate].
      * split; [now rewrite app_nil_r |]. split; [discriminate |].
        intros _ _. exists res. split; [reflexivity |].
        split; [reflexivity | exact Hch].
    + rewrite recipe_onError_run. cbn [completion after trace].
      split; [now rewrite !app_nil_r |].
      split; [intros t Ht; injection Ht as <-; reflexivity | discriminate].
  - rewrite recipe_onError_run. cbn [completion after trace].
    split; [now rewrite !app_nil_r |].
    split; [intros t Ht; injection Ht as <-; reflexivity | discriminate].
Qed.

Lemma executeWith_settle engine opts this :
  executeWith engine opts this
  = let s := settleRecipe engine opts this in
    match completion s with
    | Normal _ =>
        MkRun (Normal (_falconRecipeResult (after s))) (after s)
              (trace s ++ [CallRenderSuccessMessage])
    | Throw t => MkRun (Throw t) (after s) (trace s)
    end.
Proof.
  cbv zeta. unfold executeWith. fold (settleRecipe engine opts).
  unfold renderSuccessMessage.
  destruct (completion (settleRecipe engine opts this)) as [[]|t] eqn:Hc.
  - rewrite (bind_normal _ _ _ _ Hc), bind_emit. reflexivity.
  - rewrite (bind_throw _ _ _ _ Hc). reflexivity.
Qed.

End WithDeps.

End RecipeRunFacts.

Module RecipeProperties.
Import ResultFacts EffFacts ExecutionFacts RecipeFacts HoareFacts RunFacts
  RecipeRunFacts.
Import SfdxFalconRecipe.

Section WithDeps.
Context `{deps : RecipeDeps}.

(** X12.  Every recipe object that [read] returns holds the loaded file
    unchanged, has all eight required keys, is of one of the two known
    recipe types, is marked validated, and is neither compiled nor bound to
    an engine.  So the type dispatch of [compile] never rejects a recipe
    that was read: a [compile] of it can only fail with what the engine's
    [compileRecipe] fails with. *)
Theorem read_gives_validated_recipe_of_known_type project loaded this :
  read project loaded = Normal this ->
  loaded = Normal (_json this)
  /\ Spec.missingKeys (_json this) = []
  /\ (isType (recipeType (_json this)) APPX_DEMO = true
      \/ isType (recipeType (_json this)) APPX_PACKAGE = true)
  /\ _validated this = true
  /\ _compiled this = None
  /\ _recipeEngine this = None
  /\ _projectContext this = project
  /\ forall opts e,
       completion (compile opts this) = Throw e ->
       isType (recipeType (_json this)) APPX_DEMO = true
       /\ compileRecipe this opts = Throw e.
Proof.
  unfold read. destruct loaded as [json|x]; [| discriminate].
  unfold validate.
  rewrite ValidationClaims.validateTopLevelProperties_run.
  destruct (Spec.missingKeys json) as [|k ks] eqn:Hk; [| discriminate].
  destruct (isType (recipeType json) APPX_DEMO) eqn:Hd.
  - destruct (validateRecipe json); [| discriminate].
    intros [= <-]. cbn [_json _validated _compiled _recipeEngine _projectContext].
    do 7 (split; [auto; fail |]).
    intros opts e. unfold compile, bind, get, emit, lift, modify.
    cbn [completion after trace _json]. rewrite Hd.
    cbn [completion after trace].
    match goal with |- context [compileRecipe ?r opts] =>
      destruct (compileRecipe r opts) as [eng|y]
    end; cbn [completion after trace]; [discriminate |].
    intros [= <-]. split; reflexivity.
  - destruct (isType (recipeType json) APPX_PACKAGE) eqn:Hp; [| discriminate].
    intros [= <-]. cbn [_json _validated _compiled _recipeEngine _projectContext].
    do 7 (split; [auto; fail |]).
    intros opts e. unfold compile, bind, get, emit, lift, modify, ret.
    cbn [completion after trace _json]. rewrite Hd, Hp.
    cbn [completion after trace]. discriminate.
Qed.

(** X13.  A recipe of the package type reads and compiles, but [compile]
    binds no engine to it (the branch is empty), so it can never be run:
    after a [compile] that succeeds without a single call, every [execute]
    fails with a TypeError, not with a result node, and leaves the recipe as
    it is. *)
Theorem package_recipe_compiles_but_cannot_run project loaded this opts :
  read project loaded = Normal this ->
  recipeType (_json this) = JsString APPX_PACKAGE ->
  APPX_DEMO <> APPX_PACKAGE ->
  let c := compile opts this in
  completion c = Normal tt
  /\ trace c = []
  /\ _compiled (after c) = Some true
  /\ _recipeEngine (after c) = None
  /\ forall executionOptions,
       exists e,
         execute executionOptions (after c)
         = MkRun (Throw (ThrownError e)) (after c) []
         /\ errCtor e = "TypeError".
Proof.
  intros Hread Hty Hneq. cbv zeta.
  assert (He : _recipeEngine this = None).
  { unfold read in Hread. destruct loaded; [| discriminate].
    destruct (validate a); [| discriminate]. now injection Hread as <-. }
  assert (Hd : isType (recipeType (_json this)) APPX_DEMO = false).
  { rewrite Hty. cbn. apply String.eqb_neq. congruence. }
  assert (Hp : isType (recipeType (_json this)) APPX_PACKAGE = true).
  { rewrite Hty. cbn. apply String.eqb_refl. }
  unfold compile, bind, get, emit, lift, modify, ret.
  cbn [completion after trace]. rewrite Hd, Hp.
  cbn [completion after trace app setCompiled setRecipeDetail _recipeEngine
       _compiled].
  rewrite He.
  split; [reflexivity |]. split; [reflexivity |]. split; [reflexivity |].
  split; [reflexivity |].
  intros o. eexists. split.
  - unfold execute, bind, get, raise.
    cbn [completion after trace app setCompiled setRecipeDetail _recipeEngine
         _compiled isTrue negb].
    rewrite He. reflexivity.
  - reflexivity.
Qed.

(** X14.  A run of a compiled recipe renders the success message exactly
    when it succeeds.  When [execute] returns, the engine's [execute] has
    returned too, the calls were the engine's three followed by the
    rendering of the success message, and the value returned is the
    recipe's own result, in SUCCESS status, with the engine's result as its
    newest child.  When [execute] fails, the success message is never
    rendered and the calls are those the engine's [execute] made. *)
Theorem recipe_execute_renders_success_only_on_success opts this engine :
  _compiled this = Some true ->
  _recipeEngine this = Some engine ->
  let r := execute opts this in
  (forall res, completion r = Normal res ->
     res = _falconRecipeResult (after r)
     /\ status res = SUCCESS
     /\ (exists engineResult,
           completion (AppxRecipeEngine.execute opts engine) = Normal engineResult
           /\ children res = children (_falconRecipeResult this) ++ [engineResult])
     /\ trace r = [CallStartExecution; CallExecuteEngine; CallEndExecution;
                   CallRenderSuccessMessage])
  /\ (forall t, completion r = Throw t ->
        trace r = trace (AppxRecipeEngine.execute opts engine)
        /\ ~ In CallRenderSuccessMessage (trace r)).
Proof.
  intros Hc He. cbv zeta.
  rewrite (recipe_execute_compiled opts this engine Hc He), executeWith_settle.
  cbv zeta.
  destruct (settleRecipe_run engine opts this) as (Htr & _ & Hok).
  destruct (completion (settleRecipe engine opts this)) as [[]|x];
    cbn [completion after trace].
  - split; [| discriminate].
    intros res [= <-].
    destruct (Hok tt eq_refl) as (er & Her & Hst & Hch).
    split; [reflexivity |]. split; [exact Hst |].
    split; [exists er; auto |].
    rewrite Htr.
    destruct (engine_execute_traces opts engine)
      as [(t & Ht & _) | (res' & _ & Htrace)]; [congruence |].
    rewrite Htrace. reflexivity.
  - split; [discriminate |].
    intros t _. split; [exact Htr |].
    rewrite Htr.
    destruct (engine_execute_traces opts engine)
      as [(t' & _ & [Ht | Ht]) | (res' & _ & Ht)]; rewrite Ht; cbn;
      intuition discriminate.
Qed.

End WithDeps.

End RecipeProperties.

(** ** The command layer: initialisation and its failure modes *)

Module CommandProperties.
Import SfdxFalconCommand ResultFacts EffFacts HoareFacts.

(** The placeholder that [sfdxFalconCommandInit] stores as JSON response. *)
Definition responseNotSpecified : SfdxFalconJsonResponse :=
  MkJsonResponse 0 (JsString "RESPONSE_NOT_SPECIFIED").

Lemma onCommandResult_preserves {A} (m : ResultM Call A) :
  preserves falconJsonResponse (onCommandResult m).
Proof.
  intros s. unfold onCommandResult.
  destruct (falconCommandResult s); reflexivity.
Qed.

Lemma command_onError_preserves rejected :
  preserves falconJsonResponse (onError rejected).
Proof.
  unfold onError. apply preserves_bind; [apply preserves_get |]. intros this.
  destruct (falconCommandResultDetail this) as [d|]; [| apply preserves_raise].
  apply preserves_bind; [now apply preserves_modify |]. intros _.
  do 3 (apply preserves_bind; [apply onCommandResult_preserves |]; intros _).
  apply preserves_bind; [| intros _; apply preserves_emit].
  destruct (falconDebugErrorFlag this); [apply preserves_emit | apply preserves_ret].
Qed.

Lemma command_onSuccess_preserves res :
  preserves falconJsonResponse (onSuccess res).
Proof.
  unfold onSuccess.
  apply preserves_bind; [apply onCommandResult_preserves |]. intros _.
  apply preserves_bind; [apply preserves_get |]. intros this.
  apply preserves_bind; [apply onCommandResult_preserves |]. intros _.
  destruct (falconDebugSuccessFlag this); [apply preserves_emit | apply preserves_ret].
Qed.

Section WithDeps.
Context `{deps : CommandDeps}.

Lemma sfdxFalconCommandInit_parsed cmdName cmdType this parsed :
  jsonParse (orString (Types.extendedOptions (flags this)) "{}") = Normal parsed ->
  let r := sfdxFalconCommandInit cmdName cmdType this in
  let f := flags this in
  exists enabled,
    falconCommandResult (after r)
    = Some (create (CommandClaims.commandNameOrDefault cmdName) COMMAND true false false)
    /\ falconCommandResultDetail (after r)
       = Some (MkCommandDetail (CommandClaims.commandNameOrDefault cmdName) cmdType
                               f (args this) 0 enabled)
    /\ extendedOptions (after r) = Some parsed
    /\ trace r = [CallEnableDebuggers enabled]
    /\ completion r
       = if negb (validateLocalPath (pathResolve (orString (outputdir f) ".")))
         then Throw (ThrownError (newError (getMessage "errInvalidDirectory" ["Output "])))
         else if negb (validateLocalPath (pathResolve (orString (projectdir f) ".")))
         then Throw (ThrownError (newError (getMessage "errInvalidDirectory" ["Project "])))
         else if negb (validateLocalPath (pathResolve (orString (targetdir f) ".")))
         then Throw (ThrownError (newError (getMessage "errInvalidDirectory" ["Target "])))
         else Normal tt.
Proof.
  intros Hp. cbv zeta.
  unfold sfdxFalconCommandInit, bind, get, modify, lift, emit, raise, ret.
  cbn [completion after trace flags args]. rewrite Hp.
  cbn [completion after trace app].
  eexists.
  destruct (validateLocalPath (pathResolve (orString (outputdir (flags this)) ".")));
    cbn [negb completion after trace app falconCommandResult
         falconCommandResultDetail extendedOptions].
  2:{ repeat split. }
  destruct (validateLocalPath (pathResolve (orString (projectdir (flags this)) ".")));
    cbn [negb completion after trace app falconCommandResult
         falconCommandResultDetail extendedOptions].
  2:{ repeat split. }
  destruct (validateLocalPath (pathResolve (orString (targetdir (flags this)) ".")));
    cbn [negb completion after trace app falconCommandResult
         falconCommandResultDetail extendedOptions];
    repeat split.
Qed.

(** X15.  If the extended options of a new command cannot be parsed,
    [sfdxFalconCommandInit] fails with the parser's error before it has
    built the COMMAND result, its detail, or enabled any debugger.  The
    command's own handlers cannot deal with that state: [onError] and
    [onSuccess] both fail with a TypeError, and [onError] never gets to
    terminate with the error. *)
Theorem unparsable_options_leave_no_command_result cmdName cmdType f a x :
  jsonParse (orString (Types.extendedOptions f) "{}") = Throw x ->
  let r := sfdxFalconCommandInit cmdName cmdType (newCommand f a) in
  completion r = Throw x
  /\ trace r = []
  /\ falconCommandResult (after r) = None
  /\ falconCommandResultDetail (after r) = None
  /\ (forall rejected,
        (exists e, completion (onError rejected (after r)) = Throw (ThrownError e)
                   /\ errCtor e = "TypeError")
        /\ trace (onError rejected (after r)) = [])
  /\ (forall res,
        exists e, completion (onSuccess res (after r)) = Throw (ThrownError e)
                  /\ errCtor e = "TypeError").
Proof.
  intros Hp. cbv zeta.
  unfold sfdxFalconCommandInit, bind, get, modify, lift, emit, raise, ret.
  cbn [completion after trace flags args newCommand]. rewrite Hp.
  cbn [completion after trace app falconCommandResult falconCommandResultDetail].
  split; [reflexivity |]. split; [reflexivity |]. split; [reflexivity |].
  split; [reflexivity |]. split.
  - intros rejected. split; [eexists; split; reflexivity | reflexivity].
  - intros res. eexists. split; reflexivity.
Qed.

(** X16.  Once the extended options parse, [sfdxFalconCommandInit] builds
    the COMMAND result and its detail (exit code 0) and enables the
    debuggers before it checks any path, whether or not a check fails.  It
    completes exactly when the output, project and target directories are
    all valid local paths (the recipe and config files are not checked),
    and otherwise fails with the invalid-directory message for the first of
    the three that is not.  In either case [onError] can then finalize the
    command: it completes, marks the COMMAND result ERROR with exit code 1
    and terminates with the error. *)
Theorem invalid_directory_is_reported_after_result_is_built
        cmdName cmdType this parsed :
  jsonParse (orString (Types.extendedOptions (flags this)) "{}") = Normal parsed ->
  let f := flags this in
  let out := pathResolve (orString (outputdir f) ".") in
  let prj := pathResolve (orString (projectdir f) ".") in
  let tgt := pathResolve (orString (targetdir f) ".") in
  let r := sfdxFalconCommandInit cmdName cmdType this in
  (completion r = Normal tt
   <-> validateLocalPath out = true /\ validateLocalPath prj = true
       /\ validateLocalPath tgt = true)
  /\ (validateLocalPath out = false ->
      completion r
      = Throw (ThrownError (newError (getMessage "errInvalidDirectory" ["Output "]))))
  /\ (validateLocalPath out = true -> validateLocalPath prj = false ->
      completion r
      = Throw (ThrownError (newError (getMessage "errInvalidDirectory" ["Project "]))))
  /\ (validateLocalPath out = true -> validateLocalPath prj = true ->
      validateLocalPath tgt = false ->
      completion r
      = Throw (ThrownError (newError (getMessage "errInvalidDirectory" ["Target "]))))
  /\ (exists d, falconCommandResultDetail (after r) = Some d
                /\ commandExitCode d = 0%Z
                /\ trace r = [CallEnableDebuggers (enabledDebuggers d)])
  /\ (exists res, falconCommandResult (after r) = Some res
                  /\ type res = COMMAND /\ status res = RUNNING)
  /\ (forall rejected,
        let h := onError rejected (after r) in
        completion h = Normal tt
        /\ In CallTerminateWithError (trace h)
        /\ (exists res d, falconCommandResult (after h) = Some res
                          /\ status res = ERROR
                          /\ falconCommandResultDetail (after h) = Some d
                          /\ commandExitCode d = 1%Z)).
Proof.
  intros Hp. cbv zeta.
  destruct (sfdxFalconCommandInit_parsed cmdName cmdType this parsed Hp)
    as (enabled & Hres & Hd & _ & Htr & Hc).
  cbv zeta in Hres, Hd, Htr, Hc.
  set (r := sfdxFalconCommandInit cmdName cmdType this) in *.
  rewrite Hc.
  destruct (validateLocalPath (pathResolve (orString (outputdir (flags this)) ".")));
  destruct (validateLocalPath (pathResolve (orString (projectdir (flags this)) ".")));
  destruct (validateLocalPath (pathResolve (orString (targetdir (flags this)) ".")));
    cbn [negb];
    (split; [split; [try discriminate; auto | intros (? & ? & ?); congruence] |]);
    (split; [intros; congruence |]);
    (split; [intros; congruence |]);
    (split; [intros; congruence |]);
    (split; [eexists; split; [exact Hd |]; split; [reflexivity | exact Htr] |]);
    (split; [eexists; split; [exact Hres |]; split; reflexivity |]);
    intros rejected;
    rewrite (CommandClaims.command_onError_run rejected (after r) _ _ Hres Hd
               eq_refl eq_refl eq_refl);
    cbn [completion after trace];
    (split; [reflexivity |]);
    (split; [destruct (falconDebugErrorFlag (after r)); cbn; tauto |]);
    do 2 eexists; repeat split.
Qed.

End WithDeps.

(** X17.  The JSON response of a command is never filled in:
    [sfdxFalconCommandInit] always stores the placeholder
    RESPONSE_NOT_SPECIFIED with status 0, even when it fails, and neither
    [onError] nor [onSuccess] ever changes what is stored. *)
Theorem json_response_is_only_a_placeholder :
  (forall (deps : CommandDeps) cmdName cmdType this,
      falconJsonResponse (after (sfdxFalconCommandInit cmdName cmdType this))
      = Some responseNotSpecified)
  /\ (forall rejected this,
        falconJsonResponse (after (onError rejected this)) = falconJsonResponse this)
  /\ (forall res this,
        falconJsonResponse (after (onSuccess res this)) = falconJsonResponse this).
Proof.
  split; [| split].
  - intros deps cmdName cmdType this.
    unfold sfdxFalconCommandInit, bind, get, modify, lift, emit, raise, ret.
    cbn [completion after trace flags args].
    destruct (jsonParse _); cbn [completion after trace]; [| reflexivity].
    destruct (validateLocalPath _); cbn; [| reflexivity].
    destruct (validateLocalPath _); cbn; [| reflexivity].
    destruct (validateLocalPath _); cbn; reflexivity.
  - intros rejected this. apply command_onError_preserves.
  - intros res this. apply command_onSuccess_preserves.
Qed.

End CommandProperties.

(** ** Utilities and the console table helper *)

Module HelperFacts.
Import UxHelper.

Lemma jsLength_append s t :
  jsLength (String.append s t) = (jsLength s + jsLength t)%nat.
Proof.
  induction s as [|c s IH]; [reflexivity |].
  change (String.append (String c s) t) with (String c (String.append s t)).
  cbn [jsLength]. rewrite IH. lia.
Qed.

(** On text of the ASCII range the length is the number of bytes. *)
Lemma jsLength_ascii s :
  (forall c, In c (list_ascii_of_string s) -> (nat_of_ascii c < 128)%nat) ->
  jsLength s = String.length s.
Proof.
  induction s as [|c s IH]; [reflexivity |]. intros H.
  cbn [jsLength String.length]. rewrite IH.
  - unfold utf16Units. cbv zeta.
    assert (Hc : (nat_of_ascii c < 128)%nat) by (apply H; now left).
    apply Nat.ltb_lt in Hc. now rewrite Hc.
  - intros c' Hc'. apply H. now right.
Qed.

Lemma utf16Units_lineBreak c : isLineBreak c = true -> utf16Units c = 1%nat.
Proof.
  unfold isLineBreak, utf16Units. cbv zeta. intros H.
  apply orb_true_iff in H as [H | H]; apply Nat.eqb_eq in H; now rewrite H.
Qed.

Lemma append_empty s : String.append s EmptyString = s.
Proof.
  induction s as [|c s IH]; [reflexivity |].
  change (String.append (String c s) EmptyString)
    with (String c (String.append s EmptyString)).
  now rewrite IH.
Qed.

Lemma jsLength_spaces n : jsLength (spaces n) = n.
Proof.
  induction n as [|n IH]; [reflexivity |].
  cbn [spaces jsLength]. rewrite IH. reflexivity.
Qed.

Lemma splitLinesFrom_nonempty s b : splitLinesFrom s b <> [].
Proof.
  revert b. induction s as [|c s IH]; intros b; cbn; [discriminate |].
  destruct (isLineBreak c).
  - destruct b; [apply IH | discriminate].
  - destruct (splitLinesFrom s false); discriminate.
Qed.

Lemma splitLinesFrom_lengths s b :
  (list_sum (map jsLength (splitLinesFrom s b)) <= jsLength s)%nat.
Proof.
  unfold list_sum.
  revert b. induction s as [|c s IH]; intros b.
  - cbn. lia.
  - cbn [splitLinesFrom jsLength].
    destruct (isLineBreak c) eqn:Hc.
    + rewrite (utf16Units_lineBreak c Hc).
      specialize (IH true). destruct b; cbn [map fold_right jsLength] in *; lia.
    + specialize (IH false).
      destruct (splitLinesFrom s false) as [|line lines];
        cbn [map fold_right jsLength] in *; lia.
Qed.

Lemma splitLinesFrom_no_break s b line :
  In line (splitLinesFrom s b) ->
  forall c, In c (list_ascii_of_string line) -> isLineBreak c = false.
Proof.
  revert b line. induction s as [|c s IH]; intros b line; cbn.
  - intros [<- | []] c' [].
  - destruct (isLineBreak c) eqn:Hc.
    + destruct b.
      * apply IH.
      * intros [<- | H]; [intros c' [] | now apply IH with (b := true)].
    + pose proof (IH false) as IH'.
      destruct (splitLinesFrom s false) as [|l ls].
      * intros [<- | []] c' [<- | []]. exact Hc.
      * intros [<- | H] c' Hin.
        -- destruct Hin as [<- | Hin]; [exact Hc |].
           apply (IH' l); [now left | exact Hin].
        -- apply (IH' line); [now right | exact Hin].
Qed.

Lemma maxOf_bound l x : In x l -> (x <= maxOf l)%nat.
Proof.
  unfold maxOf. induction l as [|y l IH]; cbn; [tauto |].
  intros [<- | H]; [lia | specialize (IH H); lia].
Qed.

Lemma maxOf_attained l : l <> [] -> In (maxOf l) l.
Proof.
  unfold maxOf. induction l as [|y l IH]; [congruence |]. intros _.
  cbn [fold_right].
  destruct l as [|z l'].
  - left. cbn. lia.
  - destruct (Nat.max_spec y (fold_right Nat.max 0%nat (z :: l')))
      as [[_ ->] | [_ ->]].
    + right. apply IH. discriminate.
    + now left.
Qed.

Lemma maxOf_sum l : (maxOf l <= list_sum l)%nat.
Proof. unfold list_sum, maxOf. induction l as [|y l IH]; cbn; lia. Qed.

End HelperFacts.

Module HelperProperties.
Import UxHelper SfdxFalconUtil HelperFacts.

(** The default column keys of a key/value table. *)
Definition defaultColumnKeys : list TableColumnKey :=
  [MkColumnKey "option" (Some "OPTIONS"); MkColumnKey "value" (Some "VALUES")].

(** X18.  [createUniqueUsername] returns exactly when a base username is
    given and its length, in UTF-16 code units as [.length] counts them, is
    at most 35, and then returns the base with the UUID appended unchanged:
    the base is a prefix of the result and the result is never longer than
    35 code units plus the UUID.  Without a base it fails with
    ERROR_INVALID_ARGUMENT, with a longer base with ERROR_USERNAME_LENGTH. *)
Theorem createUniqueUsername_appends_uuid_to_short_base uuid base :
  (forall name,
      createUniqueUsername uuid base = Normal name
      <-> exists b, base = Some b /\ (jsLength b <= 35)%nat
                    /\ name = String.append b uuid)
  /\ (forall name,
        createUniqueUsername uuid base = Normal name ->
        (jsLength name <= 35 + jsLength uuid)%nat
        /\ exists b, base = Some b /\ String.prefix b name = true)
  /\ (base = None ->
      createUniqueUsername uuid base
      = Throw (ThrownError (newError
          "ERROR_INVALID_ARGUMENT: Expected a value for baseUsername but got undefined")))
  /\ (forall b, base = Some b -> (35 < jsLength b)%nat ->
        createUniqueUsername uuid base
        = Throw (ThrownError (newError
            "ERROR_USERNAME_LENGTH: Username can not be longer than 35 chars to keep room for appending a UUID"))).
Proof.
  assert (Hiff : forall name,
      createUniqueUsername uuid base = Normal name
      <-> exists b, base = Some b /\ (jsLength b <= 35)%nat
                    /\ name = String.append b uuid).
  { intros name. unfold createUniqueUsername. cbv zeta.
    destruct base as [b|].
    - destruct (35 <? jsLength b)%nat eqn:Hl.
      + apply Nat.ltb_lt in Hl. split; [discriminate |].
        intros (b' & [= <-] & Hle & _). lia.
      + apply Nat.ltb_ge in Hl. split.
        * intros [= <-]. exists b. auto.
        * intros (b' & [= <-] & _ & ->). reflexivity.
    - split; [discriminate | intros (b & H & _); discriminate H]. }
  split; [exact Hiff |]. split; [| split].
  - intros name H. apply Hiff in H as (b & -> & Hle & ->).
    rewrite jsLength_append. split; [lia |].
    exists b. split; [reflexivity | apply ValidatorFacts.prefix_append].
  - intros ->. reflexivity.
  - intros b -> Hl. unfold createUniqueUsername. cbv zeta.
    apply Nat.ltb_lt in Hl. rewrite Hl. reflexivity.
Qed.

Section WithStripAnsi.
Variable stripAnsi : string -> string.

(** X19.  [pad] never truncates and never pads a cell that is wide enough:
    the cell is a prefix of the result, exactly the missing number of
    spaces is appended, and a cell whose visible width is at least the
    requested one comes back unchanged; widths are lengths in UTF-16 code
    units, as [.length] counts them.  If stripping ANSI codes leaves
    appended spaces alone, the visible width of the result is the larger of
    the requested width and the cell's own visible width. *)
Theorem pad_fills_up_to_the_visible_width s len :
  let visible := Z.of_nat (jsLength (stripAnsi s)) in
  String.prefix s (pad stripAnsi s len) = true
  /\ jsLength (pad stripAnsi s len)
     = (jsLength s + Z.to_nat (len - visible))%nat
  /\ ((len <= visible)%Z -> pad stripAnsi s len = s)
  /\ ((forall t n, stripAnsi (String.append t (spaces n))
                   = String.append (stripAnsi t) (spaces n)) ->
      Z.of_nat (jsLength (stripAnsi (pad stripAnsi s len)))
      = Z.max len visible).
Proof.
  cbv zeta. unfold pad. cbv zeta.
  set (visible := Z.of_nat (jsLength (stripAnsi s))).
  split; [apply ValidatorFacts.prefix_append |].
  split.
  { rewrite jsLength_append, jsLength_spaces. f_equal. lia. }
  split.
  { intros Hle. replace (Z.to_nat (Z.max 0 (len - visible))) with 0%nat by lia.
    apply append_empty. }
  intros Hstrip. rewrite Hstrip, jsLength_append, jsLength_spaces.
  fold visible. lia.
Qed.

(** X20.  [calcWidth] is the length of the longest line of the cell once
    its ANSI codes are stripped, lengths being counted in UTF-16 code units
    as [.length] counts them: the split at line breaks never gives an empty
    list, no line holds a line break, every line is at most [calcWidth]
    long and one line is exactly that long; so the width never exceeds the
    length of the stripped cell. *)
Theorem calcWidth_is_the_longest_line cell :
  let lines := splitLines (stripAnsi cell) in
  lines <> []
  /\ (forall line c, In line lines -> In c (list_ascii_of_string line) ->
                     isLineBreak c = false)
  /\ (forall line, In line lines ->
                   (jsLength line <= calcWidth stripAnsi cell)%nat)
  /\ (exists line, In line lines
                   /\ jsLength line = calcWidth stripAnsi cell)
  /\ (calcWidth stripAnsi cell <= jsLength (stripAnsi cell))%nat.
Proof.
  cbv zeta. unfold calcWidth, splitLines. cbv zeta.
  set (lines := splitLinesFrom (stripAnsi cell) false).
  assert (Hne : lines <> []) by apply splitLinesFrom_nonempty.
  split; [exact Hne |]. split; [| split; [| split]].
  - intros line c Hl Hc. exact (splitLinesFrom_no_break _ _ _ Hl c Hc).
  - intros line Hl. apply maxOf_bound. now apply in_map.
  - assert (Hm : In (maxOf (map jsLength lines)) (map jsLength lines)).
    { apply maxOf_attained. destruct lines; [congruence | discriminate]. }
    apply in_map_iff in Hm as (line & Hlen & Hin). eauto.
  - etransitivity; [apply maxOf_sum |]. apply splitLinesFrom_lengths.
Qed.

End WithStripAnsi.

(** X21.  A key/value table never uses column keys passed by the caller:
    the constructor stores column keys only in the branch that takes the
    defaults, so two keys of the caller's leave the columns undefined, and
    any other argument gives the two default columns.  The column separator
    is the caller's, or one space. *)
Theorem custom_column_keys_are_never_used keys sep :
  let t := newKeyValueTable keys sep in
  columns t = tableColumnKeys t
  /\ (columns t = None <-> exists ks, keys = Some ks /\ length ks = 2%nat)
  /\ (columns t <> None -> columns t = Some defaultColumnKeys)
  /\ (forall ks, keys = Some ks -> columns t <> Some ks)
  /\ colSep t = match sep with Some s => s | None => " " end.
Proof.
  cbv zeta. unfold newKeyValueTable. cbv zeta. cbn [columns tableColumnKeys colSep].
  split; [reflexivity |].
  destruct keys as [ks|].
  - destruct (Nat.eqb (length ks) 2) eqn:Hl; cbn [negb].
    + apply Nat.eqb_eq in Hl.
      split; [split; [eauto | reflexivity] |].
      split; [congruence |]. split; [discriminate | reflexivity].
    + apply Nat.eqb_neq in Hl.
      split; [split; [discriminate | intros (ks' & [= <-] & H); contradiction] |].
      split; [reflexivity |]. split; [| reflexivity].
      intros ks' [= <-] [= <-]. apply Hl. reflexivity.
  - split; [split; [discriminate | intros (ks & H & _); discriminate H] |].
    split; [reflexivity |]. split; [discriminate | reflexivity].
Qed.

End HelperProperties.

(** ** The further properties on the demo engine, recipe and command *)

Module PropertyExamples.
Import Demo.

(** The demo recipe with [options] set to [null] fails with a TypeError. *)
Lemma validateOuterRecipe_errors_witness :
  AppxRecipeValidation.validateOuterRecipe jsonWithNullOptions
  = Throw (AppxRecipeValidation.typeErrorNull "skipGroups")
  /\ (Spec.isInvalidRecipe (AppxRecipeValidation.typeErrorNull "skipGroups")
      \/ (SfdxFalconRecipe.options jsonWithNullOptions = JsNull
          /\ AppxRecipeValidation.typeErrorNull "skipGroups"
             = AppxRecipeValidation.typeErrorNull "skipGroups")
      \/ (exists orgs,
            AppxRecipeValidation.propOf (SfdxFalconRecipe.options jsonWithNullOptions)
                                        "targetOrgs" = JsArray orgs
            /\ ((In JsUndefined orgs
                 /\ AppxRecipeValidation.typeErrorNull "skipGroups"
                    = AppxRecipeEngine.typeErrorUndefined "orgName")
                \/ (In JsNull orgs
                    /\ AppxRecipeValidation.typeErrorNull "skipGroups"
                       = AppxRecipeValidation.typeErrorNull "orgName")))
      \/ (exists groups,
            SfdxFalconRecipe.recipeStepGroups jsonWithNullOptions = JsArray groups
            /\ ((In JsUndefined groups
                 /\ AppxRecipeValidation.typeErrorNull "skipGroups"
                    = AppxRecipeEngine.typeErrorUndefined "stepGroupName")
                \/ (In JsNull groups
                    /\ AppxRecipeValidation.typeErrorNull "skipGroups"
                       = AppxRecipeValidation.typeErrorNull "stepGroupName")))).
Proof.
  assert (H : AppxRecipeValidation.validateOuterRecipe jsonWithNullOptions
              = Throw (AppxRecipeValidation.typeErrorNull "skipGroups"))
    by reflexivity.
  split; [exact H |].
  exact (ValidatorProperties.validateOuterRecipe_errors jsonWithNullOptions _ H).
Defined.

(** A complete recipe file passes the schema checks of the engine. *)
Example complete_recipe_is_accepted :
  AppxRecipeValidation.validateOuterRecipe completeJson = Normal tt.
Proof. reflexivity. Qed.

Lemma successful_compile_has_registry_witness :
  completion (AppxRecipeEngine.compile demoRecipe JsNull freshEngine) = Normal tt
  /\ exists m,
       AppxRecipeEngine.actionExecutorMap compiledEngine = Some m
       /\ m <> ∅
       /\ Spec.registryNonEmpty compiledEngine = true
       /\ supportedActions (AppxRecipeEngine.falconEngineResultDetail compiledEngine)
          = Some (dom m).
Proof.
  split; [reflexivity |].
  pose proof (PlanProperties.successful_compile_has_registry (impl := demoEngine)
                demoRecipe JsNull freshEngine) as H.
  specialize (H eq_refl). exact H.
Defined.

Lemma plan_is_prebuild_recipe_postbuild_witness :
  completion (AppxRecipeEngine.compile demoRecipe JsNull freshEngine) = Normal tt
  /\ exists pre rcp' post planPre planRecipe planPost,
       AppxRecipeEngine.preBuildStepGroups compiledEngine = Some pre
       /\ AppxRecipeEngine.recipe compiledEngine = Some rcp'
       /\ AppxRecipeEngine.postBuildStepGroups compiledEngine = Some post
       /\ AppxRecipeEngine.compileParentTasks compiledEngine pre = Normal planPre
       /\ AppxRecipeEngine.compileParentTasks compiledEngine
            (AppxRecipeEngine.recipeStepGroups rcp') = Normal planRecipe
       /\ AppxRecipeEngine.compileParentTasks compiledEngine post = Normal planPost
       /\ AppxRecipeEngine.listrTasks compiledEngine
          = Some (planPre ++ planRecipe ++ planPost).
Proof.
  split; [reflexivity |].
  pose proof (PlanProperties.plan_is_prebuild_recipe_postbuild (impl := demoEngine)
                demoRecipe JsNull freshEngine) as H.
  specialize (H eq_refl). exact H.
Defined.

Lemma compiled_parent_tasks_have_subtasks_witness :
  completion (AppxRecipeEngine.compile demoRecipe JsNull freshEngine) = Normal tt
  /\ exists plan,
       AppxRecipeEngine.listrTasks compiledEngine = Some plan
       /\ forall t, In t plan ->
            AppxRecipeEngine.parentTitle t
            = stepGroupName (AppxRecipeEngine.parentGroup t)
            /\ exists sub subs,
                 AppxRecipeEngine.runParentTask t compiledEngine
                 = MkRun (Normal (sub :: subs)) compiledEngine [].
Proof.
  split; [reflexivity |].
  pose proof (PlanProperties.compiled_parent_tasks_have_subtasks (impl := demoEngine)
                demoRecipe JsNull freshEngine) as H.
  specialize (H eq_refl). exact H.
Defined.

(** Skipping group A as well empties the demo plan. *)
Lemma larger_skip_lists_filter_the_plan_witness :
  incl ["B"] ["A"; "B"]
  /\ exists plan plan',
       AppxRecipeEngine.compileParentTasks compiledEngine [groupA; groupB; groupC]
       = Normal plan
       /\ AppxRecipeEngine.compileParentTasks engineSkippingGroupA
            [groupA; groupB; groupC] = Normal plan'
       /\ plan' = List.filter
                    (fun t => Spec.groupAppears ["A"; "B"] ["skipped-action"]
                                (AppxRecipeEngine.parentGroup t)) plan
       /\ incl plan' plan.
Proof.
  assert (Hg : incl ["B"] ["A"; "B"]).
  { intros x [<- | []]. right. now left. }
  split; [exact Hg |].
  pose proof (PlanProperties.larger_skip_lists_filter_the_plan
                compiledEngine engineSkippingGroupA
                ["B"] ["skipped-action"] ["A"; "B"] ["skipped-action"]
                [groupA; groupB; groupC]) as H.
  specialize (H eq_refl). specialize (H eq_refl).
  specialize (H eq_refl). specialize (H eq_refl).
  specialize (H Hg). specialize (H (incl_refl _)). exact H.
Defined.

(** The demo engine's Listr run rejects: two calls, no closing work. *)
Lemma engine_execute_call_order_witness :
  AppxRecipeEngine.listrTasks compiledEngine
  = Some [AppxRecipeEngine.MkParentTask "Group A" groupA]
  /\ exists t,
       completion (AppxRecipeEngine.execute JsNull compiledEngine) = Throw t
       /\ trace (AppxRecipeEngine.execute JsNull compiledEngine)
          = [CallStartExecution; CallExecuteEngine]
       /\ ~ In CallEndExecution (trace (AppxRecipeEngine.execute JsNull compiledEngine)).
Proof.
  split; [reflexivity |].
  pose proof (RunProperties.engine_execute_call_order (impl := demoEngine) JsNull
                compiledEngine [AppxRecipeEngine.MkParentTask "Group A" groupA]) as H.
  specialize (H eq_refl). cbv zeta in H. destruct H as (_ & H & _).
  destruct (completion (AppxRecipeEngine.execute JsNull compiledEngine))
    as [res|t] eqn:Hc; [vm_compute in Hc; discriminate |].
  exists t. split; [reflexivity |]. exact (H t eq_refl).
Defined.

(** With an engine whose Listr run resolves, all three calls are made. *)
Example engine_execute_success_path :
  exists res,
    completion (AppxRecipeEngine.execute (impl := engineThatResolves) JsNull compiledEngine)
    = Normal res
    /\ status res = SUCCESS
    /\ trace (AppxRecipeEngine.execute (impl := engineThatResolves) JsNull compiledEngine)
       = [CallStartExecution; CallExecuteEngine; CallEndExecution].
Proof. eexists. vm_compute. repeat split. Qed.

Lemma read_gives_validated_recipe_witness :
  SfdxFalconRecipe.read demoProject (Normal demoJson) = Normal freshRecipe
  /\ Spec.missingKeys demoJson = []
  /\ SfdxFalconRecipe._validated freshRecipe = true
  /\ SfdxFalconRecipe._recipeEngine freshRecipe = None.
Proof.
  assert (H : SfdxFalconRecipe.read demoProject (Normal demoJson) = Normal freshRecipe)
    by reflexivity.
  split; [exact H |].
  destruct (RecipeProperties.read_gives_validated_recipe_of_known_type
              demoProject (Normal demoJson) freshRecipe H)
    as (_ & Hk & _ & Hv & _ & He & _).
  split; [exact Hk |]. split; [exact Hv | exact He].
Defined.

Lemma package_recipe_cannot_run_witness :
  SfdxFalconRecipe.read demoProject (Normal packageJson) = Normal packageRecipe
  /\ completion (SfdxFalconRecipe.compile JsNull packageRecipe) = Normal tt
  /\ exists e,
       completion (SfdxFalconRecipe.execute JsNull
                     (after (SfdxFalconRecipe.compile JsNull packageRecipe)))
       = Throw (ThrownError e)
       /\ errCtor e = "TypeError".
Proof.
  assert (H : SfdxFalconRecipe.read demoProject (Normal packageJson)
              = Normal packageRecipe) by reflexivity.
  split; [exact H |].
  assert (Hneq : SfdxFalconRecipe.APPX_DEMO <> SfdxFalconRecipe.APPX_PACKAGE)
    by discriminate.
  pose proof (RecipeProperties.package_recipe_compiles_but_cannot_run
                demoProject (Normal packageJson) packageRecipe JsNull H eq_refl Hneq)
    as Hp.
  cbv zeta in Hp. destruct Hp as (Hc & _ & _ & _ & Hx).
  split; [exact Hc |].
  destruct (Hx JsNull) as (e & He & Ht).
  exists e. split; [now rewrite He | exact Ht].
Defined.

(** The demo engine rejects, so the success message is not rendered. *)
Lemma recipe_execute_renders_success_witness :
  SfdxFalconRecipe._compiled compiledRecipe = Some true
  /\ exists t,
       completion (SfdxFalconRecipe.execute JsNull compiledRecipe) = Throw t
       /\ ~ In CallRenderSuccessMessage
               (trace (SfdxFalconRecipe.execute JsNull compiledRecipe)).
Proof.
  split; [reflexivity |].
  destruct (SfdxFalconRecipe._recipeEngine compiledRecipe)
    as [engine|] eqn:He; [| vm_compute in He; discriminate].
  pose proof (RecipeProperties.recipe_execute_renders_success_only_on_success
                JsNull compiledRecipe engine eq_refl He) as H.
  cbv zeta in H. destruct H as (_ & H).
  destruct (completion (SfdxFalconRecipe.execute JsNull compiledRecipe))
    as [res|t] eqn:Hc; [vm_compute in Hc; discriminate |].
  exists t. split; [reflexivity |]. exact (proj2 (H t eq_refl)).
Defined.

(** With the engine that resolves, the recipe returns its result in SUCCESS
    status and the success message is rendered last. *)
Example recipe_execute_success_path :
  exists res,
    completion (SfdxFalconRecipe.execute (deps := resolvingDeps) JsNull
                  compiledRecipeThatResolves) = Normal res
    /\ type res = RECIPE /\ status res = SUCCESS
    /\ trace (SfdxFalconRecipe.execute (deps := resolvingDeps) JsNull
                compiledRecipeThatResolves)
       = [CallStartExecution; CallExecuteEngine; CallEndExecution;
          CallRenderSuccessMessage].
Proof. eexists. vm_compute. repeat split. Qed.

Lemma unparsable_options_witness :
  let r := SfdxFalconCommand.sfdxFalconCommandInit (Some "falcon:demo:clone")
             CT_APPX_PACKAGE
             (SfdxFalconCommand.newCommand flagsWithBadOptions demoArgs) in
  completion r = Throw (ThrownError (MkError "SyntaxError" "Unexpected token"))
  /\ SfdxFalconCommand.falconCommandResult (after r) = None
  /\ exists e,
       completion (SfdxFalconCommand.onError (ThrownValue JsNull) (after r))
       = Throw (ThrownError e)
       /\ errCtor e = "TypeError".
Proof.
  pose proof (CommandProperties.unparsable_options_leave_no_command_result
                (Some "falcon:demo:clone") CT_APPX_PACKAGE flagsWithBadOptions demoArgs
                (ThrownError (MkError "SyntaxError" "Unexpected token")) eq_refl) as H.
  cbv zeta in H. destruct H as (Hc & _ & Hr & _ & He & _).
  split; [exact Hc |]. split; [exact Hr |].
  exact (proj1 (He (ThrownValue JsNull))).
Defined.

Lemma invalid_directory_witness :
  let r := SfdxFalconCommand.sfdxFalconCommandInit (Some "falcon:demo:clone")
             CT_APPX_PACKAGE (SfdxFalconCommand.newCommand demoFlags demoArgs) in
  completion r = Normal tt
  /\ forall rejected,
       completion (SfdxFalconCommand.onError rejected (after r)) = Normal tt
       /\ In CallTerminateWithError
             (trace (SfdxFalconCommand.onError rejected (after r))).
Proof.
  pose proof (CommandProperties.invalid_directory_is_reported_after_result_is_built
                (Some "falcon:demo:clone") CT_APPX_PACKAGE
                (SfdxFalconCommand.newCommand demoFlags demoArgs) (JsObject [])
                eq_refl) as H.
  cbv zeta in H. destruct H as (Hiff & _ & _ & _ & _ & _ & Herr).
  split.
  - apply Hiff. repeat split.
  - intros rejected. destruct (Herr rejected) as (H1 & H2 & _). split; assumption.
Defined.

(** Text outside the ASCII range: [accented] is a letter of two bytes and
    one UTF-16 code unit. *)
Definition accented : string :=
  String (ascii_of_nat 195) (String (ascii_of_nat 169) EmptyString).

(** A base of 35 code units, which are 36 bytes, is accepted; one more
    character and it is refused. *)
Example createUniqueUsername_counts_code_units :
  let base := String.append accented "23456789012345678901234@domain.org" in
  String.length base = 36%nat /\ jsLength base = 35%nat
  /\ SfdxFalconUtil.createUniqueUsername "-uuid" (Some base)
     = Normal (String.append base "-uuid")
  /\ exists e,
       SfdxFalconUtil.createUniqueUsername "-uuid" (Some (String.append base "x"))
       = Throw e.
Proof. cbv zeta. repeat split. eexists. reflexivity. Qed.

(** A cell of three letters, two of them accented, padded to width five
    gets two spaces, and its width is three. *)
Example pad_and_calcWidth_count_code_units :
  let cell := String.append accented (String.append "a" accented) in
  String.length cell = 5%nat
  /\ UxHelper.calcWidth (fun s => s) cell = 3%nat
  /\ UxHelper.pad (fun s => s) cell 5 = String.append cell "  ".
Proof. cbv zeta. repeat split. Qed.

End PropertyExamples.
